(** * setupTypeScript.js: the scaffold converter of the Svelte template

    A shallow embedding of [scripts/setupTypeScript.js] and of the parts of
    the Node.js runtime it calls ([String.prototype.replace], [Object.assign],
    [path.join], the synchronous [fs] calls), and of the dev server that
    [rollup.config.js] defines, followed by the properties of the
    conversion.

    Modelling conventions.
    - A file holds UTF-8 text; a text is a [string], one character per byte.
      All patterns of the script are ASCII, and an ASCII byte never occurs
      inside a multi-byte UTF-8 sequence, so searching bytes and searching
      code units find the same occurrences. Node decodes what it reads and
      encodes what it writes; on well-formed UTF-8 ([UTF8.wellFormed]) the
      text read is the bytes of the file and the bytes written are the text.
      Bytes that are not well-formed are read as U+FFFD: the disk modelled
      here does not hold such files, and a property of a text that is read
      and written back is a property of a well-formed file.
    - The disk is a tree of directories and files, without links, permissions
      or case folding. A path is the list of its segments from the root.
    - The script lies in a file named setupTypeScript.js, as in the
      repository; the directory it lies in is a parameter.
    - A thrown exception aborts the script: what was written before stays. *)

From Stdlib Require Import Ascii String.
From stdpp Require Import gmap strings list pretty.

Local Open Scope string_scope.

#[local] Arguments String.append !_ _ / : simpl nomatch.

(** ** Part I: definitions *)

(** *** JavaScript strings *)

Module JSString.

(** [s.startsWith(pat)]. *)
Fixpoint startsWith (pat s : string) : bool :=
  match pat, s with
  | EmptyString, _ => true
  | String _ _, EmptyString => false
  | String a pat', String b s' => Ascii.eqb a b && startsWith pat' s'
  end.

(** [s.slice(n)]. *)
Fixpoint drop (n : nat) (s : string) : string :=
  match n, s with
  | S n', String _ s' => drop n' s'
  | _, _ => s
  end.

(** [s.includes(pat)]. *)
Fixpoint includes (pat s : string) : bool :=
  startsWith pat s ||
  match s with
  | EmptyString => false
  | String _ s' => includes pat s'
  end.

(** [s.indexOf(pat)]: where [pat] occurs first, if it occurs. *)
Fixpoint indexOf (pat s : string) : option nat :=
  if startsWith pat s then Some 0
  else
    match s with
    | EmptyString => None
    | String _ s' => S <$> indexOf pat s'
    end.

(** The number of positions of [s] at which [pat] occurs. *)
Fixpoint occurrences (pat s : string) : nat :=
  (if startsWith pat s then 1 else 0) +
  match s with
  | EmptyString => 0
  | String _ s' => occurrences pat s'
  end.

(** GetSubstitution of ECMA-262 for a string pattern (no capture groups):
    in the replacement text, [$$] stands for a dollar sign, [$&] for the
    matched text, [$`] for the text before the match and [$'] for the text
    after it; every other character stands for itself. *)
Fixpoint getSubstitution (matched before after rep : string) : string :=
  match rep with
  | EmptyString => EmptyString
  | String "$" (String "$" r) => String "$" (getSubstitution matched before after r)
  | String "$" (String "&" r) => matched ++ getSubstitution matched before after r
  | String "$" (String "`" r) => before ++ getSubstitution matched before after r
  | String "$" (String "'" r) => after ++ getSubstitution matched before after r
  | String c r => String c (getSubstitution matched before after r)
  end.

(** The scan of [replace]: [before] is the text already passed. *)
Fixpoint replaceFrom (before s pat rep : string) : string :=
  if startsWith pat s then
    let after := drop (String.length pat) s in
    getSubstitution pat before after rep ++ after
  else
    match s with
    | EmptyString => EmptyString
    | String c s' => String c (replaceFrom (before ++ String c EmptyString) s' pat rep)
    end.

(** [s.replace(pat, rep)] for a string [pat]: only the first occurrence
    is replaced; without an occurrence the text is returned as it is. *)
Definition replace (s pat rep : string) : string := replaceFrom EmptyString s pat rep.

(** The same edit with the replacement taken literally. *)
Fixpoint splice (s pat rep : string) : string :=
  if startsWith pat s then rep ++ drop (String.length pat) s
  else
    match s with
    | EmptyString => EmptyString
    | String c s' => String c (splice s' pat rep)
    end.

(** *** Deciding occurrences in a text of which only the start is known *)

(** [known u w]: does [u] occur at the start of [w ++ t], whatever [t] is?
    [None] when the answer depends on [t]. *)
Fixpoint known (u w : string) : option bool :=
  match u with
  | EmptyString => Some true
  | String a u' =>
    match w with
    | EmptyString => None
    | String b w' => if Ascii.eqb a b then known u' w' else Some false
    end
  end.

(** The number of occurrences of [u] in [x ++ z ++ t] that start inside
    [x], when it does not depend on [t]. *)
Fixpoint occursIn (u x z : string) : option nat :=
  match x with
  | EmptyString => Some 0
  | String _ x' =>
    match known u (x ++ z), occursIn u x' z with
    | Some b, Some n => Some ((if b then 1 else 0) + n)
    | _, _ => None
    end
  end.

(** [v] starts [old ++ t] exactly when it starts [new ++ t]. *)
Definition agree (v old new : string) : bool :=
  match known v old, known v new with
  | Some a, Some b => Bool.eqb a b
  | _, _ => false
  end.

Fixpoint tailsAgree (v old new : string) : bool :=
  agree v old new &&
  match v with
  | EmptyString => true
  | String _ v' => tailsAgree v' old new
  end.

(** Replacing [x ++ z] by [y ++ z] moves the number of occurrences of [u]
    from [a] to [b] at the place of the edit and changes nothing else. *)
Definition shifts (u x y z : string) (a b : nat) : bool :=
  match occursIn u x z, occursIn u y z with
  | Some a', Some b' => Nat.eqb a a' && Nat.eqb b b'
  | _, _ => false
  end &&
  match u with
  | EmptyString => true
  | String _ u' => tailsAgree u' (x ++ z) (y ++ z)
  end.

(** No proper, non-empty end of [pat] can start [w ++ t]: an occurrence of
    [pat] that begins before [w] ends before [w]. *)
Fixpoint noneStarts (v w : string) : bool :=
  match v with
  | EmptyString => true
  | String _ v' =>
    match known v w with Some false => noneStarts v' w | _ => false end
  end.

Definition tailsClear (pat w : string) : bool :=
  match pat with
  | EmptyString => false
  | String _ v => noneStarts v w
  end.

(** [pat] neither starts inside [w] nor runs into it from the left. *)
Definition apart (pat w : string) : bool :=
  match occursIn pat w EmptyString with Some 0 => tailsClear pat w | _ => false end.

End JSString.

(** *** UTF-8 *)

Module UTF8.

Definition between (lo hi : nat) (c : ascii) : bool :=
  Nat.leb lo (nat_of_ascii c) && Nat.leb (nat_of_ascii c) hi.

(** A continuation byte, 80 to BF. *)
Definition continuation (c : ascii) : bool := between 128 191 c.

(** The byte sequences that are the UTF-8 form of a text (Unicode,
    table 3-7): no stray or missing continuation byte, no overlong form, no
    surrogate, nothing above U+10FFFF. These are the files that
    [fs.readFileSync(p, "utf8")] followed by [fs.writeFileSync(p, text)]
    gives back byte for byte. *)
Fixpoint wellFormed (s : string) : bool :=
  match s with
  | EmptyString => true
  | String a r =>
    if between 0 127 a then wellFormed r
    else if between 194 223 a then
      match r with
      | String b r1 => continuation b && wellFormed r1
      | _ => false
      end
    else if between 224 239 a then
      match r with
      | String b (String c r2) =>
        (if between 224 224 a then between 160 191 b
         else if between 237 237 a then between 128 159 b
         else continuation b) &&
        continuation c && wellFormed r2
      | _ => false
      end
    else if between 240 244 a then
      match r with
      | String b (String c (String d r3)) =>
        (if between 240 240 a then between 144 191 b
         else if between 244 244 a then between 128 143 b
         else continuation b) &&
        continuation c && continuation d && wellFormed r3
      | _ => false
      end
    else false
  end.

End UTF8.

(** Cutting [old] and [new] at their longest common end. *)
Module Edit.
Import JSString.

Fixpoint take (n : nat) (s : string) : string :=
  match n, s with
  | S n', String c s' => String c (take n' s')
  | _, _ => EmptyString
  end.

(** [s.endsWith(pat)]. *)
Definition endsWith (s pat : string) : bool :=
  Nat.leb (String.length pat) (String.length s) &&
  String.eqb (drop (String.length s - String.length pat) s) pat.

(** [(x, y, z)] with [old = x ++ z] and [new = y ++ z]. *)
Fixpoint commonEnd (old new : string) : string * string * string :=
  if endsWith new old then
    (EmptyString, take (String.length new - String.length old) new, old)
  else
    match old with
    | EmptyString => (EmptyString, new, EmptyString)
    | String c old' => let '(x, y, z) := commonEnd old' new in (String c x, y, z)
    end.

(** Replacing the first [old] by [new] takes the occurrences of [u] at
    the place of the edit from [a] to [b], and changes no other. *)
Definition moves (u old new : string) (a b : nat) : bool :=
  let '(x, y, z) := commonEnd old new in shifts u x y z a b.

End Edit.

(** *** JSON values and the objects of the script *)

Module JSON.

(** What [JSON.parse] returns. [number] is the runtime's number type; the
    script never looks inside a number. An object keeps its properties in
    the order [JSON.stringify] prints them; the keys the script adds are no
    array indices, so a key that is new goes last. *)
#[warnings="-register-all"]
Inductive json (number : Type) : Type :=
| JNull
| JBool (b : bool)
| JNumber (n : number)
| JString (s : string)
| JArray (items : list (json number))
| JObject (props : list (string * json number)).

Arguments JNull {number}.
Arguments JBool {number} b.
Arguments JNumber {number} n.
Arguments JString {number} s.
Arguments JArray {number} items.
Arguments JObject {number} props.

Section Properties.
Context {number : Type}.
#[local] Abbreviation value := (json number).

(** [o[k]] on the property list of an object; [None] is [undefined]. *)
Fixpoint lookupProp (props : list (string * value)) (k : string) : option value :=
  match props with
  | [] => None
  | (k', v) :: rest => if String.eqb k' k then Some v else lookupProp rest k
  end.

(** [o[k] = v]: an existing property keeps its place, a new one goes
    last. *)
Fixpoint assignProp (props : list (string * value)) (k : string) (v : value)
  : list (string * value) :=
  match props with
  | [] => [(k, v)]
  | (k', v') :: rest =>
    if String.eqb k' k then (k, v) :: rest else (k', v') :: assignProp rest k v
  end.

(** The properties of [source] assigned one after the other, as
    [Object.assign] does for a source whose values are strings. *)
Definition mergeInto (props : list (string * value)) (source : list (string * string))
  : list (string * value) :=
  fold_left (λ acc kv, assignProp acc kv.1 (JString kv.2)) source props.

Definition hasProp (v : value) (k : string) : bool :=
  match v with
  | JObject props => bool_decide (is_Some (lookupProp props k))
  | _ => false
  end.

End Properties.

End JSON.

Export JSON.

(** *** Exceptions and the monad of the script *)

Inductive errno := ENOENT | ENOTDIR | EISDIR | EEXIST | ENOTEMPTY | EINVAL | EBUSY.

Inductive exn :=
| SyntaxError
| TypeError
| SystemError (code : errno).

Inductive outcome (A : Type) : Type :=
| Returned (a : A)
| Thrown (e : exn).

Arguments Returned {A} a.
Arguments Thrown {A} e.

(** *** The disk *)

Definition path := list string.

#[warnings="-register-all"]
Inductive node :=
| File (content : string)
| Dir (entries : gmap string node).

Module Disk.

(** What lies at [p] below [n], if anything. *)
Fixpoint lookup (p : path) (n : node) : option node :=
  match p with
  | [] => Some n
  | x :: p' =>
    match n with
    | Dir es => es !! x ≫= lookup p'
    | File _ => None
    end
  end.

(** [place p o n] puts [o] at [p] ([None] removes the entry) when the
    directory that holds [p] exists; otherwise [n] is returned as it is. *)
Fixpoint place (p : path) (o : option node) (n : node) : node :=
  match p with
  | [] => default n o
  | x :: p' =>
    match n with
    | File _ => n
    | Dir es =>
      Dir (partial_alter
             (λ oc, match p' with [] => o | _ :: _ => place p' o <$> oc end) x es)
    end
  end.

Definition parent (p : path) : path := removelast p.

(** The error of a path that does not resolve. *)
Fixpoint noEntry (p : path) (n : node) : errno :=
  match p, n with
  | x :: p', Dir es =>
    match es !! x with
    | Some c => noEntry p' c
    | None => ENOENT
    end
  | _ :: _, File _ => ENOTDIR
  | [], _ => ENOENT
  end.

Definition isEmpty (es : gmap string node) : bool := Nat.eqb (size es) 0.

(** What a path shows without looking inside a directory. *)
Inductive view := Absent | IsFile (content : string) | IsDir.

Definition viewOf (o : option node) : view :=
  match o with
  | None => Absent
  | Some (File c) => IsFile c
  | Some (Dir _) => IsDir
  end.

Definition at_ (p : path) (d : node) : view := viewOf (lookup p d).

(** [fs.readFileSync(p, "utf8")] on a disk whose files are well-formed
    UTF-8: the text read is the content of the file. (On other bytes Node
    gives a text with U+FFFD in their place, which this function does
    not.) *)
Definition readFile (p : path) (d : node) : errno + string :=
  match lookup p d with
  | Some (File c) => inr c
  | Some (Dir _) => inl EISDIR
  | None => inl (noEntry p d)
  end.

(** [fs.writeFileSync(p, data)]: the file holds the UTF-8 form of the
    text. *)
Definition writeFile (p : path) (data : string) (d : node) : errno + node :=
  match p, lookup p d with
  | [], _ => inl EISDIR
  | _, Some (File _) => inr (place p (Some (File data)) d)
  | _, Some (Dir _) => inl EISDIR
  | _, None =>
    match lookup (parent p) d with
    | Some (Dir _) => inr (place p (Some (File data)) d)
    | Some (File _) => inl ENOTDIR
    | None => inl (noEntry (parent p) d)
    end
  end.

(** [fs.renameSync(a, b)]: an existing file at [b] is replaced; so is an
    empty directory when [a] is a directory. *)
Definition rename (a b : path) (d : node) : errno + node :=
  match lookup a d with
  | None => inl (noEntry a d)
  | Some src =>
    let moved := place b (Some src) (place a None d) in
    if bool_decide (a = []) || bool_decide (b = []) then inl EBUSY
    else if bool_decide (a = b) then inr d
    else if bool_decide (a `prefix_of` b) then inl EINVAL
    else
      match lookup b d, src with
      | Some (File _), File _ => inr moved
      | Some (File _), Dir _ => inl ENOTDIR
      | Some (Dir _), File _ => inl EISDIR
      | Some (Dir es), Dir _ => if isEmpty es then inr moved else inl ENOTEMPTY
      | None, _ =>
        match lookup (parent b) d with
        | Some (Dir _) => inr moved
        | Some (File _) => inl ENOTDIR
        | None => inl (noEntry (parent b) d)
        end
      end
  end.

(** [fs.unlinkSync(p)] *)
Definition unlink (p : path) (d : node) : errno + node :=
  match p, lookup p d with
  | [], _ => inl EISDIR
  | _, Some (File _) => inr (place p None d)
  | _, Some (Dir _) => inl EISDIR
  | _, None => inl (noEntry p d)
  end.

(** [fs.readdirSync(p)]: the names in the directory, in no promised
    order. *)
Definition readdir (p : path) (d : node) : errno + list string :=
  match lookup p d with
  | Some (Dir es) => inr (map fst (map_to_list es))
  | Some (File _) => inl ENOTDIR
  | None => inl (noEntry p d)
  end.

(** [fs.rmdirSync(p)] *)
Definition rmdir (p : path) (d : node) : errno + node :=
  match lookup p d with
  | Some (Dir es) =>
    match p with
    | [] => inl EBUSY
    | _ :: _ => if isEmpty es then inr (place p None d) else inl ENOTEMPTY
    end
  | Some (File _) => inl ENOTDIR
  | None => inl (noEntry p d)
  end.

(** [fs.mkdirSync(p, { recursive: true })]: missing directories on the way
    are made, and a directory that is already there is no error. *)
Fixpoint mkdirp (p : path) (n : node) : errno + node :=
  match p with
  | [] =>
    match n with
    | Dir _ => inr n
    | File _ => inl EEXIST
    end
  | x :: p' =>
    match n with
    | File _ => inl ENOTDIR
    | Dir es =>
      match mkdirp p' (default (Dir ∅) (es !! x)) with
      | inr c => inr (Dir (<[x := c]> es))
      | inl e => inl e
      end
    end
  end.

(** [fs.existsSync(p)] *)
Definition exists_ (p : path) (d : node) : bool :=
  bool_decide (is_Some (lookup p d)).

End Disk.

(** *** Paths *)

Module Path.

(** One segment applied to a normalised path. *)
Definition enter (p : path) (seg : string) : path :=
  if String.eqb seg ".." then removelast p
  else if String.eqb seg "." || String.eqb seg "" then p
  else (p ++ [seg])%list.

(** [path.join(p, seg1, ..., segn)] for a [p] that is resolved already. *)
Definition join (p : path) (segs : list string) : path := fold_left enter segs p.

(** The segments of a path text, cut at the slashes. *)
Fixpoint segments (cur s : string) : list string :=
  match s with
  | EmptyString => [cur]
  | String c s' =>
    if Ascii.eqb c "/" then cur :: segments EmptyString s'
    else segments (cur ++ String c EmptyString) s'
  end.

(** The place a path text names for a process whose working directory is
    [cwd]. *)
Definition resolve (cwd : path) (s : string) : path :=
  join (if JSString.startsWith "/" s then [] else cwd) (segments EmptyString s).

End Path.

(** *** The process and its effects *)

(** The calls of the script to [fs]. *)
Inductive call :=
| ReadFileSync (p : path)
| WriteFileSync (p : path) (data : string)
| RenameSync (a b : path)
| UnlinkSync (p : path)
| ReaddirSync (p : path)
| RmdirSync (p : path)
| MkdirSync (p : path)
| ExistsSync (p : path).

(** The state the script acts on: the disk, the [fs] calls made so far
    (the latest first) and the lines written to the console. *)
Record world := World {
  disk : node;
  journal : list call;
  console : list string
}.

(** A computation returns or throws, and leaves a world either way. *)
Definition M (A : Type) : Type := world → outcome A * world.

#[global] Instance M_ret : MRet M := λ A a w, (Returned a, w).

#[global] Instance M_bind : MBind M := λ A B f m w,
  match m w with
  | (Returned a, w') => f a w'
  | (Thrown e, w') => (Thrown e, w')
  end.

(** [I] holds of the disk after [m] if it held before, whatever [m]
    returns or throws. *)
Definition preserves {A} (I : node → Prop) (m : M A) : Prop :=
  ∀ w r w', m w = (r, w') → I (disk w) → I (disk w').

(** Every call that [m] adds to the journal satisfies [P]. *)
Definition issues {A} (P : call → Prop) (m : M A) : Prop :=
  ∀ w r w', m w = (r, w') → ∃ new, journal w' = (new ++ journal w)%list ∧ Forall P new.

(** [m] writes nothing to the console. *)
Definition silent {A} (m : M A) : Prop :=
  ∀ w r w', m w = (r, w') → console w' = console w.

(** The calls that remove something. *)
Definition deletes (c : call) : bool :=
  match c with
  | UnlinkSync _ | RmdirSync _ => true
  | _ => false
  end.

Definition throw {A} (e : exn) : M A := λ w, (Thrown e, w).

Definition lift {A} (o : outcome A) : M A := λ w, (o, w).

Definition logged (c : call) (w : world) : world :=
  World (disk w) (c :: journal w) (console w).

(** A call that reads the disk. *)
Definition query {A} (c : call) (f : node → errno + A) : M A := λ w,
  match f (disk w) with
  | inr a => (Returned a, logged c w)
  | inl e => (Thrown (SystemError e), logged c w)
  end.

(** A call that changes the disk. *)
Definition update (c : call) (f : node → errno + node) : M unit := λ w,
  match f (disk w) with
  | inr d => (Returned tt, World d (c :: journal w) (console w))
  | inl e => (Thrown (SystemError e), logged c w)
  end.

Module fs.
Definition readFileSync (p : path) : M string := query (ReadFileSync p) (Disk.readFile p).
Definition writeFileSync (p : path) (data : string) : M unit :=
  update (WriteFileSync p data) (Disk.writeFile p data).
Definition renameSync (a b : path) : M unit := update (RenameSync a b) (Disk.rename a b).
Definition unlinkSync (p : path) : M unit := update (UnlinkSync p) (Disk.unlink p).
Definition readdirSync (p : path) : M (list string) := query (ReaddirSync p) (Disk.readdir p).
Definition rmdirSync (p : path) : M unit := update (RmdirSync p) (Disk.rmdir p).
Definition mkdirSync (p : path) : M unit := update (MkdirSync p) (Disk.mkdirp p).
Definition existsSync (p : path) : M bool :=
  query (ExistsSync p) (λ d, inr (Disk.exists_ p d)).
End fs.

Definition console_log (line : string) : M unit := λ w,
  (Returned tt, World (disk w) (journal w) (console w ++ [line])%list).

(** The runtime's JSON codec. [JSON_parse] is [None] where [JSON.parse]
    throws a SyntaxError; [JSON_stringify v] is [JSON.stringify(v, null, "  ")]. *)
Class Runtime := {
  number : Type;
  JSON_parse : string → option (json number);
  JSON_stringify : json number → string
}.

(** What the process was started with: [argv[2]] if there is one, the
    working directory and the directory the script lies in. *)
Record process := Process {
  argv2 : option string;
  cwd : path;
  scriptDir : path
}.

(** *** The script *)

Definition LF : string := String "010"%char EmptyString.
Definition TAB : string := String "009"%char EmptyString.
Definition DQ : string := String "034"%char EmptyString.
Definition quoted (s : string) : string := DQ ++ s ++ DQ.

Module Script.
Import JSString.

Definition scriptName : string := "setupTypeScript.js".

(** [if (x)] on a value that is a string or undefined. *)
Definition truthy (x : option string) : bool :=
  match x with
  | Some (String _ _) => true
  | _ => false
  end.

(** [v.k] for the two keys the script reads: no array, string, number or
    boolean has them, and reading a property of [null] throws. *)
Definition getProp {number} (v : json number) (k : string) : outcome (option (json number)) :=
  match v with
  | JNull => Thrown TypeError
  | JObject props => Returned (lookupProp props k)
  | _ => Returned None
  end.

(** [v.k = x] in strict mode. A property set on an array is not part of
    its JSON text. *)
Definition setProp {number} (v : json number) (k : string) (x : json number)
  : outcome (json number) :=
  match v with
  | JObject props => Returned (JObject (assignProp props k x))
  | JArray items => Returned (JArray items)
  | _ => Thrown TypeError
  end.

(** [Object.assign(target, source)] for a source with string values, as
    far as the JSON text of the result tells: [undefined] and [null]
    cannot be converted to an object; a string, a number, a boolean or an
    array gets the properties in memory, and [JSON.stringify] does not
    print them. *)
Definition Object_assign {number} (target : option (json number))
    (source : list (string * string)) : outcome (json number) :=
  match target with
  | None | Some JNull => Thrown TypeError
  | Some (JObject props) =>
    Returned (JObject (mergeInto props source))
  | Some v => Returned v
  end.

Definition devDependencies : list (string * string) :=
  [ ("svelte-check", "^3.0.0");
    ("svelte-preprocess", "^5.0.0");
    ("@rollup/plugin-typescript", "^11.0.0");
    ("typescript", "^4.9.0");
    ("tslib", "^2.5.0");
    ("@tsconfig/svelte", "^3.0.0") ].

Definition scripts : list (string * string) := [ ("check", "svelte-check") ].

(** The manifest after the two merges. *)
Definition mergedManifest {number} (props deps scr : list (string * json number))
  : list (string * json number) :=
  assignProp
    (assignProp props "devDependencies" (JObject (mergeInto deps devDependencies)))
    "scripts" (JObject (mergeInto scr scripts)).

(** The two edits of [App.svelte]. *)
Definition scriptTag : string := "<script>".
Definition scriptTagTS : string := "<script lang=" ++ quoted "ts" ++ ">".
Definition nameProp : string := "export let name;".
Definition namePropTS : string := "export let name: string;".

Definition appFileEdits (appFile : string) : string :=
  let appFile := replace appFile scriptTag scriptTagTS in
  replace appFile nameProp namePropTS.

(** The four edits of [rollup.config.js]. *)
Definition cssImport : string := "'rollup-plugin-css-only';".
Definition tsImports : string :=
  LF ++ "import sveltePreprocess from 'svelte-preprocess';" ++
  LF ++ "import typescript from '@rollup/plugin-typescript';".
Definition entryJS : string := "'src/main.js'".
Definition entryTS : string := "'src/main.ts'".
Definition compilerOptions : string := "compilerOptions:".
Definition preprocessLine : string :=
  "preprocess: sveltePreprocess({ sourceMap: !production })," ++ LF ++ TAB ++ TAB ++ TAB.
Definition commonjsCall : string := "commonjs(),".
Definition typescriptCall : string :=
  LF ++ TAB ++ TAB ++ "typescript({" ++
  LF ++ TAB ++ TAB ++ TAB ++ "sourceMap: !production," ++
  LF ++ TAB ++ TAB ++ TAB ++ "inlineSources: !production" ++
  LF ++ TAB ++ TAB ++ "}),".

Definition rollupConfigEdits (rollupConfig : string) : string :=
  let rollupConfig := replace rollupConfig cssImport (cssImport ++ tsImports) in
  let rollupConfig := replace rollupConfig entryJS entryTS in
  let rollupConfig := replace rollupConfig compilerOptions (preprocessLine ++ compilerOptions) in
  replace rollupConfig commonjsCall (commonjsCall ++ typescriptCall).

(** The files written with a fixed content. *)
Definition tsconfig : string :=
  "{" ++ LF ++
  "  " ++ quoted "extends" ++ ": " ++ quoted "@tsconfig/svelte/tsconfig.json" ++ "," ++ LF ++
  LF ++
  "  " ++ quoted "include" ++ ": [" ++ quoted "src/**/*" ++ "]," ++ LF ++
  "  " ++ quoted "exclude" ++ ": [" ++ quoted "node_modules/*" ++ ", " ++
    quoted "__sapper__/*" ++ ", " ++ quoted "public/*" ++ "]" ++ LF ++
  "}".

Definition svelteConfig : string :=
  "import sveltePreprocess from 'svelte-preprocess';" ++ LF ++
  LF ++
  "export default {" ++ LF ++
  "  preprocess: sveltePreprocess()" ++ LF ++
  "};" ++ LF.

Definition globalDts : string := "/// <reference types=" ++ quoted "svelte" ++ " />".

Definition extensions : string :=
  "{" ++ LF ++
  "  " ++ quoted "recommendations" ++ ": [" ++ quoted "svelte.svelte-vscode" ++ "]" ++ LF ++
  "}" ++ LF.

(** The two lines printed. *)
Definition converted : string := "Converted to TypeScript.".
Definition rerunHint : string :=
  LF ++ "You will need to re-run your dependency manager to get started.".

Section Run.
Context {rt : Runtime} (proc : process).

Definition __dirname : path := scriptDir proc.
Definition __filename : path := (__dirname ++ [scriptName])%list.

(** [argv[2] || path.join(__dirname, "..")], resolved. *)
Definition projectRoot : path :=
  if truthy (argv2 proc)
  then Path.resolve (cwd proc) (default EmptyString (argv2 proc))
  else Path.join __dirname [".."].

Definition packageJSONPath : path := Path.join projectRoot ["package.json"].
Definition beforeMainJSPath : path := Path.join projectRoot ["src"; "main.js"].
Definition afterMainTSPath : path := Path.join projectRoot ["src"; "main.ts"].
Definition appSveltePath : path := Path.join projectRoot ["src"; "App.svelte"].
Definition rollupConfigPath : path := Path.join projectRoot ["rollup.config.js"].
Definition tsconfigPath : path := Path.join projectRoot ["tsconfig.json"].
Definition svelteConfigPath : path := Path.join projectRoot ["svelte.config.js"].
Definition dtsPath : path := Path.join projectRoot ["src"; "global.d.ts"].

(** Add dependencies to package.json, add script for checking, write
    the package JSON. *)
Definition addDependencies : M unit :=
  text ← fs.readFileSync packageJSONPath;
  packageJSON ← match JSON_parse text with
                 | Some v => mret v
                 | None => throw SyntaxError
                 end;
  target ← lift (getProp packageJSON "devDependencies");
  merged ← lift (Object_assign target devDependencies);
  packageJSON ← lift (setProp packageJSON "devDependencies" merged);
  target ← lift (getProp packageJSON "scripts");
  merged ← lift (Object_assign target scripts);
  packageJSON ← lift (setProp packageJSON "scripts" merged);
  fs.writeFileSync packageJSONPath (JSON_stringify packageJSON).

(** Rename src/main.js to main.ts. *)
Definition renameMain : M unit :=
  fs.renameSync beforeMainJSPath afterMainTSPath.

(** Switch the App.svelte file to use TS. *)
Definition switchAppToTS : M unit :=
  appFile ← fs.readFileSync appSveltePath;
  fs.writeFileSync appSveltePath (appFileEdits appFile).

(** Edit rollup config. *)
Definition editRollupConfig : M unit :=
  rollupConfig ← fs.readFileSync rollupConfigPath;
  fs.writeFileSync rollupConfigPath (rollupConfigEdits rollupConfig).

Definition addTsconfig : M unit := fs.writeFileSync tsconfigPath tsconfig.
Definition addSvelteConfig : M unit := fs.writeFileSync svelteConfigPath svelteConfig.
Definition addGlobalDts : M unit := fs.writeFileSync dtsPath globalDts.

(** Everything up to the deletion of the script. *)
Definition convert : M unit :=
  addDependencies ;; renameMain ;; switchAppToTS ;; editRollupConfig ;;
  addTsconfig ;; addSvelteConfig ;; addGlobalDts.

(** Delete this script, but not during testing. *)
Definition deleteThisScript : M unit :=
  if negb (truthy (argv2 proc)) then
    fs.unlinkSync (Path.join __filename []) ;;
    remainingFiles ← fs.readdirSync (Path.join __dirname []);
    (match remainingFiles with
     | [name] => if String.eqb name ".DS_store"
                 then fs.unlinkSync (Path.join __dirname [".DS_store"])
                 else mret tt
     | _ => mret tt
     end) ;;
    remainingFiles ← fs.readdirSync (Path.join __dirname []);
    (if Nat.eqb (length remainingFiles) 0
     then fs.rmdirSync (Path.join __dirname [])
     else mret tt)
  else mret tt.

(** Adds the extension recommendation. *)
Definition addExtensionRecommendation : M unit :=
  fs.mkdirSync (Path.join projectRoot [".vscode"]) ;;
  fs.writeFileSync (Path.join projectRoot [".vscode"; "extensions.json"]) extensions.

(** The two messages. *)
Definition report : M unit :=
  console_log "Converted to TypeScript." ;;
  found ← fs.existsSync (Path.join projectRoot ["node_modules"]);
  if (found : bool)
  then console_log (LF ++ "You will need to re-run your dependency manager to get started.")
  else mret tt.

(** The script, top to bottom. *)
Definition setupTypeScript : M unit :=
  convert ;; deleteThisScript ;; addExtensionRecommendation ;; report.

End Run.

End Script.

(** *** rollup.config.js

    The module reads [process.env.ROLLUP_WATCH], lists the plugins of the
    build and defines one plugin of its own, [serve], whose [writeBundle]
    hook starts the dev server. *)

Module RollupConfig.
Import Script.

(** The events of [process] the module listens to. *)
Inductive event := SIGTERM | exit.

#[global] Instance event_eq_dec : EqDecision event.
Proof. solve_decision. Defined.

(** What [spawn] is called with. *)
Record spawned := Spawned {
  command : string;
  args : list string;
  stdio : list string;
  shell : bool
}.

(** The process that runs rollup, as far as the module acts on it: the
    children started (a child is named by its place in the list), the
    listeners added with [process.on], each of them [toExit], and the
    signals sent with [kill]. *)
Record host := Host {
  children : list spawned;
  listeners : list event;
  kills : list (nat * Z)
}.

(** One call of [serve()]: its variable [server], undefined at first, and
    the host. *)
Record state := State {
  server : option nat;
  outside : host
}.

Definition initial : state := State None (Host [] [] []).

Definition npmStart : spawned :=
  Spawned "npm" ["run"; "start"; "--"; "--dev"] ["ignore"; "inherit"; "inherit"] true.

(** [if (server) server.kill(0)] *)
Definition toExit (s : state) : state :=
  match server s with
  | Some child =>
    let h := outside s in
    State (server s) (Host (children h) (listeners h) (kills h ++ [(child, 0%Z)]))
  | None => s
  end.

(** The hook: [if (server) return], then [spawn] and the two
    [process.on]. *)
Definition writeBundle (s : state) : state :=
  match server s with
  | Some _ => s
  | None =>
    let h := outside s in
    State (Some (length (children h)))
          (Host (children h ++ [npmStart]) (listeners h ++ [SIGTERM; exit]) (kills h))
  end.

(** [process] emits [ev]: the listeners added for [ev] run in the order in
    which they were added. *)
Definition emit (ev : event) (s : state) : state :=
  fold_left (λ s l, if bool_decide (l = ev) then toExit s else s)
            (listeners (outside s)) s.

Inductive plugin :=
| svelte (dev : bool)
| css (output : string)
| resolve
| commonjs
| serve
| livereload (dir : string)
| terser.

(** [!process.env.ROLLUP_WATCH] *)
Definition production (ROLLUP_WATCH : option string) : bool :=
  negb (truthy ROLLUP_WATCH).

(** [a && b] for a boolean [a]; [None] is the value false. *)
Definition and_then {A} (a : bool) (b : A) : option A :=
  if a then Some b else None.

Definition plugins (ROLLUP_WATCH : option string) : list (option plugin) :=
  let production := production ROLLUP_WATCH in
  [ Some (svelte (negb production));
    Some (css "bundle.css");
    Some resolve;
    Some commonjs;
    and_then (negb production) serve;
    and_then (negb production) (livereload "public");
    and_then production terser ].

(** Rollup has written a bundle: it calls the [writeBundle] hook of every
    plugin of the list, an entry that is false being no plugin. Of the
    hooks only the one of [serve] is code of this module. *)
Definition bundleWritten (ROLLUP_WATCH : option string) (s : state) : state :=
  fold_left (λ s p, match p with Some serve => writeBundle s | _ => s end)
            (plugins ROLLUP_WATCH) s.

(** What happens to a rollup process: a bundle is written, or [process]
    emits an event. *)
Inductive step := Bundle | Emit (ev : event).

#[global] Instance step_eq_dec : EqDecision step.
Proof. solve_decision. Defined.

Definition after (ROLLUP_WATCH : option string) (s : state) (a : step) : state :=
  match a with
  | Bundle => bundleWritten ROLLUP_WATCH s
  | Emit ev => emit ev s
  end.

Definition session (ROLLUP_WATCH : option string) (steps : list step) : state :=
  fold_left (after ROLLUP_WATCH) steps initial.

End RollupConfig.

(** *** A runtime to execute the script with

    A JSON codec for a part of JSON: numbers that are integer literals of
    at most 2^53 in size, strings with the short escapes only, and objects
    without a key made of digits. On such a text [parse] gives the value
    that [JSON.parse] gives. It refuses every other text, also where
    [JSON.parse] does not: a fraction or an exponent, a larger integer
    (which [JSON.parse] rounds), a [\u] escape, a key made of digits (an
    array index, which a JavaScript object lists before its other keys).
    The properties hold for every [Runtime]; this one serves to run the
    script on the sample project below. *)

Module SampleRuntime.

Definition isSpace (c : ascii) : bool :=
  Ascii.eqb c " " || Ascii.eqb c "010" || Ascii.eqb c "013" || Ascii.eqb c "009".

Fixpoint skipSpace (s : string) : string :=
  match s with
  | String c s' => if isSpace c then skipSpace s' else s
  | EmptyString => s
  end.

Definition unescape (c : ascii) : option ascii :=
  if Ascii.eqb c "034" then Some "034"%char
  else if Ascii.eqb c "\" then Some "\"%char
  else if Ascii.eqb c "/" then Some "/"%char
  else if Ascii.eqb c "b" then Some "008"%char
  else if Ascii.eqb c "f" then Some "012"%char
  else if Ascii.eqb c "n" then Some "010"%char
  else if Ascii.eqb c "r" then Some "013"%char
  else if Ascii.eqb c "t" then Some "009"%char
  else None.

(** The text of a string literal, after its opening quote. *)
Fixpoint parseString (acc s : string) : option (string * string) :=
  match s with
  | EmptyString => None
  | String c r =>
    if Ascii.eqb c "034" then Some (acc, r)
    else if Ascii.eqb c "\" then
      match r with
      | String e r' =>
        match unescape e with
        | Some x => parseString (acc ++ String x EmptyString) r'
        | None => None
        end
      | EmptyString => None
      end
    else if Nat.ltb (nat_of_ascii c) 32 then None
    else parseString (acc ++ String c EmptyString) r
  end.

Definition digit (c : ascii) : option Z :=
  let n := nat_of_ascii c in
  if Nat.leb 48 n && Nat.leb n 57 then Some (Z.of_nat (n - 48)) else None.

Fixpoint parseDigits (acc : Z) (s : string) : Z * string :=
  match s with
  | String c r =>
    match digit c with
    | Some d => parseDigits (10 * acc + d) r
    | None => (acc, s)
    end
  | EmptyString => (acc, s)
  end.

(** The integers that a JavaScript number holds exactly and prints as
    they are. *)
Definition exactInteger (n : Z) : bool := Z.leb n 9007199254740992.

(** An integer literal: no leading zero, no fraction, no exponent. *)
Definition parseInt (s : string) : option (Z * string) :=
  let '(neg, s1) := match s with
                    | String "-" r => (true, r)
                    | _ => (false, s)
                    end in
  match s1 with
  | String c r =>
    match digit c with
    | Some d =>
      let '(n, rest) := if Z.eqb d 0 then (0%Z, r) else parseDigits d r in
      if negb (exactInteger n) then None
      else
        match rest with
        | String x _ =>
          if Ascii.eqb x "." || Ascii.eqb x "e" || Ascii.eqb x "E" || bool_decide (is_Some (digit x))
          then None
          else Some (if neg then (- n)%Z else n, rest)
        | EmptyString => Some (if neg then (- n)%Z else n, rest)
        end
    | None => None
    end
  | EmptyString => None
  end.

(** A key made of digits. *)
Fixpoint allDigits (s : string) : bool :=
  match s with
  | EmptyString => true
  | String c r => bool_decide (is_Some (digit c)) && allDigits r
  end.

Definition indexKey (k : string) : bool :=
  match k with
  | EmptyString => false
  | String _ _ => allDigits k
  end.

Inductive mode :=
| Value
| Members (acc : list (string * json Z))
| Elements (acc : list (json Z)).

(** One JSON value at the start of [s], or the rest of an object or of an
    array; the fuel bounds the nesting and the number of members. *)
Fixpoint parseFrom (fuel : nat) (m : mode) (s : string) : option (json Z * string) :=
  match fuel with
  | O => None
  | S fuel' =>
    let s := skipSpace s in
    match m with
    | Value =>
      match s with
      | String "{" r =>
        match skipSpace r with
        | String "}" r' => Some (JObject [], r')
        | _ => parseFrom fuel' (Members []) r
        end
      | String "[" r =>
        match skipSpace r with
        | String "]" r' => Some (JArray [], r')
        | _ => parseFrom fuel' (Elements []) r
        end
      | String "034" r =>
        match parseString EmptyString r with
        | Some (x, r') => Some (JString x, r')
        | None => None
        end
      | _ =>
        if JSString.startsWith "true" s then Some (JBool true, JSString.drop 4 s)
        else if JSString.startsWith "false" s then Some (JBool false, JSString.drop 5 s)
        else if JSString.startsWith "null" s then Some (JNull, JSString.drop 4 s)
        else match parseInt s with
             | Some (n, r) => Some (JNumber n, r)
             | None => None
             end
      end
    | Members acc =>
      match s with
      | String "034" r =>
        match parseString EmptyString r with
        | Some (k, r1) =>
          if indexKey k then None else
          match skipSpace r1 with
          | String ":" r2 =>
            match parseFrom fuel' Value r2 with
            | Some (v, r3) =>
              let acc := assignProp acc k v in
              match skipSpace r3 with
              | String "," r4 => parseFrom fuel' (Members acc) r4
              | String "}" r4 => Some (JObject acc, r4)
              | _ => None
              end
            | None => None
            end
          | _ => None
          end
        | None => None
        end
      | _ => None
      end
    | Elements acc =>
      match parseFrom fuel' Value s with
      | Some (v, r1) =>
        let acc := (acc ++ [v])%list in
        match skipSpace r1 with
        | String "," r2 => parseFrom fuel' (Elements acc) r2
        | String "]" r2 => Some (JArray acc, r2)
        | _ => None
        end
      | None => None
      end
    end
  end.

Definition parse (s : string) : option (json Z) :=
  match parseFrom (S (String.length s)) Value s with
  | Some (v, rest) =>
    match skipSpace rest with
    | EmptyString => Some v
    | String _ _ => None
    end
  | None => None
  end.

Definition hexDigit (n : nat) : ascii :=
  ascii_of_nat (if Nat.ltb n 10 then 48 + n else 87 + n).

Definition escape (c : ascii) : string :=
  if Ascii.eqb c "034" then "\" ++ DQ
  else if Ascii.eqb c "\" then "\\"
  else if Ascii.eqb c "008" then "\b"
  else if Ascii.eqb c "012" then "\f"
  else if Ascii.eqb c "010" then "\n"
  else if Ascii.eqb c "013" then "\r"
  else if Ascii.eqb c "009" then "\t"
  else if Nat.ltb (nat_of_ascii c) 32 then
    "\u00" ++ String (hexDigit (nat_of_ascii c / 16))
                     (String (hexDigit (nat_of_ascii c mod 16)) EmptyString)
  else String c EmptyString.

Fixpoint escapeAll (s : string) : string :=
  match s with
  | EmptyString => EmptyString
  | String c r => escape c ++ escapeAll r
  end.

Definition quote (s : string) : string := quoted (escapeAll s).

(** [JSON.stringify(v, null, gap)] at the indentation [indent]. *)
Fixpoint stringifyAt (gap indent : string) (v : json Z) : string :=
  let inner := indent ++ gap in
  match v with
  | JNull => "null"
  | JBool true => "true"
  | JBool false => "false"
  | JNumber n => pretty n
  | JString s => quote s
  | JArray [] => "[]"
  | JArray (x :: xs) =>
    "[" ++ LF ++ inner ++ stringifyAt gap inner x ++
    (fix rest (l : list (json Z)) : string :=
       match l with
       | [] => EmptyString
       | y :: l' => "," ++ LF ++ inner ++ stringifyAt gap inner y ++ rest l'
       end) xs ++
    LF ++ indent ++ "]"
  | JObject [] => "{}"
  | JObject ((k, x) :: ps) =>
    "{" ++ LF ++ inner ++ quote k ++ ": " ++ stringifyAt gap inner x ++
    (fix rest (l : list (string * json Z)) : string :=
       match l with
       | [] => EmptyString
       | (k', y) :: l' =>
         "," ++ LF ++ inner ++ quote k' ++ ": " ++ stringifyAt gap inner y ++ rest l'
       end) ps ++
    LF ++ indent ++ "}"
  end.

Definition stringify (v : json Z) : string := stringifyAt "  " EmptyString v.

#[global] Instance runtime : Runtime :=
  {| number := Z; JSON_parse := parse; JSON_stringify := stringify |}.

End SampleRuntime.

(** *** A sample project: the template as cloned *)

Module Sample.

Definition manifestScripts : list (string * json Z) :=
  [ ("build", JString "rollup -c");
    ("dev", JString "rollup -c -w");
    ("start", JString "sirv public --no-clear") ].

Definition manifestDependencies : list (string * json Z) :=
  [ ("@rollup/plugin-commonjs", JString "^24.0.0");
    ("rollup", JString "^3.15.0");
    ("svelte", JString "^3.55.0");
    ("typescript", JString "^3.0.0") ].

Definition manifestProps : list (string * json Z) :=
  [ ("name", JString "svelte-app");
    ("version", JString "1.0.0");
    ("private", JBool true);
    ("type", JString "module");
    ("scripts", JObject manifestScripts);
    ("devDependencies", JObject manifestDependencies);
    ("dependencies", JObject [ ("sirv-cli", JString "^2.0.0") ]);
    ("port", JNumber 8080%Z) ].

Definition manifest : json Z := JObject manifestProps.

Definition packageJSON : string := SampleRuntime.stringify manifest.

Definition appSvelte : string :=
  "<script>" ++ LF ++
  TAB ++ "export let name;" ++ LF ++
  "</script>" ++ LF ++
  LF ++
  "<main>" ++ LF ++
  TAB ++ "<h1>Hello {name}!</h1>" ++ LF ++
  "</main>" ++ LF.

Definition mainJS : string :=
  "import App from './App.svelte';" ++ LF ++
  LF ++
  "const app = new App({" ++ LF ++
  TAB ++ "target: document.body," ++ LF ++
  TAB ++ "props: { name: 'world' }" ++ LF ++
  "});" ++ LF ++
  LF ++
  "export default app;" ++ LF.

(** The rollup.config.js of the repository, as it is. *)
Definition rollupConfig : string :=
  "import { spawn } from 'child_process'; // Import the 'spawn' function from 'child_process' to run child processes (like starting the server).
import svelte from 'rollup-plugin-svelte'; // Import the Svelte plugin for Rollup to compile Svelte components.
import commonjs from '@rollup/plugin-commonjs'; // Import the CommonJS plugin to convert CommonJS modules to ES6.
import terser from '@rollup/plugin-terser'; // Import the Terser plugin to minify the output for production.
import resolve from '@rollup/plugin-node-resolve'; // Import the Node Resolve plugin to locate modules using the Node resolution algorithm.
import livereload from 'rollup-plugin-livereload'; // Import the Livereload plugin to reload the browser on changes.
import css from 'rollup-plugin-css-only'; // Import the CSS-only plugin to extract CSS into a separate file.

const production = !process.env.ROLLUP_WATCH; // Determine if we're in production mode by checking the ROLLUP_WATCH environment variable.

function serve() {
	let server; // Declare a variable to hold the server process.

	function toExit() {
		if (server) server.kill(0); // Define a function to kill the server process when exiting.
	}

	return {
		writeBundle() { // The writeBundle hook runs after the bundle is written.
			if (server) return; // If the server is already running, do nothing.
			server = spawn('npm', ['run', 'start', '--', '--dev'], { // Start the server by running 'npm run start -- --dev'.
				stdio: ['ignore', 'inherit', 'inherit'], // Inherit the parent's standard output and error.
				shell: true // Use the shell to execute the command.
			});

			process.on('SIGTERM', toExit); // Listen for the SIGTERM signal to gracefully exit the server.
			process.on('exit', toExit); // Listen for the process exit event to gracefully exit the server.
		}
	};
}

export default {
	input: 'src/main.js', // Entry point for the application (change to 'src/main.ts' if using TypeScript).
	output: {
		sourcemap: true, // Generate a sourcemap for debugging.
		format: 'iife', // Use the IIFE format to wrap the code in an immediately-invoked function expression.
		name: 'app', // The global variable name for the app (used in IIFE format).
		file: 'public/build/bundle.js' // Output file for the bundle.
	},
	plugins: [
		svelte({
			compilerOptions: {
				// Enable run-time checks when not in production.
				dev: !production 
			}
		}),
		css({ output: 'bundle.css' }), // Extract component CSS into a separate file for better performance.

		// Resolve and bundle dependencies from 'node_modules'.
		resolve({
			browser: true, // Specify that we are targeting browsers.
			dedupe: ['svelte'], // Prevent duplicate instances of the Svelte library.
			exportConditions: ['svelte'] // Use the 'svelte' export condition.
		}),
		commonjs(), // Convert CommonJS modules to ES6 for compatibility.

		// In dev mode, start the server after the bundle is generated.
		!production && serve(),

		// Watch the 'public' directory and refresh the browser on changes in dev mode.
		!production && livereload('public'),

		// Minify the output for production builds.
		production && terser()
	],
	watch: {
		clearScreen: false // Keep the console output when rebuilding the bundle.
	}
};
".

Definition scriptText : string := "// @ts-check".

Definition srcDir (app : string) : gmap string node :=
  {[ "main.js" := File mainJS; "App.svelte" := File app ]}.

(** The project in /work/template, its script in /work/template/scripts. *)
Definition project (src scriptsDir : gmap string node) : node :=
  Dir {[ "work" :=
           Dir {[ "template" :=
                    Dir {[ "package.json" := File packageJSON;
                           "rollup.config.js" := File rollupConfig;
                           "scripts" := Dir scriptsDir;
                           "src" := Dir src ]} ]} ]}.

Definition scriptsOnly : gmap string node := {[ Script.scriptName := File scriptText ]}.

Definition scriptsAndStore : gmap string node :=
  {[ Script.scriptName := File scriptText; ".DS_store" := File EmptyString ]}.

Definition start : world := World (project (srcDir appSvelte) scriptsOnly) [] [].

Definition startWithStore : world :=
  World (project (srcDir appSvelte) scriptsAndStore) [] [].

(** The script and a directory of the name .DS_store. *)
Definition scriptsAndStoreDir : gmap string node :=
  {[ Script.scriptName := File scriptText; ".DS_store" := Dir ∅ ]}.

Definition startWithStoreDir : world :=
  World (project (srcDir appSvelte) scriptsAndStoreDir) [] [].

(** A component whose first line is a comment that names both tags. *)
Definition appWithComment : string :=
  "<!-- change <script> to <script lang=" ++ quoted "ts" ++ "> for TypeScript -->" ++ LF ++
  appSvelte.

Definition startWithComment : world :=
  World (project (srcDir appWithComment) scriptsOnly) [] [].

(** A component without a script block. *)
Definition appPlain : string := "<h1>Hello!</h1>" ++ LF.

Definition startPlain : world := World (project (srcDir appPlain) scriptsOnly) [] [].

(** A project in which src/main.ts exists already. *)
Definition startWithMainTS : world :=
  World (project (<[ "main.ts" := File "export {};" ]> (srcDir appSvelte)) scriptsOnly)
        [] [].

(** A project without src/main.js. *)
Definition startWithoutMainJS : world :=
  World (project {[ "App.svelte" := File appSvelte ]} scriptsOnly) [] [].

(** A manifest without a scripts map. *)
Definition bareManifest : json Z := JObject [ ("name", JString "svelte-app"); ("devDependencies", JObject []) ].

Definition startBare : world :=
  World (Dir {[ "work" :=
                  Dir {[ "template" :=
                           Dir {[ "package.json" := File (SampleRuntime.stringify bareManifest);
                                  "scripts" := Dir scriptsOnly ]} ]} ]})
        [] [].

(** The same tree with any entries in /work/template. *)
Definition template (top : gmap string node) : node :=
  Dir {[ "work" := Dir {[ "template" := Dir top ]} ]}.

Definition entries (manifestText : string) (src scriptsDir : gmap string node)
  : gmap string node :=
  {[ "package.json" := File manifestText;
     "rollup.config.js" := File rollupConfig;
     "scripts" := Dir scriptsDir;
     "src" := Dir src ]}.

(** The template in /work/template and a clone of it in
    /work/test-template, as in the comment at the head of the script. *)
Definition withClone (clone : gmap string node) : node :=
  Dir {[ "work" :=
           Dir {[ "template" := Dir (entries packageJSON (srcDir appSvelte) scriptsOnly);
                  "test-template" := Dir clone ]} ]}.

(** A clone without a manifest, and one whose manifest is no JSON. *)
Definition cloneWithoutManifest : world :=
  World (withClone (delete "package.json"
                      (entries packageJSON (srcDir appSvelte) scriptsOnly)))
        [] [].

Definition cloneBrokenManifest : world :=
  World (withClone (entries "{ name: svelte-app }" (srcDir appSvelte) scriptsOnly)) [] [].

(** A manifest whose devDependencies are a text. *)
Definition oddManifestProps : list (string * json Z) :=
  [ ("name", JString "svelte-app");
    ("devDependencies", JString "none");
    ("scripts", JObject manifestScripts) ].

Definition startOddManifest : world :=
  World (template (entries (SampleRuntime.stringify (JObject oddManifestProps))
                           (srcDir appSvelte) scriptsOnly))
        [] [].

(** A project without src/App.svelte. *)
Definition startWithoutApp : world :=
  World (template (entries packageJSON {[ "main.js" := File mainJS ]} scriptsOnly)) [] [].

(** The editor's directory with settings in it; a file of that name. *)
Definition startWithSettings : world :=
  World (template (<[ ".vscode" := Dir {[ "settings.json" := File "{}" ]} ]>
                     (entries packageJSON (srcDir appSvelte) scriptsOnly)))
        [] [].

Definition startWithVscodeFile : world :=
  World (template (<[ ".vscode" := File EmptyString ]>
                     (entries packageJSON (srcDir appSvelte) scriptsOnly)))
        [] [].

(** Installed dependencies, and a file of the project that the script
    does not name. *)
Definition startInstalled : world :=
  World (template (<[ "node_modules" := Dir ∅ ]>
                     (<[ "README.md" := File "# svelte app" ]>
                        (entries packageJSON (srcDir appSvelte) scriptsOnly))))
        [] [].

(** The script's directory as macOS leaves it, the metadata file under
    the name the Finder gives it. *)
Definition scriptsAndFinderStore : gmap string node :=
  {[ Script.scriptName := File scriptText; ".DS_Store" := File EmptyString ]}.

Definition startWithFinderStore : world :=
  World (project (srcDir appSvelte) scriptsAndFinderStore) [] [].

(** A config with the css import alone of the four anchors. *)
Definition otherConfig : string :=
  "import css from 'rollup-plugin-css-only';" ++ LF ++
  "export default { input: 'src/index.js', plugins: [css()] };" ++ LF.

(** [node scripts/setupTypeScript.js] in /work/template. *)
Definition inPlace : process :=
  Process None ["work"; "template"] ["work"; "template"; "scripts"].

(** [node scripts/setupTypeScript.js .] in /work/template. *)
Definition withArgument : process :=
  Process (Some ".") ["work"; "template"] ["work"; "template"; "scripts"].

(** [node scripts/setupTypeScript.js ""] in /work/template. *)
Definition withEmptyArgument : process :=
  Process (Some EmptyString) ["work"; "template"] ["work"; "template"; "scripts"].

(** [node template/scripts/setupTypeScript.js test-template] in /work. *)
Definition onClone : process :=
  Process (Some "test-template") ["work"] ["work"; "template"; "scripts"].

End Sample.

(** ** Part II: properties *)

(** *** Texts *)

Module JSStringFacts.
Import JSString.

Lemma append_nil_r (s : string) : s ++ "" = s.
Proof. induction s as [|c s IH]; simpl; [reflexivity | now rewrite IH]. Qed.

Lemma append_assoc (s t u : string) : (s ++ t) ++ u = s ++ t ++ u.
Proof. induction s as [|c s IH]; simpl; [reflexivity | now rewrite IH]. Qed.

Lemma startsWith_nil (s : string) : startsWith "" s = true.
Proof. now destruct s. Qed.

Lemma startsWith_app (pat t : string) : startsWith pat (pat ++ t) = true.
Proof.
  induction pat as [|c pat IH]; simpl; [reflexivity|].
  now rewrite Ascii.eqb_refl.
Qed.

Lemma drop_app (p t : string) : drop (String.length p) (p ++ t) = t.
Proof. induction p as [|c p IH]; simpl; [now destruct t | exact IH]. Qed.

Lemma startsWith_split (pat s : string) :
  startsWith pat s = true → s = pat ++ drop (String.length pat) s.
Proof.
  revert s; induction pat as [|c pat IH]; intros s H; simpl.
  - now destruct s.
  - destruct s as [|d s]; simpl in H; [discriminate|].
    apply andb_prop in H as [Hc Hs]. apply Ascii.eqb_eq in Hc as ->.
    f_equal. now apply IH.
Qed.

(** A replacement text without a dollar sign is inserted as it is. *)
Lemma getSubstitution_plain (m b a rep : string) :
  includes "$" rep = false → getSubstitution m b a rep = rep.
Proof.
  induction rep as [|c r IH]; [reflexivity|].
  intros H. simpl in H. apply orb_false_elim in H as [Hc Hr].
  specialize (IH Hr).
  assert (Hne : c ≠ "$"%char).
  { intros ->. destruct r; discriminate. }
  assert (Hstep : getSubstitution m b a (String c r)
                  = String c (getSubstitution m b a r)).
  { clear -Hne.
    destruct c as [[] [] [] [] [] [] [] []]; try reflexivity.
    now destruct Hne. }
  now rewrite Hstep, IH.
Qed.

Lemma replaceFrom_plain (rep : string) :
  includes "$" rep = false →
  ∀ s before pat, replaceFrom before s pat rep = splice s pat rep.
Proof.
  intros Hrep. induction s as [|c s IH]; intros before pat.
  - simpl. destruct (startsWith pat ""); [|reflexivity].
    now rewrite getSubstitution_plain.
  - cbn [replaceFrom splice]. destruct (startsWith pat (String c s)).
    + now rewrite getSubstitution_plain.
    + now rewrite IH.
Qed.

Lemma replace_plain (s pat rep : string) :
  includes "$" rep = false → replace s pat rep = splice s pat rep.
Proof. intros H. now apply replaceFrom_plain. Qed.

(** **** What [splice] does *)

Lemma splice_absent (s pat rep : string) :
  includes pat s = false → splice s pat rep = s.
Proof.
  induction s as [|c s IH]; simpl; intros H.
  - apply orb_false_elim in H as [-> _]. reflexivity.
  - apply orb_false_elim in H as [-> H]. now rewrite IH.
Qed.

Lemma startsWith_app_l (pat s t : string) :
  startsWith pat s = true → startsWith pat (s ++ t) = true.
Proof.
  revert s; induction pat as [|a pat IH]; intros s H; [reflexivity|].
  destruct s as [|c s]; [discriminate|]. simpl in H |- *.
  apply andb_prop in H as [-> H]. simpl. now apply IH.
Qed.

Lemma splice_found (s pat : string) :
  pat ≠ "" →
  includes pat s = true →
  ∃ p q, s = p ++ pat ++ q ∧ includes pat p = false ∧
         ∀ rep, splice s pat rep = p ++ rep ++ q.
Proof.
  intros Hpat. induction s as [|c s IH]; intros H.
  - simpl in H. rewrite orb_false_r in H.
    destruct pat; [now destruct Hpat | discriminate].
  - simpl in H. destruct (startsWith pat (String c s)) eqn:E.
    + exists "", (drop (String.length pat) (String c s)).
      split; [now apply startsWith_split|]. split.
      * simpl. rewrite orb_false_r. destruct pat; [|reflexivity].
        now destruct Hpat.
      * intros rep. cbn [splice]. now rewrite E.
    + simpl in H. destruct (IH H) as (p & q & -> & Hp & Hs).
      exists (String c p), q. split; [reflexivity|]. split.
      * cbn [includes]. rewrite Hp, orb_false_r.
        destruct (startsWith pat (String c p)) eqn:E'; [|reflexivity].
        apply (startsWith_app_l _ _ (pat ++ q)) in E'. simpl in E'.
        congruence.
      * intros rep. cbn [splice]. rewrite E. simpl. now rewrite Hs.
Qed.

Lemma includes_occurrences (pat s : string) :
  includes pat s = true ↔ (0 < occurrences pat s)%nat.
Proof.
  induction s as [|c s IH]; simpl.
  - destruct (startsWith pat ""); simpl; split; intros; (lia || discriminate || reflexivity).
  - destruct (startsWith pat (String c s)); simpl; [split; intros; (lia || reflexivity)|].
    exact IH.
Qed.

Lemma includes_app_l (pat s t : string) :
  includes pat s = true → includes pat (s ++ t) = true.
Proof.
  induction s as [|c s IH]; simpl; intros H.
  - rewrite orb_false_r in H. destruct pat; [|discriminate].
    now destruct t.
  - apply orb_prop in H as [H | H].
    + apply (startsWith_app_l _ _ t) in H. simpl in H. now rewrite H.
    + rewrite (IH H). apply orb_true_r.
Qed.

Lemma includes_app_r (pat s t : string) :
  includes pat t = true → includes pat (s ++ t) = true.
Proof.
  intros H. induction s as [|c s IH]; simpl; [exact H|].
  rewrite IH. apply orb_true_r.
Qed.

Lemma includes_middle (pat p q : string) : includes pat (p ++ pat ++ q) = true.
Proof.
  apply includes_app_r. destruct (pat ++ q) eqn:E.
  - destruct pat; [reflexivity | discriminate].
  - cbn [includes]. rewrite <- E, startsWith_app. reflexivity.
Qed.

(** **** Occurrences decided from the known part of a text *)

Lemma known_sound (u w : string) (b : bool) :
  known u w = Some b → ∀ t, startsWith u (w ++ t) = b.
Proof.
  revert w; induction u as [|a u IH]; intros w H t.
  - simpl in H. injection H as <-. reflexivity.
  - destruct w as [|c w]; [discriminate|]. simpl in H |- *.
    destruct (Ascii.eqb a c); simpl; [now apply IH | now injection H].
Qed.

Lemma occursIn_sound (u x z : string) (n : nat) :
  occursIn u x z = Some n →
  ∀ t, occurrences u (x ++ z ++ t) = n + occurrences u (z ++ t).
Proof.
  revert n; induction x as [|c x IH]; intros n H t.
  - injection H as <-. reflexivity.
  - cbn [occursIn] in H.
    destruct (known u (String c x ++ z)) as [b|] eqn:Ek; [|discriminate].
    destruct (occursIn u x z) as [m|] eqn:Em; [|discriminate].
    injection H as <-.
    pose proof (known_sound _ _ _ Ek t) as Hs.
    rewrite append_assoc in Hs. simpl in Hs |- *.
    rewrite Hs, (IH _ eq_refl t). lia.
Qed.

Lemma agree_sound (v old new : string) :
  agree v old new = true →
  ∀ t, startsWith v (old ++ t) = startsWith v (new ++ t).
Proof.
  unfold agree. intros H t.
  destruct (known v old) as [a|] eqn:Ea; [|discriminate].
  destruct (known v new) as [b|] eqn:Eb; [|discriminate].
  rewrite (known_sound _ _ _ Ea), (known_sound _ _ _ Eb).
  now apply Bool.eqb_prop.
Qed.

(** An occurrence test that starts before the edit is not disturbed. *)
Lemma startsWith_splice (old new : string) :
  ∀ s v, tailsAgree v old new = true →
         startsWith v (splice s old new) = startsWith v s.
Proof.
  induction s as [|c s IH]; intros v Hv.
  - destruct v as [|a v]; cbn [tailsAgree] in Hv;
      apply andb_prop in Hv as [Hv _];
      pose proof (agree_sound _ _ _ Hv "") as Hs;
      rewrite !append_nil_r in Hs.
    + now rewrite !startsWith_nil.
    + cbn [splice]. destruct (startsWith old "") eqn:E; [|reflexivity].
      destruct old; [|discriminate]. simpl in *. now rewrite append_nil_r.
  - cbn [splice]. destruct (startsWith old (String c s)) eqn:E.
    + rewrite (startsWith_split _ _ E) at 2.
      destruct v as [|a v]; cbn [tailsAgree] in Hv;
        apply andb_prop in Hv as [Hv _]; symmetry; now apply agree_sound.
    + destruct v as [|a v]; [reflexivity|]. cbn [tailsAgree] in Hv.
      apply andb_prop in Hv as [_ Hv]. simpl. now rewrite IH.
Qed.

(** The number of occurrences of [u] moves by what the edit itself adds
    or removes. *)
Lemma occurrences_splice (u x y z : string) (a b : nat) :
  shifts u x y z a b = true →
  ∀ s, includes (x ++ z) s = true →
       occurrences u (splice s (x ++ z) (y ++ z)) + a = occurrences u s + b.
Proof.
  unfold shifts. intros H. apply andb_prop in H as [Hocc Htl].
  destruct (occursIn u x z) as [a'|] eqn:Ea; [|discriminate].
  destruct (occursIn u y z) as [b'|] eqn:Eb; [|discriminate].
  apply andb_prop in Hocc as [Ha Hb].
  apply Nat.eqb_eq in Ha as <-, Hb as <-.
  induction s as [|c s IH]; intros Hin.
  - simpl in Hin. rewrite orb_false_r in Hin. cbn [splice]. rewrite Hin.
    destruct (x ++ z) as [|] eqn:Exz; [|discriminate].
    destruct x; [|discriminate]. destruct z; [|discriminate].
    simpl in Ea. injection Ea as <-. simpl.
    pose proof (occursIn_sound _ _ _ _ Eb "") as Hy. simpl in Hy.
    rewrite !append_nil_r in *. rewrite Hy. lia.
  - cbn [splice]. destruct (startsWith (x ++ z) (String c s)) eqn:E.
    + rewrite (startsWith_split _ _ E) at 2.
      rewrite !append_assoc.
      rewrite (occursIn_sound _ _ _ _ Ea), (occursIn_sound _ _ _ _ Eb). lia.
    + simpl in Hin. rewrite E in Hin. simpl in Hin. specialize (IH Hin).
      cbn [occurrences].
      assert (Hst : startsWith u (String c (splice s (x ++ z) (y ++ z)))
                    = startsWith u (String c s)).
      { destruct u as [|d u]; [reflexivity|]. simpl.
        now rewrite startsWith_splice. }
      rewrite Hst. lia.
Qed.

Lemma occurrences_splice_same (u x y z : string) (a : nat) :
  shifts u x y z a a = true →
  ∀ s, occurrences u (splice s (x ++ z) (y ++ z)) = occurrences u s.
Proof.
  intros H s. destruct (includes (x ++ z) s) eqn:E.
  - pose proof (occurrences_splice _ _ _ _ _ _ H s E). lia.
  - now rewrite splice_absent.
Qed.

(** **** Where the first occurrence lies *)

Lemma startsWith_length (pat s : string) :
  startsWith pat s = true → (String.length pat ≤ String.length s)%nat.
Proof.
  revert s; induction pat as [|a pat IH]; intros s H; simpl; [lia|].
  destruct s as [|c s]; [discriminate|]. simpl in H |- *.
  apply andb_prop in H as [_ H]. apply IH in H. lia.
Qed.

Lemma includes_length (pat s : string) :
  includes pat s = true → (String.length pat ≤ String.length s)%nat.
Proof.
  induction s as [|c s IH]; simpl; intros H.
  - rewrite orb_false_r in H. now apply startsWith_length in H.
  - apply orb_prop in H as [H | H].
    + now apply startsWith_length in H.
    + apply IH in H. lia.
Qed.

Lemma startsWith_app_short (pat s t : string) :
  (String.length pat ≤ String.length s)%nat →
  startsWith pat (s ++ t) = startsWith pat s.
Proof.
  revert s; induction pat as [|a pat IH]; intros s H; [reflexivity|].
  destruct s as [|c s]; simpl in H; [lia|]. simpl.
  rewrite IH by lia. reflexivity.
Qed.

(** When [pat] lies in [p], the first occurrence in [p ++ w] is the one
    in [p]. *)
Lemma splice_app_l (pat rep p w : string) :
  includes pat p = true → splice (p ++ w) pat rep = splice p pat rep ++ w.
Proof.
  induction p as [|c p IH]; intros H.
  - simpl in H. rewrite orb_false_r in H.
    destruct pat; [|discriminate]. simpl.
    rewrite append_nil_r. now destruct w.
  - pose proof (startsWith_app_short pat (String c p) w (includes_length _ _ H)) as E1.
    simpl in H. change (String c p ++ w) with (String c (p ++ w)) in *.
    cbn [splice]. rewrite E1.
    destruct (startsWith pat (String c p)) eqn:E.
    + rewrite append_assoc. f_equal.
      change (String c (p ++ w)) with (String c p ++ w).
      generalize (startsWith_split _ _ E).
      generalize (drop (String.length pat) (String c p)) as r.
      intros r ->. now rewrite append_assoc, !drop_app.
    + simpl in H. now rewrite (IH H).
Qed.

Lemma noneStarts_sound (v w : string) :
  noneStarts v w = true →
  ∀ k t, (k < String.length v)%nat → startsWith (drop k v) (w ++ t) = false.
Proof.
  induction v as [|a v IH]; intros H k t Hk; simpl in Hk; [lia|].
  cbn [noneStarts] in H.
  destruct (known (String a v) w) as [[]|] eqn:E; try discriminate.
  destruct k as [|k].
  - now apply known_sound.
  - simpl. apply IH; [exact H | lia].
Qed.

(** An occurrence at the start of [p ++ t] either lies in [p] or runs
    over its end. *)
Lemma startsWith_over (pat p t : string) :
  startsWith pat (p ++ t) = true →
  startsWith pat p = true ∨
  ((String.length p < String.length pat)%nat ∧
   startsWith (drop (String.length p) pat) t = true).
Proof.
  revert p; induction pat as [|a pat IH]; intros p H; [now left|].
  destruct p as [|c p].
  - right. simpl. split; [lia | exact H].
  - simpl in H |- *. apply andb_prop in H as [-> H]. simpl.
    destruct (IH _ H) as [Hl | [Hlen Hr]]; [now left | right].
    split; [lia | exact Hr].
Qed.

Lemma not_starting (pat p w t : string) :
  tailsClear pat w = true → p ≠ "" →
  startsWith pat p = false → startsWith pat (p ++ w ++ t) = false.
Proof.
  intros Hc Hp Hs. destruct (startsWith pat (p ++ w ++ t)) eqn:E; [|reflexivity].
  apply startsWith_over in E as [E | [Hlen E]]; [congruence|].
  destruct pat as [|a v]; [discriminate|]. simpl in Hc.
  destruct p as [|c p]; [now destruct Hp|]. simpl in Hlen, E.
  rewrite (noneStarts_sound _ _ Hc) in E; [discriminate | lia].
Qed.

Lemma splice_skip (pat rep w q : string) :
  occursIn pat w "" = Some 0 → splice (w ++ q) pat rep = w ++ splice q pat rep.
Proof.
  induction w as [|c w IH]; intros H; [reflexivity|].
  cbn [occursIn] in H. rewrite append_nil_r in H.
  destruct (known pat (String c w)) as [b|] eqn:Ek; [|discriminate].
  destruct (occursIn pat w "") as [n|] eqn:En; [|discriminate].
  injection H as H. destruct b; [discriminate|]. simpl in H. subst n.
  simpl. rewrite (known_sound _ _ _ Ek q : startsWith pat (String c (w ++ q)) = false).
  now rewrite IH.
Qed.

Lemma includes_skip (pat w q : string) :
  occursIn pat w "" = Some 0 → includes pat (w ++ q) = includes pat q.
Proof.
  induction w as [|c w IH]; intros H; [reflexivity|].
  cbn [occursIn] in H. rewrite append_nil_r in H.
  destruct (known pat (String c w)) as [b|] eqn:Ek; [|discriminate].
  destruct (occursIn pat w "") as [n|] eqn:En; [|discriminate].
  injection H as H. destruct b; [discriminate|]. simpl in H. subst n.
  simpl. rewrite (known_sound _ _ _ Ek q : startsWith pat (String c (w ++ q)) = false).
  now rewrite IH.
Qed.

(** When [pat] does not lie in [p] and keeps apart from [w], its first
    occurrence in [p ++ w ++ q] is the one in [q]. *)
Lemma splice_app_r (pat rep p w q : string) :
  apart pat w = true → includes pat p = false →
  splice (p ++ w ++ q) pat rep = p ++ w ++ splice q pat rep.
Proof.
  unfold apart. intros Ha.
  destruct (occursIn pat w "") as [[|]|] eqn:Eo; try discriminate.
  induction p as [|c p IH]; intros Hp.
  - simpl. now apply splice_skip.
  - simpl in Hp. apply orb_false_elim in Hp as [Hs Hp].
    pose proof (not_starting pat (String c p) w q Ha ltac:(discriminate) Hs) as E.
    simpl in E |- *. rewrite E. now rewrite IH.
Qed.

Lemma includes_app_far (pat p w q : string) :
  apart pat w = true → includes pat p = false →
  includes pat (p ++ w ++ q) = includes pat q.
Proof.
  unfold apart. intros Ha.
  destruct (occursIn pat w "") as [[|]|] eqn:Eo; try discriminate.
  induction p as [|c p IH]; intros Hp.
  - simpl. now apply includes_skip.
  - simpl in Hp. apply orb_false_elim in Hp as [Hs Hp].
    pose proof (not_starting pat (String c p) w q Ha ltac:(discriminate) Hs) as E.
    simpl in E |- *. rewrite E. now rewrite IH.
Qed.

(** **** The place of the first occurrence *)

Lemma indexOf_found (s pat : string) :
  includes pat s = true →
  ∃ p q, s = p ++ pat ++ q ∧ indexOf pat s = Some (String.length p) ∧
         ∀ rep, splice s pat rep = p ++ rep ++ q.
Proof.
  induction s as [|c s IH]; intros H.
  - simpl in H. rewrite orb_false_r in H.
    exists "", (drop (String.length pat) "").
    split; [now apply startsWith_split|]. split.
    + simpl. now rewrite H.
    + intros rep. cbn [splice]. now rewrite H.
  - cbn [includes] in H. destruct (startsWith pat (String c s)) eqn:E.
    + exists "", (drop (String.length pat) (String c s)).
      split; [now apply startsWith_split|]. split.
      * cbn [indexOf]. now rewrite E.
      * intros rep. cbn [splice]. now rewrite E.
    + simpl in H. destruct (IH H) as (p & q & Hs & Hi & Hr).
      exists (String c p), q. split; [simpl; now rewrite <- Hs|]. split.
      * cbn [indexOf]. rewrite E, Hi. reflexivity.
      * intros rep. cbn [splice]. rewrite E, Hr. reflexivity.
Qed.

(** When [pat] lies in [p], its first place in [p ++ w] is its first place
    in [p]. *)
Lemma indexOf_app_l (pat p w : string) :
  includes pat p = true → indexOf pat (p ++ w) = indexOf pat p.
Proof.
  induction p as [|c p IH]; intros H.
  - simpl in H. rewrite orb_false_r in H.
    destruct pat; [|discriminate]. simpl. now destruct w.
  - pose proof (startsWith_app_short pat (String c p) w (includes_length _ _ H)) as E1.
    cbn [includes] in H. change (String c p ++ w) with (String c (p ++ w)) in *.
    cbn [indexOf]. rewrite E1.
    destruct (startsWith pat (String c p)); [reflexivity|].
    simpl in H. now rewrite (IH H).
Qed.

Lemma indexOf_skip (pat w q : string) :
  occursIn pat w "" = Some 0%nat →
  indexOf pat (w ++ q) = (λ n, String.length w + n)%nat <$> indexOf pat q.
Proof.
  induction w as [|c w IH]; intros H.
  - simpl. now destruct (indexOf pat q).
  - cbn [occursIn] in H. rewrite append_nil_r in H.
    destruct (known pat (String c w)) as [b|] eqn:Ek; [|discriminate].
    destruct (occursIn pat w "") as [n|] eqn:En; [|discriminate].
    injection H as H. destruct b; [discriminate|]. simpl in H. subst n.
    change (String c w ++ q) with (String c (w ++ q)). cbn [indexOf].
    rewrite (known_sound _ _ _ Ek q : startsWith pat (String c (w ++ q)) = false).
    rewrite IH by reflexivity. now destruct (indexOf pat q).
Qed.

(** When [pat] does not lie in [p] and keeps apart from [w], its first
    place in [p ++ w ++ q] is its first place in [q], further on. *)
Lemma indexOf_app_far (pat p w q : string) :
  apart pat w = true → includes pat p = false →
  indexOf pat (p ++ w ++ q)
  = (λ n, String.length p + String.length w + n)%nat <$> indexOf pat q.
Proof.
  unfold apart. intros Ha.
  destruct (occursIn pat w "") as [[|]|] eqn:Eo; try discriminate.
  induction p as [|c p IH]; intros Hp.
  - simpl. now apply indexOf_skip.
  - cbn [includes] in Hp. apply orb_false_elim in Hp as [Hs Hp].
    pose proof (not_starting pat (String c p) w q Ha ltac:(discriminate) Hs) as E.
    change (String c p ++ w ++ q) with (String c (p ++ w ++ q)) in *.
    cbn [indexOf]. rewrite E, (IH Hp). now destruct (indexOf pat q).
Qed.

Lemma length_append (s t : string) :
  String.length (s ++ t) = (String.length s + String.length t)%nat.
Proof. induction s as [|c s IH]; simpl; [reflexivity | now rewrite IH]. Qed.

End JSStringFacts.

(** *** Edits that move the number of occurrences *)

Module EditFacts.
Import JSString JSStringFacts Edit.

Lemma take_drop (n : nat) (s : string) : take n s ++ drop n s = s.
Proof.
  revert s; induction n as [|n IH]; intros s; [reflexivity|].
  destruct s as [|c s]; [reflexivity|]. simpl. now rewrite IH.
Qed.

Lemma commonEnd_sound (old new x y z : string) :
  commonEnd old new = (x, y, z) → old = x ++ z ∧ new = y ++ z.
Proof.
  revert x; induction old as [|c old IH]; intros x H.
  - cbn [commonEnd] in H. destruct (endsWith new "") eqn:E.
    + injection H as <- <- <-. split; [reflexivity|].
      unfold endsWith in E. apply andb_prop in E as [_ E].
      apply String.eqb_eq in E. symmetry.
      etransitivity; [|apply (take_drop (String.length new - String.length "") new)].
      now rewrite E.
    + injection H as <- <- <-. split; [reflexivity|]. now rewrite append_nil_r.
  - cbn [commonEnd] in H. destruct (endsWith new (String c old)) eqn:E.
    + injection H as <- <- <-. split; [reflexivity|].
      unfold endsWith in E. apply andb_prop in E as [_ E].
      apply String.eqb_eq in E. symmetry.
      etransitivity; [|apply (take_drop (String.length new - String.length (String c old)) new)].
      now rewrite E.
    + destruct (commonEnd old new) as [[x' y'] z'] eqn:E'.
      injection H as <- <- <-. destruct (IH x' eq_refl) as [-> ->].
      split; reflexivity.
Qed.

Lemma moves_sound (u old new : string) (a b : nat) :
  moves u old new a b = true →
  ∀ s, includes old s = true →
       occurrences u (splice s old new) + a = occurrences u s + b.
Proof.
  unfold moves. destruct (commonEnd old new) as [[x y] z] eqn:E.
  destruct (commonEnd_sound _ _ _ _ _ E) as [-> ->].
  apply occurrences_splice.
Qed.

Lemma moves_same (u old new : string) (a : nat) :
  moves u old new a a = true →
  ∀ s, occurrences u (splice s old new) = occurrences u s.
Proof.
  unfold moves. destruct (commonEnd old new) as [[x y] z] eqn:E.
  destruct (commonEnd_sound _ _ _ _ _ E) as [-> ->].
  apply occurrences_splice_same.
Qed.

(** An edit that keeps the occurrences of [u] keeps [u] in the text. *)
Lemma moves_includes (u old new : string) (a : nat) :
  moves u old new a a = true →
  ∀ s, includes u (splice s old new) = includes u s.
Proof.
  intros H s. apply eq_true_iff_eq.
  rewrite !includes_occurrences, (moves_same _ _ _ _ H). reflexivity.
Qed.

(** After the edit the new text stands where the old one stood. *)
Lemma splice_includes_new (s old new : string) :
  old ≠ "" → includes old s = true → includes new (splice s old new) = true.
Proof.
  intros Ho H. destruct (splice_found s old Ho H) as (p & q & _ & _ & E).
  rewrite E. apply includes_middle.
Qed.

End EditFacts.

(** *** The edits of the script, as texts *)

Module TextEdits.
Import JSString JSStringFacts Edit EditFacts Script.

(** None of the replacement texts of the script holds a dollar sign, so
    each [replace] inserts its text as it is. *)
Lemma appFileEdits_splice (s : string) :
  appFileEdits s = splice (splice s scriptTag scriptTagTS) nameProp namePropTS.
Proof. unfold appFileEdits. now rewrite !replace_plain by (vm_compute; reflexivity). Qed.

Lemma rollupConfigEdits_splice (s : string) :
  rollupConfigEdits s =
  splice (splice (splice (splice s cssImport (cssImport ++ tsImports))
                         entryJS entryTS)
                 compilerOptions (preprocessLine ++ compilerOptions))
         commonjsCall (commonjsCall ++ typescriptCall).
Proof. unfold rollupConfigEdits. now rewrite !replace_plain by (vm_compute; reflexivity). Qed.

Lemma appFileEdits_absent (s : string) :
  includes scriptTag s = false → includes nameProp s = false → appFileEdits s = s.
Proof.
  intros H1 H2. rewrite appFileEdits_splice.
  rewrite (splice_absent s scriptTag) by exact H1. now apply splice_absent.
Qed.

(** The two edits of App.svelte change the first [<script>] and the first
    [export let name;] of the text, and nothing else. *)
Lemma appFileEdits_first (s : string) :
  includes scriptTag s = true → includes nameProp s = true →
  (∃ a b c, s = a ++ scriptTag ++ b ++ nameProp ++ c ∧
            indexOf scriptTag s = Some (String.length a) ∧
            indexOf nameProp s = Some (String.length (a ++ scriptTag ++ b)) ∧
            appFileEdits s = a ++ scriptTagTS ++ b ++ namePropTS ++ c) ∨
  (∃ a b c, s = a ++ nameProp ++ b ++ scriptTag ++ c ∧
            indexOf nameProp s = Some (String.length a) ∧
            indexOf scriptTag s = Some (String.length (a ++ nameProp ++ b)) ∧
            appFileEdits s = a ++ namePropTS ++ b ++ scriptTagTS ++ c).
Proof.
  intros H1 H2. rewrite appFileEdits_splice.
  destruct (indexOf_found s scriptTag H1) as (p1 & q1 & Hs & I1 & E1).
  rewrite E1. destruct (includes nameProp p1) eqn:Ep.
  - right. rewrite splice_app_l by exact Ep.
    destruct (indexOf_found p1 nameProp Ep) as (p2 & q2 & Hp & I2 & E2).
    rewrite E2. exists p2, q2, q1.
    assert (Hs' : s = p2 ++ nameProp ++ q2 ++ scriptTag ++ q1).
    { rewrite Hs, Hp. now rewrite !append_assoc. }
    split; [exact Hs'|]. split; [|split].
    + rewrite Hs, indexOf_app_l by exact Ep. exact I2.
    + rewrite I1, Hp. reflexivity.
    + now rewrite !append_assoc.
  - left. rewrite Hs in H2.
    rewrite includes_app_far in H2 by (vm_compute; reflexivity || exact Ep).
    rewrite splice_app_r by (vm_compute; reflexivity || exact Ep).
    destruct (indexOf_found q1 nameProp H2) as (p2 & q2 & Hq & I2 & E2).
    rewrite E2. exists p1, p2, q2.
    split; [now rewrite Hs, Hq|]. split; [exact I1|]. split; [|reflexivity].
    rewrite Hs, indexOf_app_far by (vm_compute; reflexivity || exact Ep).
    rewrite I2. simpl fmap. rewrite !length_append. f_equal.
    change (String.length scriptTag) with 8%nat. lia.
Qed.

Lemma appFileEdits_counts (s : string) :
  includes scriptTag s = true → includes nameProp s = true →
  occurrences scriptTagTS (appFileEdits s) = S (occurrences scriptTagTS s) ∧
  occurrences namePropTS (appFileEdits s) = S (occurrences namePropTS s).
Proof.
  intros H1 H2. rewrite appFileEdits_splice. split.
  - rewrite (moves_same scriptTagTS nameProp namePropTS 0) by (vm_compute; reflexivity).
    pose proof (moves_sound scriptTagTS scriptTag scriptTagTS 0 1
                  ltac:(vm_compute; reflexivity) s H1). lia.
  - rewrite <- (moves_includes nameProp scriptTag scriptTagTS 0
                  ltac:(vm_compute; reflexivity) s) in H2.
    pose proof (moves_sound namePropTS nameProp namePropTS 0 1
                  ltac:(vm_compute; reflexivity) _ H2) as E.
    rewrite (moves_same namePropTS scriptTag scriptTagTS 0) in E
      by (vm_compute; reflexivity). lia.
Qed.

(** Each of the four edits of rollup.config.js adds its text once. *)
Lemma tsImports_added (s : string) :
  includes cssImport s = true →
  occurrences tsImports (rollupConfigEdits s) = S (occurrences tsImports s).
Proof.
  intros H. rewrite rollupConfigEdits_splice.
  rewrite (moves_same tsImports commonjsCall _ 0) by (vm_compute; reflexivity).
  rewrite (moves_same tsImports compilerOptions _ 0) by (vm_compute; reflexivity).
  rewrite (moves_same tsImports entryJS _ 0) by (vm_compute; reflexivity).
  pose proof (moves_sound tsImports cssImport (cssImport ++ tsImports) 0 1
                ltac:(vm_compute; reflexivity) s H). lia.
Qed.

Lemma entryTS_added (s : string) :
  includes entryJS s = true →
  occurrences entryTS (rollupConfigEdits s) = S (occurrences entryTS s).
Proof.
  intros H. rewrite rollupConfigEdits_splice.
  rewrite (moves_same entryTS commonjsCall _ 0) by (vm_compute; reflexivity).
  rewrite (moves_same entryTS compilerOptions _ 0) by (vm_compute; reflexivity).
  rewrite <- (moves_includes entryJS cssImport (cssImport ++ tsImports) 0
                ltac:(vm_compute; reflexivity) s) in H.
  pose proof (moves_sound entryTS entryJS entryTS 0 1
                ltac:(vm_compute; reflexivity) _ H) as E.
  rewrite (moves_same entryTS cssImport _ 0) in E by (vm_compute; reflexivity).
  lia.
Qed.

Lemma preprocessLine_added (s : string) :
  includes compilerOptions s = true →
  occurrences preprocessLine (rollupConfigEdits s) = S (occurrences preprocessLine s).
Proof.
  intros H. rewrite rollupConfigEdits_splice.
  rewrite (moves_same preprocessLine commonjsCall _ 0) by (vm_compute; reflexivity).
  rewrite <- (moves_includes compilerOptions cssImport (cssImport ++ tsImports) 0
                ltac:(vm_compute; reflexivity) s) in H.
  rewrite <- (moves_includes compilerOptions entryJS entryTS 0
                ltac:(vm_compute; reflexivity)) in H.
  pose proof (moves_sound preprocessLine compilerOptions (preprocessLine ++ compilerOptions)
                0 1 ltac:(vm_compute; reflexivity) _ H) as E.
  rewrite (moves_same preprocessLine entryJS _ 0) in E by (vm_compute; reflexivity).
  rewrite (moves_same preprocessLine cssImport _ 0) in E by (vm_compute; reflexivity).
  lia.
Qed.

Lemma typescriptCall_added (s : string) :
  includes commonjsCall s = true →
  occurrences typescriptCall (rollupConfigEdits s) = S (occurrences typescriptCall s).
Proof.
  intros H. rewrite rollupConfigEdits_splice.
  rewrite <- (moves_includes commonjsCall cssImport (cssImport ++ tsImports) 0
                ltac:(vm_compute; reflexivity) s) in H.
  rewrite <- (moves_includes commonjsCall entryJS entryTS 0
                ltac:(vm_compute; reflexivity)) in H.
  rewrite <- (moves_includes commonjsCall compilerOptions (preprocessLine ++ compilerOptions)
                0 ltac:(vm_compute; reflexivity)) in H.
  pose proof (moves_sound typescriptCall commonjsCall (commonjsCall ++ typescriptCall)
                0 1 ltac:(vm_compute; reflexivity) _ H) as E.
  rewrite (moves_same typescriptCall compilerOptions _ 0) in E by (vm_compute; reflexivity).
  rewrite (moves_same typescriptCall entryJS _ 0) in E by (vm_compute; reflexivity).
  rewrite (moves_same typescriptCall cssImport _ 0) in E by (vm_compute; reflexivity).
  lia.
Qed.

(** Each added text stands next to its anchor. *)
Lemma rollupConfigEdits_adjacent (s : string) :
  includes cssImport s = true → includes entryJS s = true →
  includes compilerOptions s = true → includes commonjsCall s = true →
  let r := rollupConfigEdits s in
  includes (cssImport ++ tsImports) r = true ∧
  includes entryTS r = true ∧
  includes (preprocessLine ++ compilerOptions) r = true ∧
  includes (commonjsCall ++ typescriptCall) r = true.
Proof.
  intros H1 H2 H3 H4 r. subst r. rewrite rollupConfigEdits_splice.
  rewrite <- (moves_includes entryJS cssImport (cssImport ++ tsImports) 0
                ltac:(vm_compute; reflexivity) s) in H2.
  rewrite <- (moves_includes compilerOptions cssImport (cssImport ++ tsImports) 0
                ltac:(vm_compute; reflexivity) s) in H3.
  rewrite <- (moves_includes commonjsCall cssImport (cssImport ++ tsImports) 0
                ltac:(vm_compute; reflexivity) s) in H4.
  apply (splice_includes_new s cssImport (cssImport ++ tsImports)) in H1;
    [|discriminate].
  set (s1 := splice s cssImport (cssImport ++ tsImports)) in *.
  rewrite <- (moves_includes (cssImport ++ tsImports) entryJS entryTS 0
                ltac:(vm_compute; reflexivity) s1) in H1.
  rewrite <- (moves_includes compilerOptions entryJS entryTS 0
                ltac:(vm_compute; reflexivity) s1) in H3.
  rewrite <- (moves_includes commonjsCall entryJS entryTS 0
                ltac:(vm_compute; reflexivity) s1) in H4.
  apply (splice_includes_new s1 entryJS entryTS) in H2; [|discriminate].
  set (s2 := splice s1 entryJS entryTS) in *.
  rewrite <- (moves_includes (cssImport ++ tsImports) compilerOptions
                (preprocessLine ++ compilerOptions) 0
                ltac:(vm_compute; reflexivity) s2) in H1.
  rewrite <- (moves_includes entryTS compilerOptions
                (preprocessLine ++ compilerOptions) 0
                ltac:(vm_compute; reflexivity) s2) in H2.
  rewrite <- (moves_includes commonjsCall compilerOptions
                (preprocessLine ++ compilerOptions) 0
                ltac:(vm_compute; reflexivity) s2) in H4.
  apply (splice_includes_new s2 compilerOptions (preprocessLine ++ compilerOptions))
    in H3; [|discriminate].
  set (s3 := splice s2 compilerOptions (preprocessLine ++ compilerOptions)) in *.
  rewrite <- (moves_includes (cssImport ++ tsImports) commonjsCall
                (commonjsCall ++ typescriptCall) 0
                ltac:(vm_compute; reflexivity) s3) in H1.
  rewrite <- (moves_includes entryTS commonjsCall
                (commonjsCall ++ typescriptCall) 0
                ltac:(vm_compute; reflexivity) s3) in H2.
  rewrite <- (moves_includes (preprocessLine ++ compilerOptions) commonjsCall
                (commonjsCall ++ typescriptCall) 0
                ltac:(vm_compute; reflexivity) s3) in H3.
  apply (splice_includes_new s3 commonjsCall (commonjsCall ++ typescriptCall))
    in H4; [|discriminate].
  auto.
Qed.

(** The three anchors of the insertions are still there after the edits. *)
Lemma rollupConfigEdits_anchors (s : string) :
  includes cssImport (rollupConfigEdits s) = includes cssImport s ∧
  includes compilerOptions (rollupConfigEdits s) = includes compilerOptions s ∧
  includes commonjsCall (rollupConfigEdits s) = includes commonjsCall s.
Proof.
  rewrite rollupConfigEdits_splice. repeat split.
  - rewrite (moves_includes cssImport commonjsCall _ 0) by (vm_compute; reflexivity).
    rewrite (moves_includes cssImport compilerOptions _ 0) by (vm_compute; reflexivity).
    rewrite (moves_includes cssImport entryJS _ 0) by (vm_compute; reflexivity).
    now rewrite (moves_includes cssImport cssImport _ 1) by (vm_compute; reflexivity).
  - rewrite (moves_includes compilerOptions commonjsCall _ 0) by (vm_compute; reflexivity).
    rewrite (moves_includes compilerOptions compilerOptions _ 0) by (vm_compute; reflexivity).
    rewrite (moves_includes compilerOptions entryJS _ 0) by (vm_compute; reflexivity).
    now rewrite (moves_includes compilerOptions cssImport _ 0) by (vm_compute; reflexivity).
  - rewrite (moves_includes commonjsCall commonjsCall _ 1) by (vm_compute; reflexivity).
    rewrite (moves_includes commonjsCall compilerOptions _ 0) by (vm_compute; reflexivity).
    rewrite (moves_includes commonjsCall entryJS _ 0) by (vm_compute; reflexivity).
    now rewrite (moves_includes commonjsCall cssImport _ 0) by (vm_compute; reflexivity).
Qed.

End TextEdits.

(** *** The disk *)

Module DiskFacts.
Import Disk.
#[local] Open Scope list_scope.

Lemma lookup_app (p r : path) (d : node) :
  lookup (p ++ r) d = lookup p d ≫= lookup r.
Proof.
  revert d; induction p as [|x p IH]; intros d; simpl; [reflexivity|].
  destruct d as [c|es]; simpl; [reflexivity|].
  destruct (es !! x) as [n|]; simpl; [apply IH | reflexivity].
Qed.

Lemma lookup_nonempty_file (r : path) (c : string) :
  r ≠ [] → lookup r (File c) = None.
Proof. now destruct r. Qed.

Lemma lookup_parent (p : path) (d n : node) :
  p ≠ [] → lookup p d = Some n → ∃ es, lookup (parent p) d = Some (Dir es).
Proof.
  revert d; induction p as [|x p IH]; intros d Hp H; [done|].
  destruct d as [c|es]; [discriminate|]. simpl in H.
  destruct p as [|y p].
  - exists es. reflexivity.
  - destruct (es !! x) as [m|] eqn:E; [|discriminate]. simpl in H.
    destruct (IH m ltac:(discriminate) H) as [es' Hes'].
    exists es'. change (parent (x :: y :: p)) with (x :: parent (y :: p)).
    simpl. rewrite E. exact Hes'.
Qed.

(** What lies beside or above [p] keeps its kind. *)
Lemma at_place_frame (p q : path) (o : option node) (d : node) :
  ¬ p `prefix_of` q → at_ q (place p o d) = at_ q d.
Proof.
  unfold at_. revert q d; induction p as [|x p IH]; intros q d Hpq.
  - destruct Hpq. apply prefix_nil.
  - destruct d as [c|es]; [reflexivity|].
    destruct q as [|y q]; [reflexivity|]. simpl.
    destruct (decide (x = y)) as [->|Hxy].
    + rewrite lookup_partial_alter_eq.
      destruct p as [|z p].
      * destruct Hpq. apply prefix_cons, prefix_nil.
      * destruct (es !! y) as [n|]; simpl; [|reflexivity].
        apply IH. intros Hp. apply Hpq. now apply prefix_cons.
    + now rewrite lookup_partial_alter_ne.
Qed.

(** What lies at or below [p] is read from what was put there. *)
Lemma lookup_place_below (p r : path) (o : option node) (d : node) (es : gmap string node) :
  p ≠ [] → lookup (parent p) d = Some (Dir es) →
  lookup (p ++ r) (place p o d) = o ≫= lookup r.
Proof.
  revert d; induction p as [|x p IH]; intros d Hp H; [done|].
  destruct p as [|y p].
  - simpl in H. injection H as ->. simpl.
    rewrite lookup_partial_alter_eq. reflexivity.
  - change (parent (x :: y :: p)) with (x :: parent (y :: p)) in H.
    destruct d as [c|es']; [discriminate|]. simpl in H.
    destruct (es' !! x) as [n|] eqn:E; [|discriminate]. simpl in H.
    change (lookup ((x :: y :: p) ++ r) (place (x :: y :: p) o (Dir es')))
      with (partial_alter (λ oc, place (y :: p) o <$> oc) x es' !! x
              ≫= lookup ((y :: p) ++ r)).
    rewrite lookup_partial_alter_eq, E. simpl.
    now apply IH.
Qed.

Lemma lookup_place (p : path) (o : option node) (d : node) (es : gmap string node) :
  p ≠ [] → lookup (parent p) d = Some (Dir es) → lookup p (place p o d) = o.
Proof.
  intros Hp H. pose proof (lookup_place_below p [] o d es Hp H) as E.
  rewrite app_nil_r in E. rewrite E. now destruct o.
Qed.

Lemma place_cons (x : string) (p : path) (o : option node) (es : gmap string node) :
  p ≠ [] →
  place (x :: p) o (Dir es) = Dir (partial_alter (fmap (place p o)) x es).
Proof. now destruct p. Qed.

(** Removing or replacing an entry of a directory changes that entry
    only. *)
Lemma lookup_place_child (p : path) (x : string) (o : option node) (d : node)
    (es : gmap string node) :
  lookup p d = Some (Dir es) →
  lookup p (place (p ++ [x]) o d) = Some (Dir (partial_alter (λ _, o) x es)).
Proof.
  revert d; induction p as [|y p IH]; intros d H.
  - simpl in H. injection H as ->. reflexivity.
  - destruct d as [c|es']; [discriminate|]. simpl in H.
    destruct (es' !! y) as [n|] eqn:E; [|discriminate]. simpl in H.
    change ((y :: p) ++ [x]) with (y :: (p ++ [x])).
    rewrite place_cons by (now destruct p).
    cbn [lookup]. rewrite lookup_partial_alter_eq, E. simpl.
    now apply IH.
Qed.

(** Putting back what is there changes nothing. *)
Lemma place_same (p : path) (d n : node) :
  p ≠ [] → lookup p d = Some n → place p (Some n) d = d.
Proof.
  revert d; induction p as [|x p IH]; intros d Hp H; [done|].
  destruct d as [c|es]; [discriminate|]. simpl in H |- *.
  destruct (es !! x) as [m|] eqn:E; [|discriminate]. simpl in H.
  f_equal. apply partial_alter_id.
  rewrite E. destruct p as [|y p]; [simpl in H; congruence|].
  simpl. f_equal. now apply IH.
Qed.


Lemma at_dir (q : path) (d : node) :
  at_ q d = IsDir ↔ ∃ es, lookup q d = Some (Dir es).
Proof.
  unfold at_. destruct (lookup q d) as [[c|es]|]; simpl; split;
    try discriminate; try (intros [? ?]; discriminate); eauto.
Qed.

Lemma at_file (q : path) (d : node) (c : string) :
  at_ q d = IsFile c ↔ lookup q d = Some (File c).
Proof.
  unfold at_. destruct (lookup q d) as [[c'|es]|]; simpl; split;
    try discriminate; congruence.
Qed.

Lemma at_absent (q : path) (d : node) : at_ q d = Absent ↔ lookup q d = None.
Proof.
  unfold at_. destruct (lookup q d) as [[c'|es]|]; simpl; split; congruence.
Qed.

Lemma at_parent (p : path) (d : node) :
  p ≠ [] → at_ p d ≠ Absent → at_ (parent p) d = IsDir.
Proof.
  intros Hp H. destruct (lookup p d) as [n|] eqn:E.
  - apply at_dir. now apply (lookup_parent p d n).
  - destruct H. now apply at_absent.
Qed.

(** Nothing lies below a path that is missing or a file. *)
Lemma at_below (p r : path) (d : node) :
  r ≠ [] → at_ p d ≠ IsDir → at_ (p ++ r) d = Absent.
Proof.
  intros Hr H. apply at_absent. rewrite lookup_app.
  unfold at_ in H. destruct (lookup p d) as [[c|es]|]; simpl; try reflexivity.
  - now apply lookup_nonempty_file.
  - now destruct H.
Qed.

Lemma at_place (p : path) (o : option node) (d : node) :
  p ≠ [] → at_ (parent p) d = IsDir → at_ p (place p o d) = viewOf o.
Proof.
  intros Hp H. apply at_dir in H as [es H]. unfold at_.
  now rewrite (lookup_place p o d es).
Qed.

(** Putting a file at [p], or removing what is at [p], when nothing lies
    below [p]: every other path keeps its kind. *)
Lemma at_place_leaf (p q : path) (o : option node) (d : node) :
  p ≠ [] → at_ (parent p) d = IsDir → q ≠ p →
  (∀ r, r ≠ [] → o ≫= lookup r = None) →
  (∀ r, r ≠ [] → at_ (p ++ r) d = Absent) →
  at_ q (place p o d) = at_ q d.
Proof.
  intros Hp Hpar Hq Ho Hd.
  destruct (decide (p `prefix_of` q)) as [[r ->]|Hn]; [|now apply at_place_frame].
  assert (Hr : r ≠ []) by (intros ->; now rewrite app_nil_r in Hq).
  apply at_dir in Hpar as [es Hpar].
  rewrite (Hd r Hr). apply at_absent.
  rewrite (lookup_place_below p r o d es Hp Hpar). now apply Ho.
Qed.

Lemma leaf_none (r : path) : r ≠ [] → (None : option node) ≫= lookup r = None.
Proof. reflexivity. Qed.

Lemma leaf_file (c : string) (r : path) : r ≠ [] → Some (File c) ≫= lookup r = None.
Proof. intros H. simpl. now apply lookup_nonempty_file. Qed.

(** **** writeFileSync *)

Lemma writeFile_inv (p : path) (s : string) (d d' : node) :
  writeFile p s d = inr d' →
  p ≠ [] ∧ at_ (parent p) d = IsDir ∧ at_ p d ≠ IsDir ∧
  d' = place p (Some (File s)) d.
Proof.
  unfold writeFile. intros H.
  destruct p as [|x p]; [discriminate|].
  split; [discriminate|].
  destruct (lookup (x :: p) d) as [[c|es]|] eqn:E; try discriminate.
  - injection H as <-. repeat split.
    + apply at_parent; [discriminate|]. unfold at_. now rewrite E.
    + unfold at_. now rewrite E.
  - destruct (lookup (parent (x :: p)) d) as [[c|es]|] eqn:E'; try discriminate.
    injection H as <-. repeat split.
    + apply at_dir. eauto.
    + unfold at_. now rewrite E.
Qed.

Lemma writeFile_written (p : path) (s : string) (d d' : node) :
  writeFile p s d = inr d' → at_ p d' = IsFile s.
Proof.
  intros H. apply writeFile_inv in H as (Hp & Hpar & _ & ->).
  now rewrite at_place.
Qed.

Lemma writeFile_keeps (p q : path) (s : string) (d d' : node) :
  writeFile p s d = inr d' → q ≠ p → at_ q d' = at_ q d.
Proof.
  intros H Hq. apply writeFile_inv in H as (Hp & Hpar & Hnd & ->).
  apply at_place_leaf; auto using leaf_file.
  intros r Hr. now apply at_below.
Qed.

Lemma writeFile_keeps_dir (p q : path) (s : string) (d d' : node) :
  writeFile p s d = inr d' → at_ q d = IsDir → at_ q d' = IsDir.
Proof.
  intros H Hq. destruct (decide (q = p)) as [->|Hne].
  - apply writeFile_inv in H as (_ & _ & Hnd & _). contradiction.
  - now rewrite (writeFile_keeps p q s d d').
Qed.

(** Writing over a file succeeds; writing its own text back changes
    nothing. *)
Lemma writeFile_over (p : path) (s c : string) (d : node) :
  p ≠ [] → at_ p d = IsFile c → ∃ d', writeFile p s d = inr d'.
Proof.
  intros Hp H. apply at_file in H. unfold writeFile.
  destruct p as [|x p]; [done|]. rewrite H. eauto.
Qed.

Lemma writeFile_same (p : path) (s : string) (d : node) :
  p ≠ [] → at_ p d = IsFile s → writeFile p s d = inr d.
Proof.
  intros Hp H. apply at_file in H. unfold writeFile.
  destruct p as [|x p]; [done|]. rewrite H. f_equal. now apply place_same.
Qed.

(** **** unlinkSync and rmdirSync *)

Lemma unlink_inv (p : path) (d d' : node) :
  unlink p d = inr d' →
  p ≠ [] ∧ at_ (parent p) d = IsDir ∧ (∃ c, at_ p d = IsFile c) ∧
  d' = place p None d.
Proof.
  unfold unlink. intros H. destruct p as [|x p]; [discriminate|].
  split; [discriminate|].
  destruct (lookup (x :: p) d) as [[c|es]|] eqn:E; try discriminate.
  injection H as <-. repeat split.
  - apply at_parent; [discriminate|]. unfold at_. now rewrite E.
  - exists c. unfold at_. now rewrite E.
Qed.

Lemma unlink_removed (p : path) (d d' : node) :
  unlink p d = inr d' → at_ p d' = Absent.
Proof.
  intros H. apply unlink_inv in H as (Hp & Hpar & _ & ->). now rewrite at_place.
Qed.

Lemma unlink_keeps (p q : path) (d d' : node) :
  unlink p d = inr d' → q ≠ p → at_ q d' = at_ q d.
Proof.
  intros H Hq. apply unlink_inv in H as (Hp & Hpar & [c Hc] & ->).
  apply at_place_leaf; auto using leaf_none.
  intros r Hr. apply at_below; [exact Hr | congruence].
Qed.

Lemma unlink_file (p : path) (c : string) (d : node) :
  p ≠ [] → at_ p d = IsFile c → unlink p d = inr (place p None d).
Proof.
  intros Hp H. apply at_file in H. unfold unlink.
  destruct p as [|x p]; [done|]. now rewrite H.
Qed.

Lemma isEmpty_true (es : gmap string node) : isEmpty es = true ↔ es = ∅.
Proof. unfold isEmpty. rewrite Nat.eqb_eq. apply map_size_empty_iff. Qed.

Lemma at_below_empty (p r : path) (d : node) :
  r ≠ [] → lookup p d = Some (Dir ∅) → at_ (p ++ r) d = Absent.
Proof.
  intros Hr H. apply at_absent. rewrite lookup_app, H.
  destruct r as [|x r]; [done|]. simpl. now rewrite lookup_empty.
Qed.

Lemma rmdir_inv (p : path) (d d' : node) :
  rmdir p d = inr d' →
  p ≠ [] ∧ at_ (parent p) d = IsDir ∧ lookup p d = Some (Dir ∅) ∧
  d' = place p None d.
Proof.
  unfold rmdir. intros H.
  destruct (lookup p d) as [[c|es]|] eqn:E; try discriminate.
  destruct p as [|x p]; [discriminate|]. split; [discriminate|].
  destruct (isEmpty es) eqn:Ee; [|discriminate].
  apply isEmpty_true in Ee as ->. injection H as <-. repeat split.
  apply at_parent; [discriminate|]. unfold at_. now rewrite E.
Qed.

Lemma rmdir_removed (p : path) (d d' : node) :
  rmdir p d = inr d' → at_ p d' = Absent.
Proof.
  intros H. apply rmdir_inv in H as (Hp & Hpar & _ & ->). now rewrite at_place.
Qed.

Lemma rmdir_keeps (p q : path) (d d' : node) :
  rmdir p d = inr d' → q ≠ p → at_ q d' = at_ q d.
Proof.
  intros H Hq. apply rmdir_inv in H as (Hp & Hpar & He & ->).
  apply at_place_leaf; auto using leaf_none.
  intros r Hr. now apply at_below_empty.
Qed.

Lemma rmdir_empty (p : path) (d : node) :
  p ≠ [] → lookup p d = Some (Dir ∅) → rmdir p d = inr (place p None d).
Proof.
  intros Hp H. unfold rmdir. rewrite H. destruct p; [done|]. reflexivity.
Qed.

(** Removing a file or a directory leaves every file a file. *)
Lemma rmdir_keeps_file (p q : path) (c : string) (d d' : node) :
  rmdir p d = inr d' → at_ q d = IsFile c → at_ q d' = IsFile c.
Proof.
  intros H Hq. destruct (decide (q = p)) as [->|Hne].
  - apply rmdir_inv in H as (_ & _ & He & _).
    apply at_file in Hq. congruence.
  - now rewrite (rmdir_keeps p q d d').
Qed.

(** **** renameSync *)

(** What lies below a directory with an entry: the directory is not
    empty. *)
Lemma at_below_some (b r : path) (d : node) :
  r ≠ [] → at_ (b ++ r) d ≠ Absent →
  ∃ es, lookup b d = Some (Dir es) ∧ isEmpty es = false.
Proof.
  intros Hr H. rewrite at_absent, lookup_app in H.
  destruct (lookup b d) as [[c|es]|]; simpl in H.
  - destruct H. now apply lookup_nonempty_file.
  - exists es. split; [reflexivity|].
    destruct (isEmpty es) eqn:E; [|reflexivity].
    apply isEmpty_true in E as ->. destruct r as [|x r]; [done|].
    simpl in H. now rewrite lookup_empty in H.
  - now destruct H.
Qed.

Lemma rename_inv (a b : path) (d d' : node) :
  rename a b d = inr d' →
  (a = b ∧ d' = d) ∨
  (a ≠ [] ∧ b ≠ [] ∧ a ≠ b ∧ ¬ a `prefix_of` b ∧
   ∃ src, lookup a d = Some src ∧
          d' = place b (Some src) (place a None d) ∧
          at_ (parent b) d = IsDir ∧
          match lookup b d, src with
          | Some (File _), File _ => True
          | Some (Dir es), Dir _ => es = ∅
          | None, _ => True
          | _, _ => False
          end).
Proof.
  unfold rename. intros H.
  destruct (lookup a d) as [src|] eqn:Ea; [|discriminate].
  destruct (bool_decide (a = [])) eqn:Ea0; [discriminate|].
  destruct (bool_decide (b = [])) eqn:Eb0; [discriminate|]. simpl in H.
  apply bool_decide_eq_false in Ea0, Eb0.
  destruct (bool_decide (a = b)) eqn:Eab.
  { left. apply bool_decide_eq_true in Eab. split; congruence. }
  destruct (bool_decide (a `prefix_of` b)) eqn:Epre; [discriminate|].
  apply bool_decide_eq_false in Eab, Epre.
  right. repeat (split; [assumption|]).
  exists src. split; [reflexivity|].
  destruct (lookup b d) as [[c|es]|] eqn:Eb.
  - destruct src; [|discriminate]. injection H as <-. repeat split.
    apply at_parent; [assumption|]. unfold at_. now rewrite Eb.
  - destruct src; [discriminate|].
    destruct (isEmpty es) eqn:Ee; [|discriminate]. injection H as <-.
    repeat split.
    + apply at_parent; [assumption|]. unfold at_. now rewrite Eb.
    + now apply isEmpty_true.
  - destruct (lookup (parent b) d) as [[c|es]|] eqn:Ep; try discriminate.
    injection H as <-. repeat split. apply at_dir. eauto.
Qed.


Lemma parent_prefix (p : path) : parent p `prefix_of` p.
Proof.
  destruct (decide (p = [])) as [->|Hp]; [apply prefix_nil|].
  exists [List.last p ""%string]. now apply app_removelast_last.
Qed.

Lemma rename_dest_free (b r : path) (d : node) (src : node) :
  r ≠ [] → at_ (b ++ r) d ≠ Absent →
  match lookup b d, src with
  | Some (File _), File _ => True
  | Some (Dir es), Dir _ => es = ∅
  | None, _ => True
  | _, _ => False
  end → False.
Proof.
  intros Hr H Hm. destruct (at_below_some b r d Hr H) as (es & E & Hne).
  rewrite E in Hm. destruct src; [exact Hm|]. subst es.
  now rewrite (proj2 (isEmpty_true ∅)) in Hne.
Qed.

Lemma rename_keeps (a b q : path) (d d' : node) :
  rename a b d = inr d' → ¬ a `prefix_of` q → ¬ b `prefix_of` q →
  at_ q d' = at_ q d.
Proof.
  intros H Ha Hb.
  apply rename_inv in H as [[_ ->]|(_ & _ & _ & _ & src & _ & -> & _)];
    [reflexivity|].
  now rewrite !at_place_frame.
Qed.

Lemma rename_keeps_file (a b q : path) (c : string) (d d' : node) :
  rename a b d = inr d' → at_ q d = IsFile c → ¬ a `prefix_of` q → q ≠ b →
  at_ q d' = IsFile c.
Proof.
  intros H Hq Ha Hqb.
  destruct (decide (b `prefix_of` q)) as [[r ->]|Hb].
  - apply rename_inv in H as [[_ ->]|(_ & _ & _ & _ & src & _ & _ & _ & Hm)];
      [exact Hq|].
    destruct (rename_dest_free b r d src); [| congruence | exact Hm].
    intros ->. now rewrite app_nil_r in Hqb.
  - now rewrite (rename_keeps a b q d d').
Qed.

Lemma rename_keeps_dir (a b q : path) (d d' : node) :
  rename a b d = inr d' → at_ q d = IsDir → ¬ a `prefix_of` q →
  at_ q d' = IsDir.
Proof.
  intros H Hq Ha.
  destruct (decide (b `prefix_of` q)) as [[r ->]|Hb];
    [|now rewrite (rename_keeps a b q d d')].
  apply rename_inv in H
    as [[_ ->]|(_ & Hb0 & _ & Hab & src & _ & -> & Hpar & Hm)]; [exact Hq|].
  destruct (decide (r = [])) as [->|Hr].
  - rewrite app_nil_r in *. rewrite at_place.
    + apply at_dir in Hq as [es Hq]. rewrite Hq in Hm. now destruct src.
    + exact Hb0.
    + rewrite at_place_frame; [exact Hpar|].
      intros Hp. apply Hab. etrans; [exact Hp | apply parent_prefix].
  - destruct (rename_dest_free b r d src); [exact Hr | congruence | exact Hm].
Qed.

(** After a rename the old name is gone and the new name shows what the
    old one showed. *)
Lemma rename_moves (a b : path) (d d' : node) :
  rename a b d = inr d' → a ≠ b →
  at_ a d' = Absent ∧ at_ b d' = at_ a d.
Proof.
  intros H Hne.
  apply rename_inv in H
    as [[? _]|(Ha0 & Hb0 & _ & Hab & src & Ha & -> & Hpar & Hm)]; [done|].
  assert (Hsrc : at_ a d = viewOf (Some src)) by (unfold at_; now rewrite Ha).
  split.
  - rewrite at_place_frame.
    + apply at_place; [exact Ha0|]. apply at_parent; [exact Ha0|].
      rewrite Hsrc. now destruct src.
    + intros [r ->]. destruct (rename_dest_free b r d src); [| | exact Hm].
      * intros ->. now rewrite app_nil_r in Hne.
      * rewrite Hsrc. now destruct src.
  - rewrite Hsrc. apply at_place; [exact Hb0|].
    rewrite at_place_frame; [exact Hpar|].
    intros Hp. apply Hab. etrans; [exact Hp | apply parent_prefix].
Qed.

(** A file moves onto a free name or over another file. *)
Lemma rename_file (a b : path) (c : string) (d : node) :
  a ≠ [] → b ≠ [] → a ≠ b → ¬ a `prefix_of` b →
  at_ a d = IsFile c → at_ (parent b) d = IsDir → at_ b d ≠ IsDir →
  ∃ d', rename a b d = inr d'.
Proof.
  intros Ha0 Hb0 Hab Hpre Ha Hpar Hb. apply at_file in Ha.
  apply at_dir in Hpar as [es Hpar]. unfold rename. rewrite Ha.
  rewrite !bool_decide_eq_false_2 by assumption. simpl.
  unfold at_ in Hb. destruct (lookup b d) as [[c'|es']|]; simpl in Hb.
  - eauto.
  - now destruct Hb.
  - rewrite Hpar. eauto.
Qed.

Lemma rename_missing (a b : path) (d : node) :
  at_ a d = Absent → ∃ e, rename a b d = inl e.
Proof. intros H. apply at_absent in H. unfold rename. rewrite H. eauto. Qed.

Lemma rename_onto_dir (a b : path) (c : string) (d : node) :
  a ≠ b → at_ a d = IsFile c → at_ b d = IsDir → ∃ e, rename a b d = inl e.
Proof.
  intros Hab Ha Hb. apply at_file in Ha. apply at_dir in Hb as [es Hb].
  unfold rename. rewrite Ha, Hb.
  destruct (bool_decide (a = []) || bool_decide (b = [])); [eauto|].
  rewrite bool_decide_eq_false_2 by assumption.
  destruct (bool_decide (a `prefix_of` b)); eauto.
Qed.

(** **** mkdirSync *)

Lemma mkdirp_keeps (p : path) :
  ∀ q d d', mkdirp p d = inr d' →
            at_ q d ≠ Absent ∨ ¬ q `prefix_of` p → at_ q d' = at_ q d.
Proof.
  induction p as [|x p IH]; intros q d d' H Hq.
  - simpl in H. destruct d; [discriminate|]. now injection H as <-.
  - simpl in H. destruct d as [c|es]; [discriminate|].
    destruct (mkdirp p (default (Dir ∅) (es !! x))) as [e|n] eqn:E;
      [discriminate|].
    injection H as <-. destruct q as [|y q]; [reflexivity|].
    unfold at_. simpl. destruct (decide (x = y)) as [<-|Hxy].
    + rewrite lookup_insert_eq. simpl.
      destruct (es !! x) as [m|] eqn:Ex; simpl in *.
      * apply (IH q m n E). destruct Hq as [Hq|Hq].
        -- left. unfold at_ in Hq. simpl in Hq. now rewrite Ex in Hq.
        -- right. intros Hp. apply Hq. now apply prefix_cons.
      * destruct Hq as [Hq|Hq].
        { unfold at_ in Hq. simpl in Hq. rewrite Ex in Hq. now destruct Hq. }
        assert (Hqp : ¬ q `prefix_of` p).
        { intros Hp. apply Hq. now apply prefix_cons. }
        pose proof (IH q (Dir ∅) n E (or_intror Hqp)) as Hv.
        unfold at_ in Hv. rewrite Hv.
        destruct q as [|z q]; [destruct Hqp; apply prefix_nil|].
        simpl. now rewrite lookup_empty.
    + now rewrite lookup_insert_ne.
Qed.

(** A directory is not unlinked. *)
Lemma unlink_dir (p : path) (d : node) (es : gmap string node) :
  lookup p d = Some (Dir es) → unlink p d = inl EISDIR.
Proof. intros H. unfold unlink. destruct p; [reflexivity | now rewrite H]. Qed.

End DiskFacts.

(** *** Objects *)

Module JSONFacts.

Section Props.
Context {number : Type}.
Implicit Types (props : list (string * json number)) (k : string) (v : json number).

Lemma lookup_assign_eq props k v : lookupProp (assignProp props k v) k = Some v.
Proof.
  induction props as [|[k' v'] props IH]; simpl.
  - now rewrite String.eqb_refl.
  - destruct (String.eqb k' k) eqn:E; simpl.
    + now rewrite String.eqb_refl.
    + now rewrite E.
Qed.

Lemma lookup_assign_ne props k k' v :
  k' ≠ k → lookupProp (assignProp props k v) k' = lookupProp props k'.
Proof.
  intros Hne. induction props as [|[k0 v0] props IH]; simpl.
  - apply String.eqb_neq in Hne. rewrite String.eqb_sym in Hne. now rewrite Hne.
  - destruct (String.eqb k0 k) eqn:E; simpl.
    + apply String.eqb_eq in E as ->.
      apply String.eqb_neq in Hne. rewrite String.eqb_sym in Hne.
      now rewrite Hne.
    + now rewrite IH.
Qed.

(** A property that exists keeps its place. *)
Lemma keys_assign props k v :
  is_Some (lookupProp props k) →
  map fst (assignProp props k v) = map fst props.
Proof.
  induction props as [|[k0 v0] props IH]; simpl; intros H.
  - now destruct H.
  - destruct (String.eqb k0 k) eqn:E; simpl.
    + apply String.eqb_eq in E as ->. reflexivity.
    + now rewrite IH.
Qed.

Lemma lookup_merge_other (source : list (string * string)) : ∀ props k,
  k ∉ map fst source → lookupProp (mergeInto props source) k = lookupProp props k.
Proof.
  induction source as [|[k0 s0] source IH]; intros props k Hk; [reflexivity|].
  simpl in Hk |- *. apply not_elem_of_cons in Hk as [Hne Hk].
  unfold mergeInto in *. simpl. rewrite IH by exact Hk.
  now apply lookup_assign_ne.
Qed.

Lemma lookup_merge_in (source : list (string * string)) : ∀ props k s,
  NoDup (map fst source) → (k, s) ∈ source →
  lookupProp (mergeInto props source) k = Some (JString s).
Proof.
  induction source as [|[k0 s0] source IH]; intros props k s Hnd Hin.
  - now apply elem_of_nil in Hin.
  - simpl in Hnd. apply NoDup_cons in Hnd as [Hk0 Hnd].
    apply elem_of_cons in Hin as [Heq|Hin].
    + injection Heq as -> ->. unfold mergeInto. simpl.
      fold (mergeInto (assignProp props k0 (JString s0)) source).
      rewrite lookup_merge_other by exact Hk0. apply lookup_assign_eq.
    + unfold mergeInto in *. simpl. now apply IH.
Qed.

End Props.

End JSONFacts.

(** *** The monad *)

Module Effects.

Lemma bind_cases {A B} (m : M A) (f : A → M B) (w w' : world) (r : outcome B) :
  (m ≫= f) w = (r, w') →
  (∃ e, m w = (Thrown e, w') ∧ r = Thrown e) ∨
  (∃ a w1, m w = (Returned a, w1) ∧ f a w1 = (r, w')).
Proof.
  unfold mbind, M_bind. destruct (m w) as [[a|e] w1]; intros H.
  - right. eauto.
  - left. injection H as <- <-. eauto.
Qed.

Lemma bind_returned {A B} (m : M A) (f : A → M B) (w w' : world) (b : B) :
  (m ≫= f) w = (Returned b, w') →
  ∃ a w1, m w = (Returned a, w1) ∧ f a w1 = (Returned b, w').
Proof.
  intros H. apply bind_cases in H as [(e & _ & He)|H]; [discriminate | exact H].
Qed.

Lemma bind_run {A B} (m : M A) (f : A → M B) (w w1 : world) (a : A) :
  m w = (Returned a, w1) → (m ≫= f) w = f a w1.
Proof. unfold mbind, M_bind. now intros ->. Qed.

Lemma bind_thrown {A B} (m : M A) (f : A → M B) (w w1 : world) (e : exn) :
  m w = (Thrown e, w1) → (m ≫= f) w = (Thrown e, w1).
Proof. unfold mbind, M_bind. now intros ->. Qed.

Section Rules.
Context (I : node → Prop).

Lemma preserves_bind {A B} (m : M A) (f : A → M B) :
  preserves I m → (∀ a, preserves I (f a)) → preserves I (m ≫= f).
Proof.
  intros Hm Hf w r w' H HI.
  apply bind_cases in H as [(e & H & _)|(a & w1 & H & H')].
  - exact (Hm _ _ _ H HI).
  - exact (Hf a _ _ _ H' (Hm _ _ _ H HI)).
Qed.

Lemma preserves_ret {A} (a : A) : preserves I (mret a).
Proof. intros w r w' H HI. now injection H as <- <-. Qed.

Lemma preserves_throw {A} (e : exn) : preserves I (throw e : M A).
Proof. intros w r w' H HI. now injection H as <- <-. Qed.

Lemma preserves_lift {A} (o : outcome A) : preserves I (lift o).
Proof. intros w r w' H HI. now injection H as <- <-. Qed.

Lemma preserves_console (line : string) : preserves I (console_log line).
Proof. intros w r w' H HI. now injection H as <- <-. Qed.

Lemma preserves_query {A} (c : call) (f : node → errno + A) : preserves I (query c f).
Proof.
  intros w r w' H HI. unfold query in H.
  destruct (f (disk w)); now injection H as <- <-.
Qed.

Lemma preserves_update (c : call) (f : node → errno + node) :
  (∀ d d', f d = inr d' → I d → I d') → preserves I (update c f).
Proof.
  intros Hf w r w' H HI. unfold update in H.
  destruct (f (disk w)) as [e|d'] eqn:E; injection H as <- <-; simpl; eauto.
Qed.

End Rules.

Section Journal.
Context (P : call → Prop).

Lemma issues_bind {A B} (m : M A) (f : A → M B) :
  issues P m → (∀ a, issues P (f a)) → issues P (m ≫= f).
Proof.
  intros Hm Hf w r w' H.
  apply bind_cases in H as [(e & H & _)|(a & w1 & H & H')].
  - exact (Hm _ _ _ H).
  - destruct (Hm _ _ _ H) as (n1 & E1 & F1).
    destruct (Hf a _ _ _ H') as (n2 & E2 & F2).
    exists (n2 ++ n1)%list. split.
    + now rewrite E2, E1, app_assoc.
    + now apply Forall_app.
Qed.

Lemma issues_ret {A} (a : A) : issues P (mret a).
Proof. intros w r w' H. injection H as <- <-. exists []. now split. Qed.

Lemma issues_throw {A} (e : exn) : issues P (throw e : M A).
Proof. intros w r w' H. injection H as <- <-. exists []. now split. Qed.

Lemma issues_lift {A} (o : outcome A) : issues P (lift o).
Proof. intros w r w' H. injection H as <- <-. exists []. now split. Qed.

Lemma issues_console (line : string) : issues P (console_log line).
Proof. intros w r w' H. injection H as <- <-. exists []. now split. Qed.

Lemma issues_query {A} (c : call) (f : node → errno + A) : P c → issues P (query c f).
Proof.
  intros Hc w r w' H. unfold query in H. exists [c].
  destruct (f (disk w)); injection H as <- <-; split; simpl; auto.
Qed.

Lemma issues_update (c : call) (f : node → errno + node) : P c → issues P (update c f).
Proof.
  intros Hc w r w' H. unfold update in H. exists [c].
  destruct (f (disk w)); injection H as <- <-; split; simpl; auto.
Qed.

End Journal.

End Effects.

(** *** The [fs] calls *)

Module FsFacts.
Import Disk DiskFacts Effects.
#[local] Open Scope list_scope.

(** The disk shows [v] at [q]. *)
Abbreviation shows q v := (λ d : node, at_ q d = v).

Lemma readFileSync_keeps (I : node → Prop) (p : path) : preserves I (fs.readFileSync p).
Proof. apply preserves_query. Qed.

Lemma readdirSync_keeps (I : node → Prop) (p : path) : preserves I (fs.readdirSync p).
Proof. apply preserves_query. Qed.

Lemma existsSync_keeps (I : node → Prop) (p : path) : preserves I (fs.existsSync p).
Proof. apply preserves_query. Qed.

Lemma writeFileSync_keeps (q p : path) (v : view) (s : string) :
  v = IsDir ∨ q ≠ p → preserves (shows q v) (fs.writeFileSync p s).
Proof.
  intros Hq. apply preserves_update. intros d d' H HI. destruct Hq as [->|Hq].
  - now apply (writeFile_keeps_dir p q s d d').
  - now rewrite (writeFile_keeps p q s d d' H Hq).
Qed.

Lemma renameSync_keeps (q a b : path) (v : view) :
  ¬ a `prefix_of` q →
  v = IsDir ∨ (v ≠ Absent ∧ q ≠ b) ∨ ¬ b `prefix_of` q →
  preserves (shows q v) (fs.renameSync a b).
Proof.
  intros Ha Hb. apply preserves_update. intros d d' H HI.
  destruct Hb as [->|[[Hv Hqb]|Hb]].
  - now apply (rename_keeps_dir a b q d d').
  - destruct v as [|c|]; [done| |].
    + now apply (rename_keeps_file a b q c d d').
    + now apply (rename_keeps_dir a b q d d').
  - now rewrite (rename_keeps a b q d d').
Qed.

Lemma unlinkSync_keeps (q p : path) (v : view) :
  q ≠ p → preserves (shows q v) (fs.unlinkSync p).
Proof.
  intros Hq. apply preserves_update. intros d d' H HI.
  now rewrite (unlink_keeps p q d d' H Hq).
Qed.

Lemma rmdirSync_keeps (q p : path) (v : view) :
  v ≠ IsDir ∨ q ≠ p → preserves (shows q v) (fs.rmdirSync p).
Proof.
  intros Hq. apply preserves_update. intros d d' H HI.
  destruct (decide (q = p)) as [->|Hne].
  - destruct Hq as [Hv|Hq]; [|done]. destruct Hv.
    apply rmdir_inv in H as (_ & _ & He & _). rewrite <- HI.
    unfold at_. now rewrite He.
  - now rewrite (rmdir_keeps p q d d' H Hne).
Qed.

Lemma mkdirSync_keeps (q p : path) (v : view) :
  v ≠ Absent ∨ ¬ q `prefix_of` p → preserves (shows q v) (fs.mkdirSync p).
Proof.
  intros Hq. apply preserves_update. intros d d' H HI.
  rewrite (mkdirp_keeps p q d d' H); [exact HI|].
  destruct Hq as [Hv|Hq]; [left; congruence | now right].
Qed.

Lemma readFileSync_file (p : path) (c : string) (w : world) :
  at_ p (disk w) = IsFile c →
  fs.readFileSync p w = (Returned c, logged (ReadFileSync p) w).
Proof.
  intros H. apply at_file in H. unfold fs.readFileSync, query, readFile.
  now rewrite H.
Qed.

Lemma readFileSync_returned (p : path) (c : string) (w w' : world) :
  fs.readFileSync p w = (Returned c, w') →
  at_ p (disk w) = IsFile c ∧ w' = logged (ReadFileSync p) w.
Proof.
  unfold fs.readFileSync, query, readFile. intros H.
  destruct (lookup p (disk w)) as [[c'|es]|] eqn:E; try discriminate.
  injection H as <- <-. split; [|reflexivity]. unfold at_. now rewrite E.
Qed.

Lemma writeFileSync_returned (p : path) (s : string) (w w' : world) :
  fs.writeFileSync p s w = (Returned tt, w') → at_ p (disk w') = IsFile s.
Proof.
  unfold fs.writeFileSync, update. intros H.
  destruct (writeFile p s (disk w)) as [e|d'] eqn:E; [discriminate|].
  injection H as <-. simpl. now apply (writeFile_written p s (disk w)).
Qed.

Lemma writeFileSync_over (p : path) (s c : string) (w : world) :
  p ≠ [] → at_ p (disk w) = IsFile c →
  ∃ d', fs.writeFileSync p s w
        = (Returned tt, World d' (WriteFileSync p s :: journal w) (console w)) ∧
        at_ p d' = IsFile s.
Proof.
  intros Hp H. destruct (writeFile_over p s c (disk w) Hp H) as [d' E].
  exists d'. unfold fs.writeFileSync, update. rewrite E. split; [reflexivity|].
  now apply (writeFile_written p s (disk w)).
Qed.

Lemma writeFileSync_same (p : path) (s : string) (w : world) :
  p ≠ [] → at_ p (disk w) = IsFile s →
  fs.writeFileSync p s w = (Returned tt, logged (WriteFileSync p s) w).
Proof.
  intros Hp H. unfold fs.writeFileSync, update.
  now rewrite (writeFile_same p s (disk w) Hp H).
Qed.

Lemma renameSync_returned (a b : path) (w w' : world) :
  fs.renameSync a b w = (Returned tt, w') → a ≠ b →
  at_ a (disk w') = Absent ∧ at_ b (disk w') = at_ a (disk w).
Proof.
  unfold fs.renameSync, update. intros H Hab.
  destruct (rename a b (disk w)) as [e|d'] eqn:E; [discriminate|].
  injection H as <-. simpl. now apply rename_moves.
Qed.

Lemma unlinkSync_file (p : path) (c : string) (w : world) :
  p ≠ [] → at_ p (disk w) = IsFile c →
  fs.unlinkSync p w
  = (Returned tt, World (place p None (disk w)) (UnlinkSync p :: journal w) (console w)).
Proof.
  intros Hp H. unfold fs.unlinkSync, update. now rewrite (unlink_file p c (disk w)).
Qed.

Lemma readdirSync_dir (p : path) (es : gmap string node) (w : world) :
  lookup p (disk w) = Some (Dir es) →
  fs.readdirSync p w
  = (Returned (map fst (map_to_list es)), logged (ReaddirSync p) w).
Proof. intros H. unfold fs.readdirSync, query, readdir. now rewrite H. Qed.

Lemma rmdirSync_empty (p : path) (w : world) :
  p ≠ [] → lookup p (disk w) = Some (Dir ∅) →
  fs.rmdirSync p w
  = (Returned tt, World (place p None (disk w)) (RmdirSync p :: journal w) (console w)).
Proof.
  intros Hp H. unfold fs.rmdirSync, update. now rewrite (rmdir_empty p (disk w)).
Qed.

(** **** Calls by what the disk answers *)

Lemma unlinkSync_fails (p : path) (w : world) (e : errno) :
  unlink p (disk w) = inl e →
  fs.unlinkSync p w = (Thrown (SystemError e), logged (UnlinkSync p) w).
Proof. unfold fs.unlinkSync, update. now intros ->. Qed.

Lemma unlinkSync_done (p : path) (w : world) (d : node) :
  unlink p (disk w) = inr d →
  fs.unlinkSync p w = (Returned tt, World d (UnlinkSync p :: journal w) (console w)).
Proof. unfold fs.unlinkSync, update. now intros ->. Qed.

Lemma readdirSync_done (p : path) (w : world) (names : list string) :
  readdir p (disk w) = inr names →
  fs.readdirSync p w = (Returned names, logged (ReaddirSync p) w).
Proof. unfold fs.readdirSync, query. now intros ->. Qed.

Lemma rmdirSync_fails (p : path) (w : world) (e : errno) :
  rmdir p (disk w) = inl e →
  fs.rmdirSync p w = (Thrown (SystemError e), logged (RmdirSync p) w).
Proof. unfold fs.rmdirSync, update. now intros ->. Qed.

(** **** Paths *)

Lemma snoc_ne (l1 l2 : path) (a b : string) : a ≠ b → l1 ++ [a] ≠ l2 ++ [b].
Proof. intros Hab H. now apply app_inj_tail in H as [_ ?]. Qed.

Lemma snoc_nonempty (l : path) (a : string) : l ++ [a] ≠ [].
Proof. now destruct l. Qed.

Lemma prefix_snoc_cases (p l : path) (x : string) :
  p `prefix_of` l ++ [x] → p `prefix_of` l ∨ p = l ++ [x].
Proof.
  intros [k Hk]. destruct (decide (k = [])) as [->|Hne].
  - right. now rewrite app_nil_r in Hk.
  - left. destruct (exists_last Hne) as (k' & y & ->).
    rewrite app_assoc in Hk. apply app_inj_tail in Hk as [-> _].
    now exists k'.
Qed.

End FsFacts.

(** *** The steps of the script *)

Module ScriptFacts.
Import JSString Disk DiskFacts JSONFacts Effects FsFacts Script.
#[local] Open Scope list_scope.

(** Side conditions on paths: different last names, or different segments
    after a common start. *)
Ltac apart_paths :=
  lazymatch goal with
  | |- _ ≠ _ => solve [ apply snoc_ne; discriminate | assumption ]
  | |- ¬ _ `prefix_of` _ =>
    solve [ assumption
          | let k := fresh "k" in
            let Hk := fresh "Hk" in
            intros [k Hk]; cbv [packageJSONPath beforeMainJSPath afterMainTSPath
              appSveltePath rollupConfigPath tsconfigPath svelteConfigPath dtsPath
              Path.join Path.enter fold_left String.eqb Ascii.eqb Bool.eqb orb] in Hk;
            rewrite <- ?app_assoc in Hk; apply app_inv_head in Hk; discriminate ]
  end.

Ltac side :=
  solve [ apart_paths
        | discriminate
        | reflexivity
        | assumption
        | split; side
        | left; side
        | right; side ].

Section Steps.
Context {rt : Runtime} (proc : process).

Lemma addDependencies_keeps (q : path) (v : view) :
  v = IsDir ∨ q ≠ packageJSONPath proc →
  preserves (shows q v) (addDependencies proc).
Proof.
  intros Hq. unfold addDependencies.
  apply preserves_bind; [apply readFileSync_keeps | intros text].
  apply preserves_bind; [destruct (JSON_parse text);
                         [apply preserves_ret | apply preserves_throw] | intros v0].
  repeat (apply preserves_bind; [apply preserves_lift | intros ?]).
  now apply writeFileSync_keeps.
Qed.

Lemma renameMain_keeps (q : path) (v : view) :
  ¬ beforeMainJSPath proc `prefix_of` q →
  v = IsDir ∨ (v ≠ Absent ∧ q ≠ afterMainTSPath proc) ∨
    ¬ afterMainTSPath proc `prefix_of` q →
  preserves (shows q v) (renameMain proc).
Proof. intros Ha Hb. now apply renameSync_keeps. Qed.

Lemma switchAppToTS_keeps (q : path) (v : view) :
  v = IsDir ∨ q ≠ appSveltePath proc →
  preserves (shows q v) (switchAppToTS proc).
Proof.
  intros Hq. unfold switchAppToTS.
  apply preserves_bind; [apply readFileSync_keeps | intros text].
  now apply writeFileSync_keeps.
Qed.

Lemma editRollupConfig_keeps (q : path) (v : view) :
  v = IsDir ∨ q ≠ rollupConfigPath proc →
  preserves (shows q v) (editRollupConfig proc).
Proof.
  intros Hq. unfold editRollupConfig.
  apply preserves_bind; [apply readFileSync_keeps | intros text].
  now apply writeFileSync_keeps.
Qed.

Lemma deleteThisScript_keeps (q : path) (v : view) :
  truthy (argv2 proc) = true ∨
  (q ≠ __filename proc ∧ q ≠ __dirname proc ++ [".DS_store"%string] ∧
   (v ≠ IsDir ∨ q ≠ __dirname proc)) →
  preserves (shows q v) (deleteThisScript proc).
Proof.
  unfold deleteThisScript. intros [->|(Hf & Hs & Hd)]; [apply preserves_ret|].
  destruct (negb (truthy (argv2 proc))); [|apply preserves_ret].
  apply preserves_bind; [now apply unlinkSync_keeps | intros _].
  apply preserves_bind; [apply readdirSync_keeps | intros names].
  apply preserves_bind.
  { destruct names as [|name [|]]; try apply preserves_ret.
    destruct (String.eqb name ".DS_store"); [|apply preserves_ret].
    now apply unlinkSync_keeps. }
  intros _. apply preserves_bind; [apply readdirSync_keeps | intros names'].
  destruct (Nat.eqb (length names') 0); [|apply preserves_ret].
  now apply rmdirSync_keeps.
Qed.

Lemma addExtensionRecommendation_keeps (q : path) (v : view) :
  v ≠ Absent ∨ ¬ q `prefix_of` projectRoot proc ++ [".vscode"%string] →
  v = IsDir ∨ q ≠ (projectRoot proc ++ [".vscode"%string]) ++ ["extensions.json"%string] →
  preserves (shows q v) (addExtensionRecommendation proc).
Proof.
  intros Hm Hw. unfold addExtensionRecommendation.
  apply preserves_bind; [now apply mkdirSync_keeps | intros _].
  now apply writeFileSync_keeps.
Qed.

Lemma report_keeps (I : node → Prop) : preserves I (report proc).
Proof.
  unfold report. apply preserves_bind; [apply preserves_console | intros _].
  apply preserves_bind; [apply existsSync_keeps | intros found].
  destruct found; [apply preserves_console | apply preserves_ret].
Qed.

Lemma addTsconfig_keeps (q : path) (v : view) :
  v = IsDir ∨ q ≠ tsconfigPath proc → preserves (shows q v) (addTsconfig proc).
Proof. apply writeFileSync_keeps. Qed.

Lemma addSvelteConfig_keeps (q : path) (v : view) :
  v = IsDir ∨ q ≠ svelteConfigPath proc → preserves (shows q v) (addSvelteConfig proc).
Proof. apply writeFileSync_keeps. Qed.

Lemma addGlobalDts_keeps (q : path) (v : view) :
  v = IsDir ∨ q ≠ dtsPath proc → preserves (shows q v) (addGlobalDts proc).
Proof. apply writeFileSync_keeps. Qed.

(** **** What each step does *)

Lemma addDependencies_merges (w : world) (text : string)
    (props deps scr : list (string * json number)) :
  at_ (packageJSONPath proc) (disk w) = IsFile text →
  JSON_parse text = Some (JObject props) →
  lookupProp props "devDependencies" = Some (JObject deps) →
  lookupProp props "scripts" = Some (JObject scr) →
  let written := JSON_stringify (JObject (mergedManifest props deps scr)) in
  ∃ d', addDependencies proc w
        = (Returned tt,
           World d' (WriteFileSync (packageJSONPath proc) written
                       :: ReadFileSync (packageJSONPath proc) :: journal w)
                 (console w)) ∧
        at_ (packageJSONPath proc) d' = IsFile written.
Proof.
  intros Hfile Hparse Hdeps Hscr written.
  destruct (writeFileSync_over (packageJSONPath proc) written text
              (logged (ReadFileSync (packageJSONPath proc)) w))
    as (d' & Hw & Hd'); [apply snoc_nonempty | exact Hfile |].
  exists d'. split; [|exact Hd'].
  unfold addDependencies.
  rewrite (bind_run _ _ _ _ _ (readFileSync_file _ _ _ Hfile)).
  rewrite Hparse. unfold mbind, M_bind, mret, M_ret, lift. simpl.
  rewrite Hdeps. simpl.
  rewrite lookup_assign_ne by discriminate. rewrite Hscr. simpl.
  exact Hw.
Qed.

(** Without one of the two maps the merge throws, and nothing was written
    yet. *)
Lemma addDependencies_typeError (w : world) (text : string) (v : json number) :
  at_ (packageJSONPath proc) (disk w) = IsFile text →
  JSON_parse text = Some v →
  hasProp v "devDependencies" = false ∨ hasProp v "scripts" = false →
  addDependencies proc w
  = (Thrown TypeError, logged (ReadFileSync (packageJSONPath proc)) w).
Proof.
  intros Hfile Hparse Hmiss. unfold addDependencies.
  rewrite (bind_run _ _ _ _ _ (readFileSync_file _ _ _ Hfile)).
  rewrite Hparse. unfold mbind, M_bind, mret, M_ret, lift.
  destruct v as [| | | | |props]; try reflexivity. simpl in Hmiss |- *.
  destruct (lookupProp props "devDependencies") as [x|] eqn:Ed; [|reflexivity].
  destruct Hmiss as [Hmiss|Hmiss].
  { apply bool_decide_eq_false in Hmiss. destruct Hmiss. eauto. }
  apply bool_decide_eq_false in Hmiss.
  assert (Hs : lookupProp props "scripts" = None).
  { destruct (lookupProp props "scripts"); [destruct Hmiss; eauto | reflexivity]. }
  destruct x; simpl; try reflexivity;
    rewrite lookup_assign_ne by discriminate; now rewrite Hs.
Qed.

Lemma switchAppToTS_edits (w : world) (s : string) :
  at_ (appSveltePath proc) (disk w) = IsFile s →
  ∃ d', switchAppToTS proc w
        = (Returned tt,
           World d' (WriteFileSync (appSveltePath proc) (appFileEdits s)
                       :: ReadFileSync (appSveltePath proc) :: journal w)
                 (console w)) ∧
        at_ (appSveltePath proc) d' = IsFile (appFileEdits s).
Proof.
  intros Hfile.
  destruct (writeFileSync_over (appSveltePath proc) (appFileEdits s) s
              (logged (ReadFileSync (appSveltePath proc)) w))
    as (d' & Hw & Hd'); [apply snoc_nonempty | exact Hfile |].
  exists d'. split; [|exact Hd']. unfold switchAppToTS.
  now rewrite (bind_run _ _ _ _ _ (readFileSync_file _ _ _ Hfile)).
Qed.

Lemma editRollupConfig_edits (w : world) (s : string) :
  at_ (rollupConfigPath proc) (disk w) = IsFile s →
  ∃ d', editRollupConfig proc w
        = (Returned tt,
           World d' (WriteFileSync (rollupConfigPath proc) (rollupConfigEdits s)
                       :: ReadFileSync (rollupConfigPath proc) :: journal w)
                 (console w)) ∧
        at_ (rollupConfigPath proc) d' = IsFile (rollupConfigEdits s).
Proof.
  intros Hfile.
  destruct (writeFileSync_over (rollupConfigPath proc) (rollupConfigEdits s) s
              (logged (ReadFileSync (rollupConfigPath proc)) w))
    as (d' & Hw & Hd'); [apply snoc_nonempty | exact Hfile |].
  exists d'. split; [|exact Hd']. unfold editRollupConfig.
  now rewrite (bind_run _ _ _ _ _ (readFileSync_file _ _ _ Hfile)).
Qed.

(** Where the edits leave the text as it is, the step writes it back. *)
Lemma switchAppToTS_same (w : world) (s : string) :
  at_ (appSveltePath proc) (disk w) = IsFile s → appFileEdits s = s →
  switchAppToTS proc w
  = (Returned tt,
     logged (WriteFileSync (appSveltePath proc) s)
            (logged (ReadFileSync (appSveltePath proc)) w)).
Proof.
  intros Hfile Hs. unfold switchAppToTS.
  rewrite (bind_run _ _ _ _ _ (readFileSync_file _ _ _ Hfile)). rewrite Hs.
  now apply writeFileSync_same; [apply snoc_nonempty|].
Qed.

(** **** The steps of a run that returns *)

Lemma seq_returned (m k : M unit) (w w' : world) :
  (m ;; k) w = (Returned tt, w') →
  ∃ w1, m w = (Returned tt, w1) ∧ k w1 = (Returned tt, w').
Proof.
  intros H. apply bind_returned in H as ([] & w1 & H1 & H2). eauto.
Qed.

Lemma convert_returned (w w7 : world) :
  convert proc w = (Returned tt, w7) →
  ∃ w1 w2 w3 w4 w5 w6,
    addDependencies proc w = (Returned tt, w1) ∧
    renameMain proc w1 = (Returned tt, w2) ∧
    switchAppToTS proc w2 = (Returned tt, w3) ∧
    editRollupConfig proc w3 = (Returned tt, w4) ∧
    addTsconfig proc w4 = (Returned tt, w5) ∧
    addSvelteConfig proc w5 = (Returned tt, w6) ∧
    addGlobalDts proc w6 = (Returned tt, w7).
Proof.
  unfold convert. intros H.
  apply seq_returned in H as (w1 & H1 & H).
  apply seq_returned in H as (w2 & H2 & H).
  apply seq_returned in H as (w3 & H3 & H).
  apply seq_returned in H as (w4 & H4 & H).
  apply seq_returned in H as (w5 & H5 & H).
  apply seq_returned in H as (w6 & H6 & H).
  exists w1, w2, w3, w4, w5, w6. auto 10.
Qed.

Lemma setupTypeScript_returned (w w' : world) :
  setupTypeScript proc w = (Returned tt, w') →
  ∃ w7 w8 w9,
    convert proc w = (Returned tt, w7) ∧
    deleteThisScript proc w7 = (Returned tt, w8) ∧
    addExtensionRecommendation proc w8 = (Returned tt, w9) ∧
    report proc w9 = (Returned tt, w').
Proof.
  unfold setupTypeScript. intros H.
  apply seq_returned in H as (w7 & H7 & H).
  apply seq_returned in H as (w8 & H8 & H).
  apply seq_returned in H as (w9 & H9 & H).
  exists w7, w8, w9. auto.
Qed.

Lemma setupTypeScript_cases (w w' : world) (r : outcome unit) :
  setupTypeScript proc w = (r, w') →
  (∃ e, convert proc w = (Thrown e, w') ∧ r = Thrown e) ∨
  (∃ w7, convert proc w = (Returned tt, w7) ∧
         (deleteThisScript proc ;; addExtensionRecommendation proc ;; report proc) w7
         = (r, w')).
Proof.
  unfold setupTypeScript. intros H.
  apply bind_cases in H as [H|([] & w7 & H7 & H)]; eauto.
Qed.

(** What follows the conversion leaves a file of the project alone. *)
Lemma finish_keeps (q : path) (v : view) :
  truthy (argv2 proc) = true ∨
  (q ≠ __filename proc ∧ q ≠ __dirname proc ++ [".DS_store"%string] ∧
   (v ≠ IsDir ∨ q ≠ __dirname proc)) →
  v ≠ Absent ∨ ¬ q `prefix_of` projectRoot proc ++ [".vscode"%string] →
  v = IsDir ∨ q ≠ (projectRoot proc ++ [".vscode"%string]) ++ ["extensions.json"%string] →
  preserves (shows q v)
    (deleteThisScript proc ;; addExtensionRecommendation proc ;; report proc).
Proof.
  intros Hd Hm Hw.
  apply preserves_bind; [now apply deleteThisScript_keeps | intros _].
  apply preserves_bind; [now apply addExtensionRecommendation_keeps | intros _].
  apply report_keeps.
Qed.

Lemma convert_tail_keeps (q : path) (v : view) :
  ¬ beforeMainJSPath proc `prefix_of` q →
  v = IsDir ∨ (v ≠ Absent ∧ q ≠ afterMainTSPath proc) ∨
    ¬ afterMainTSPath proc `prefix_of` q →
  v = IsDir ∨ q ≠ appSveltePath proc →
  v = IsDir ∨ q ≠ rollupConfigPath proc →
  v = IsDir ∨ q ≠ tsconfigPath proc →
  v = IsDir ∨ q ≠ svelteConfigPath proc →
  v = IsDir ∨ q ≠ dtsPath proc →
  preserves (shows q v)
    (renameMain proc ;; switchAppToTS proc ;; editRollupConfig proc ;;
     addTsconfig proc ;; addSvelteConfig proc ;; addGlobalDts proc).
Proof.
  intros Ha Hb H1 H2 H3 H4 H5.
  apply preserves_bind; [now apply renameMain_keeps | intros _].
  apply preserves_bind; [now apply switchAppToTS_keeps | intros _].
  apply preserves_bind; [now apply editRollupConfig_keeps | intros _].
  apply preserves_bind; [now apply addTsconfig_keeps | intros _].
  apply preserves_bind; [now apply addSvelteConfig_keeps | intros _].
  now apply addGlobalDts_keeps.
Qed.

(** A path that no step of the script touches shows the same after the
    run, whether the run returns or throws. *)
Lemma setupTypeScript_keeps (q : path) (v : view) :
  v = IsDir ∨ q ≠ packageJSONPath proc →
  ¬ beforeMainJSPath proc `prefix_of` q →
  v = IsDir ∨ (v ≠ Absent ∧ q ≠ afterMainTSPath proc) ∨
    ¬ afterMainTSPath proc `prefix_of` q →
  v = IsDir ∨ q ≠ appSveltePath proc →
  v = IsDir ∨ q ≠ rollupConfigPath proc →
  v = IsDir ∨ q ≠ tsconfigPath proc →
  v = IsDir ∨ q ≠ svelteConfigPath proc →
  v = IsDir ∨ q ≠ dtsPath proc →
  truthy (argv2 proc) = true ∨
  (q ≠ __filename proc ∧ q ≠ __dirname proc ++ [".DS_store"%string] ∧
   (v ≠ IsDir ∨ q ≠ __dirname proc)) →
  v ≠ Absent ∨ ¬ q `prefix_of` projectRoot proc ++ [".vscode"%string] →
  v = IsDir ∨ q ≠ (projectRoot proc ++ [".vscode"%string]) ++ ["extensions.json"%string] →
  preserves (shows q v) (setupTypeScript proc).
Proof.
  intros H0 Ha Hb H1 H2 H3 H4 H5 Hd Hm Hw.
  unfold setupTypeScript, convert.
  apply preserves_bind; [|intros _; now apply finish_keeps].
  apply preserves_bind; [now apply addDependencies_keeps | intros _].
  now apply convert_tail_keeps.
Qed.

(** A run of [addDependencies] that returns has written the manifest. *)
Lemma addDependencies_returned (w w1 : world) :
  addDependencies proc w = (Returned tt, w1) →
  ∃ written, at_ (packageJSONPath proc) (disk w1) = IsFile written.
Proof.
  unfold addDependencies. intros H.
  repeat (apply bind_returned in H as (? & ? & _ & H)).
  eexists. exact (writeFileSync_returned _ _ _ _ H).
Qed.

(** **** The calls of a run with an argument *)

Lemma setupTypeScript_issues :
  truthy (argv2 proc) = true →
  issues (λ c, deletes c = false) (setupTypeScript proc).
Proof.
  intros Harg. unfold setupTypeScript, convert, addDependencies, renameMain,
    switchAppToTS, editRollupConfig, addTsconfig, addSvelteConfig, addGlobalDts,
    deleteThisScript, addExtensionRecommendation, report.
  rewrite Harg. simpl negb. cbv iota.
  repeat first
    [ apply issues_bind; [|intros ?]
    | apply issues_ret | apply issues_throw | apply issues_lift
    | apply issues_console
    | apply issues_query; reflexivity
    | apply issues_update; reflexivity
    | match goal with
      | |- issues _ (match ?x with _ => _ end) => destruct x
      end ].
Qed.

(** **** The deletion of the script *)

Lemma at_script (d : node) (es : gmap string node) (x : string) :
  lookup (__dirname proc) d = Some (Dir es) →
  at_ (__dirname proc ++ [x]) d = viewOf (es !! x).
Proof.
  intros H. unfold at_. rewrite lookup_app, H. simpl.
  now destruct (es !! x).
Qed.

(** The script alone in its directory: the script goes, then the
    directory. *)
Lemma deleteThisScript_alone (w : world) (es : gmap string node) (c : string) :
  truthy (argv2 proc) = false → __dirname proc ≠ [] →
  lookup (__dirname proc) (disk w) = Some (Dir es) →
  es !! scriptName = Some (File c) → delete scriptName es = ∅ →
  ∃ d', deleteThisScript proc w
        = (Returned tt,
           World d' (RmdirSync (__dirname proc) :: ReaddirSync (__dirname proc)
                       :: ReaddirSync (__dirname proc)
                       :: UnlinkSync (__filename proc) :: journal w)
                 (console w)) ∧
        at_ (__dirname proc) d' = Absent.
Proof.
  intros Harg Hd Hdir Hes Hrest. unfold deleteThisScript. rewrite Harg.
  change (negb false) with true. cbv iota.
  assert (Hfile : at_ (__filename proc) (disk w) = IsFile c).
  { unfold __filename. rewrite (at_script _ es) by exact Hdir. now rewrite Hes. }
  change (Path.join (__filename proc) []) with (__filename proc).
  change (Path.join (__dirname proc) []) with (__dirname proc).
  rewrite (bind_run _ _ _ _ _
             (unlinkSync_file (__filename proc) c w (snoc_nonempty _ _) Hfile)).
  set (d1 := place (__filename proc) None (disk w)).
  assert (Hdir1 : lookup (__dirname proc) d1 = Some (Dir ∅)).
  { unfold d1, __filename. rewrite (lookup_place_child _ _ _ _ es Hdir).
    now rewrite <- Hrest. }
  rewrite (bind_run _ _ _ _ _ (readdirSync_dir (__dirname proc) ∅ (World d1 _ _) Hdir1)).
  rewrite map_to_list_empty. simpl map. cbv iota.
  rewrite (bind_run (mret tt) _ _ _ tt eq_refl).
  unfold logged. cbn [disk journal console].
  rewrite (bind_run _ _ _ _ _ (readdirSync_dir (__dirname proc) ∅ (World d1 _ _) Hdir1)).
  rewrite map_to_list_empty. simpl length. simpl Nat.eqb. cbv iota.
  unfold logged. cbn [disk journal console].
  rewrite (rmdirSync_empty (__dirname proc) (World d1 _ _) Hd Hdir1). simpl.
  eexists. split; [reflexivity|].
  apply at_place; [exact Hd|].
  apply at_parent; [exact Hd|]. unfold at_. now rewrite Hdir1.
Qed.

(** The script and a file .DS_store: both go, then the directory. *)
Lemma deleteThisScript_store (w : world) (es : gmap string node) (c m : string) :
  truthy (argv2 proc) = false → __dirname proc ≠ [] →
  lookup (__dirname proc) (disk w) = Some (Dir es) →
  es !! scriptName = Some (File c) →
  delete scriptName es = {[ ".DS_store"%string := File m ]} →
  ∃ d', deleteThisScript proc w
        = (Returned tt,
           World d' (RmdirSync (__dirname proc) :: ReaddirSync (__dirname proc)
                       :: UnlinkSync (__dirname proc ++ [".DS_store"%string])
                       :: ReaddirSync (__dirname proc)
                       :: UnlinkSync (__filename proc) :: journal w)
                 (console w)) ∧
        at_ (__dirname proc) d' = Absent.
Proof.
  intros Harg Hd Hdir Hes Hrest. unfold deleteThisScript. rewrite Harg.
  change (negb false) with true. cbv iota.
  assert (Hfile : at_ (__filename proc) (disk w) = IsFile c).
  { unfold __filename. rewrite (at_script _ es) by exact Hdir. now rewrite Hes. }
  change (Path.join (__filename proc) []) with (__filename proc).
  change (Path.join (__dirname proc) []) with (__dirname proc).
  change (Path.join (__dirname proc) [".DS_store"%string])
    with (__dirname proc ++ [".DS_store"%string]).
  rewrite (bind_run _ _ _ _ _
             (unlinkSync_file (__filename proc) c w (snoc_nonempty _ _) Hfile)).
  set (d1 := place (__filename proc) None (disk w)).
  assert (Hdir1 : lookup (__dirname proc) d1
                  = Some (Dir {[ ".DS_store"%string := File m ]})).
  { unfold d1, __filename. rewrite (lookup_place_child _ _ _ _ es Hdir).
    now rewrite <- Hrest. }
  rewrite (bind_run _ _ _ _ _ (readdirSync_dir (__dirname proc) _ (World d1 _ _) Hdir1)).
  rewrite map_to_list_singleton. simpl map. cbv iota.
  change (String.eqb ".DS_store" ".DS_store") with true. cbv iota.
  unfold logged. cbn [disk journal console].
  assert (Hstore : at_ (__dirname proc ++ [".DS_store"%string]) d1 = IsFile m).
  { rewrite (at_script _ _ _ Hdir1). now rewrite lookup_singleton_eq. }
  rewrite (bind_run _ _ _ _ _
             (unlinkSync_file (__dirname proc ++ [".DS_store"%string]) m (World d1 _ _)
                (snoc_nonempty _ _) Hstore)).
  set (d2 := place (__dirname proc ++ [".DS_store"%string]) None d1).
  assert (Hdir2 : lookup (__dirname proc) d2 = Some (Dir ∅)).
  { unfold d2. rewrite (lookup_place_child _ _ _ _ _ Hdir1).
    change (partial_alter (λ _ : option node, None) ".DS_store"%string)
      with (delete (M := gmap string node) ".DS_store"%string).
    now rewrite delete_singleton_eq. }
  rewrite (bind_run _ _ _ _ _ (readdirSync_dir (__dirname proc) ∅ (World d2 _ _) Hdir2)).
  rewrite map_to_list_empty. simpl length. simpl Nat.eqb. cbv iota.
  unfold logged. cbn [disk journal console].
  rewrite (rmdirSync_empty (__dirname proc) (World d2 _ _) Hd Hdir2). simpl.
  eexists. split; [reflexivity|].
  apply at_place; [exact Hd|].
  apply at_parent; [exact Hd|]. unfold at_. now rewrite Hdir2.
Qed.

(** **** A deletion that fails *)

(** The unlink of the script fails: the step throws its error at once. *)
Lemma deleteThisScript_unlink_fails (w : world) (e : errno) :
  truthy (argv2 proc) = false →
  unlink (__filename proc) (disk w) = inl e →
  deleteThisScript proc w
  = (Thrown (SystemError e), logged (UnlinkSync (__filename proc)) w).
Proof.
  intros Harg H. unfold deleteThisScript. rewrite Harg.
  change (negb false) with true. cbv iota.
  change (Path.join (__filename proc) []) with (__filename proc).
  apply bind_thrown. now apply unlinkSync_fails.
Qed.

(** The unlink of .DS_store fails: the step throws its error; the script
    is gone by then. *)
Lemma deleteThisScript_store_fails (w : world) (d1 : node) (e : errno) :
  truthy (argv2 proc) = false →
  unlink (__filename proc) (disk w) = inr d1 →
  readdir (__dirname proc) d1 = inr [".DS_store"%string] →
  unlink (__dirname proc ++ [".DS_store"%string]) d1 = inl e →
  deleteThisScript proc w
  = (Thrown (SystemError e),
     World d1 (UnlinkSync (__dirname proc ++ [".DS_store"%string])
                 :: ReaddirSync (__dirname proc)
                 :: UnlinkSync (__filename proc) :: journal w)
           (console w)).
Proof.
  intros Harg H1 H2 H3. unfold deleteThisScript. rewrite Harg.
  change (negb false) with true. cbv iota.
  change (Path.join (__filename proc) []) with (__filename proc).
  change (Path.join (__dirname proc) []) with (__dirname proc).
  change (Path.join (__dirname proc) [".DS_store"%string])
    with (__dirname proc ++ [".DS_store"%string]).
  rewrite (bind_run _ _ _ _ _ (unlinkSync_done _ w d1 H1)).
  rewrite (bind_run _ _ _ _ _
             (readdirSync_done (__dirname proc) (World d1 _ _) _ H2)).
  cbv iota. change (String.eqb ".DS_store" ".DS_store") with true. cbv iota.
  apply bind_thrown. unfold logged. cbn [disk journal console].
  exact (unlinkSync_fails _ (World d1 _ _) e H3).
Qed.

(** The directory is empty and its removal fails: the step throws the
    error of [rmdirSync]. *)
Lemma deleteThisScript_rmdir_fails (w : world) (d1 : node) (e : errno) :
  truthy (argv2 proc) = false →
  unlink (__filename proc) (disk w) = inr d1 →
  readdir (__dirname proc) d1 = inr [] →
  rmdir (__dirname proc) d1 = inl e →
  deleteThisScript proc w
  = (Thrown (SystemError e),
     World d1 (RmdirSync (__dirname proc) :: ReaddirSync (__dirname proc)
                 :: ReaddirSync (__dirname proc)
                 :: UnlinkSync (__filename proc) :: journal w)
           (console w)).
Proof.
  intros Harg H1 H2 H3. unfold deleteThisScript. rewrite Harg.
  change (negb false) with true. cbv iota.
  change (Path.join (__filename proc) []) with (__filename proc).
  change (Path.join (__dirname proc) []) with (__dirname proc).
  rewrite (bind_run _ _ _ _ _ (unlinkSync_done _ w d1 H1)).
  rewrite (bind_run _ _ _ _ _
             (readdirSync_done (__dirname proc) (World d1 _ _) _ H2)).
  cbv iota. rewrite (bind_run (mret tt) _ _ _ tt eq_refl).
  unfold logged. cbn [disk journal console].
  rewrite (bind_run _ _ _ _ _
             (readdirSync_done (__dirname proc) (World d1 _ _) _ H2)).
  simpl length. simpl Nat.eqb. cbv iota.
  unfold logged. cbn [disk journal console].
  exact (rmdirSync_fails _ (World d1 _ _) e H3).
Qed.

Lemma deleteThisScript_rmdir_fails_after_store (w : world) (d1 d2 : node) (e : errno) :
  truthy (argv2 proc) = false →
  unlink (__filename proc) (disk w) = inr d1 →
  readdir (__dirname proc) d1 = inr [".DS_store"%string] →
  unlink (__dirname proc ++ [".DS_store"%string]) d1 = inr d2 →
  readdir (__dirname proc) d2 = inr [] →
  rmdir (__dirname proc) d2 = inl e →
  deleteThisScript proc w
  = (Thrown (SystemError e),
     World d2 (RmdirSync (__dirname proc) :: ReaddirSync (__dirname proc)
                 :: UnlinkSync (__dirname proc ++ [".DS_store"%string])
                 :: ReaddirSync (__dirname proc)
                 :: UnlinkSync (__filename proc) :: journal w)
           (console w)).
Proof.
  intros Harg H1 H2 H3 H4 H5. unfold deleteThisScript. rewrite Harg.
  change (negb false) with true. cbv iota.
  change (Path.join (__filename proc) []) with (__filename proc).
  change (Path.join (__dirname proc) []) with (__dirname proc).
  change (Path.join (__dirname proc) [".DS_store"%string])
    with (__dirname proc ++ [".DS_store"%string]).
  rewrite (bind_run _ _ _ _ _ (unlinkSync_done _ w d1 H1)).
  rewrite (bind_run _ _ _ _ _
             (readdirSync_done (__dirname proc) (World d1 _ _) _ H2)).
  cbv iota. change (String.eqb ".DS_store" ".DS_store") with true. cbv iota.
  unfold logged. cbn [disk journal console].
  rewrite (bind_run _ _ _ _ _ (unlinkSync_done _ (World d1 _ _) d2 H3)).
  cbn [disk journal console].
  rewrite (bind_run _ _ _ _ _
             (readdirSync_done (__dirname proc) (World d2 _ _) _ H4)).
  simpl length. simpl Nat.eqb. cbv iota.
  unfold logged. cbn [disk journal console].
  exact (rmdirSync_fails _ (World d2 _ _) e H5).
Qed.

(** The script and a directory .DS_store: the script goes, the unlink of
    the directory fails, and the step throws EISDIR. *)
Lemma deleteThisScript_store_dir (w : world) (es sub : gmap string node) (c : string) :
  truthy (argv2 proc) = false →
  lookup (__dirname proc) (disk w) = Some (Dir es) →
  es !! scriptName = Some (File c) →
  delete scriptName es = {[ ".DS_store"%string := Dir sub ]} →
  ∃ d1, deleteThisScript proc w
        = (Thrown (SystemError EISDIR),
           World d1 (UnlinkSync (__dirname proc ++ [".DS_store"%string])
                       :: ReaddirSync (__dirname proc)
                       :: UnlinkSync (__filename proc) :: journal w)
                 (console w)) ∧
        at_ (__filename proc) d1 = Absent ∧
        at_ (__dirname proc ++ [".DS_store"%string]) d1 = IsDir ∧
        at_ (__dirname proc) d1 = IsDir.
Proof.
  intros Harg Hdir Hes Hrest.
  assert (Hfile : at_ (__filename proc) (disk w) = IsFile c).
  { unfold __filename. rewrite (at_script _ es) by exact Hdir. now rewrite Hes. }
  set (d1 := place (__filename proc) None (disk w)).
  assert (H1 : unlink (__filename proc) (disk w) = inr d1).
  { apply (unlink_file _ c); [apply snoc_nonempty | exact Hfile]. }
  assert (Hdir1 : lookup (__dirname proc) d1
                  = Some (Dir {[ ".DS_store"%string := Dir sub ]})).
  { unfold d1, __filename. rewrite (lookup_place_child _ _ _ _ es Hdir).
    now rewrite <- Hrest. }
  assert (Hstore : lookup (__dirname proc ++ [".DS_store"%string]) d1 = Some (Dir sub)).
  { rewrite lookup_app, Hdir1. simpl. now rewrite lookup_singleton_eq. }
  exists d1. split; [|split; [|split]].
  - apply (deleteThisScript_store_fails w d1 EISDIR Harg H1).
    + unfold readdir. rewrite Hdir1. now rewrite map_to_list_singleton.
    + exact (unlink_dir _ _ _ Hstore).
  - unfold __filename. rewrite (at_script _ _ _ Hdir1).
    now rewrite lookup_singleton_ne.
  - unfold at_. now rewrite Hstore.
  - unfold at_. now rewrite Hdir1.
Qed.

End Steps.

End ScriptFacts.

(** *** The model at work *)

Module Examples.
Import JSString Disk Script.

Example replace_first_only : replace "a-b-c" "-" "+" = "a+b-c".
Proof. reflexivity. Qed.

Example replace_absent : replace "abc" "x" "y" = "abc".
Proof. reflexivity. Qed.

Example replace_empty_pattern : replace "abc" "" "-" = "-abc".
Proof. reflexivity. Qed.

Example replace_dollar_patterns : replace "a-b" "-" "<$&$&|$$|$`|$'>" = "a<--|$|a|b>b".
Proof. reflexivity. Qed.

Example occurrences_overlap : occurrences "aa" "aaaa" = 3.
Proof. reflexivity. Qed.

Example indexOf_first :
  indexOf "-" "a-b-c" = Some 1 ∧ indexOf "x" "abc" = None ∧ indexOf "" "abc" = Some 0.
Proof. repeat split. Qed.

(** U+00E9 and U+1F600 in UTF-8, the replacement character and a byte
    order mark are well-formed. *)
Example utf8_well_formed :
  UTF8.wellFormed (String "195" (String "169" "")) = true ∧
  UTF8.wellFormed (String "240" (String "159" (String "152" (String "128" "")))) = true ∧
  UTF8.wellFormed (String "239" (String "191" (String "189" ""))) = true ∧
  UTF8.wellFormed (String "239" (String "187" (String "191" "abc"))) = true.
Proof. repeat split. Qed.

(** Not well-formed: the Latin-1 byte E9, a lone continuation byte, a
    sequence cut short, an overlong form, a surrogate, a code point above
    U+10FFFF. *)
Example utf8_ill_formed :
  UTF8.wellFormed (String "233" "t") = false ∧
  UTF8.wellFormed (String "128" "") = false ∧
  UTF8.wellFormed (String "226" (String "130" "")) = false ∧
  UTF8.wellFormed (String "192" (String "128" "")) = false ∧
  UTF8.wellFormed (String "237" (String "160" (String "128" ""))) = false ∧
  UTF8.wellFormed (String "244" (String "144" (String "128" (String "128" "")))) = false.
Proof. repeat split. Qed.

Example resolve_relative :
  Path.resolve ["work"; "template"] "../clone/./x//" = ["work"; "clone"; "x"].
Proof. reflexivity. Qed.

Example resolve_absolute : Path.resolve ["work"] "/tmp/test-template" = ["tmp"; "test-template"].
Proof. reflexivity. Qed.

Example parent_of_scripts :
  projectRoot Sample.inPlace = ["work"; "template"] ∧
  projectRoot Sample.withEmptyArgument = ["work"; "template"] ∧
  __filename Sample.inPlace = ["work"; "template"; "scripts"; "setupTypeScript.js"].
Proof. repeat split. Qed.

Example manifest_parses : SampleRuntime.parse Sample.packageJSON = Some Sample.manifest.
Proof. vm_compute. reflexivity. Qed.

Example integers_beyond_exact_refused :
  SampleRuntime.parse "9007199254740992" = Some (JNumber 9007199254740992%Z) ∧
  SampleRuntime.parse "9007199254740993" = None ∧
  SampleRuntime.parse "-9007199254740993" = None ∧
  SampleRuntime.parse "1.5" = None.
Proof. repeat split; vm_compute; reflexivity. Qed.

Example index_key_refused :
  SampleRuntime.parse ("{ " +:+ quoted "b" +:+ ": 1, " +:+ quoted "1" +:+ ": 2 }") = None.
Proof. vm_compute. reflexivity. Qed.

Example duplicate_key_keeps_its_place :
  SampleRuntime.parse ("{ " +:+ quoted "a" +:+ ": 1, " +:+ quoted "b" +:+ ": [true, null], " +:+ quoted "a" +:+ ": -2 }")
  = Some (JObject [ ("a", JNumber (-2)%Z); ("b", JArray [JBool true; JNull]) ]).
Proof. vm_compute. reflexivity. Qed.

Example sample_run_returns :
  (setupTypeScript Sample.inPlace Sample.start).1 = Returned tt ∧
  console (setupTypeScript Sample.inPlace Sample.start).2 = ["Converted to TypeScript."].
Proof. split; vm_compute; reflexivity. Qed.

Example sample_run_calls :
  rev (journal (setupTypeScript Sample.withArgument Sample.start).2)
  = [ ReadFileSync ["work"; "template"; "package.json"];
      WriteFileSync ["work"; "template"; "package.json"]
        (SampleRuntime.stringify
           (JObject (mergedManifest Sample.manifestProps Sample.manifestDependencies
                       Sample.manifestScripts)));
      RenameSync ["work"; "template"; "src"; "main.js"] ["work"; "template"; "src"; "main.ts"];
      ReadFileSync ["work"; "template"; "src"; "App.svelte"];
      WriteFileSync ["work"; "template"; "src"; "App.svelte"] (appFileEdits Sample.appSvelte);
      ReadFileSync ["work"; "template"; "rollup.config.js"];
      WriteFileSync ["work"; "template"; "rollup.config.js"]
        (rollupConfigEdits Sample.rollupConfig);
      WriteFileSync ["work"; "template"; "tsconfig.json"] tsconfig;
      WriteFileSync ["work"; "template"; "svelte.config.js"] svelteConfig;
      WriteFileSync ["work"; "template"; "src"; "global.d.ts"] globalDts;
      MkdirSync ["work"; "template"; ".vscode"];
      WriteFileSync ["work"; "template"; ".vscode"; "extensions.json"] extensions;
      ExistsSync ["work"; "template"; "node_modules"] ].
Proof. vm_compute. reflexivity. Qed.

(** The comment of the repository's rollup.config.js names 'src/main.ts'
    already: after the edits the text holds it twice. *)
Example entry_point_named_twice :
  occurrences entryTS Sample.rollupConfig = 1 ∧
  occurrences entryTS (rollupConfigEdits Sample.rollupConfig) = 2.
Proof. split; vm_compute; reflexivity. Qed.

(** A second run on the converted project stops at the rename, before it
    reads rollup.config.js. *)
Example second_run_stops_at_rename :
  (setupTypeScript Sample.withArgument
     (setupTypeScript Sample.withArgument Sample.start).2).1
  = Thrown (SystemError ENOENT).
Proof. vm_compute. reflexivity. Qed.

Example missing_entry_point_throws :
  (setupTypeScript Sample.withArgument Sample.startWithoutMainJS).1
  = Thrown (SystemError ENOENT).
Proof. vm_compute. reflexivity. Qed.

End Examples.

(** ** Part III: the conversion *)

Import JSString Disk Script.
Import JSStringFacts EditFacts TextEdits DiskFacts JSONFacts Effects FsFacts ScriptFacts.

(** C1. The manifest is valid JSON with a devDependencies map and a scripts
    map: after the run, returned or thrown, the manifest file holds the
    text of an object with the same keys, in which every key other than
    the two maps has its old value, every key of the two maps other than
    the added ones has its old value, and the six added dependencies and
    the check script have the values of the script. *)
Theorem manifest_merged `{rt : Runtime} (proc : process) (w w' : world)
    (r : outcome unit) (text : string) (props deps scr : list (string * json number)) :
  at_ (packageJSONPath proc) (disk w) = IsFile text →
  JSON_parse text = Some (JObject props) →
  lookupProp props "devDependencies" = Some (JObject deps) →
  lookupProp props "scripts" = Some (JObject scr) →
  setupTypeScript proc w = (r, w') →
  ∃ props' deps' scr',
    at_ (packageJSONPath proc) (disk w') = IsFile (JSON_stringify (JObject props')) ∧
    map fst props' = map fst props ∧
    lookupProp props' "devDependencies" = Some (JObject deps') ∧
    lookupProp props' "scripts" = Some (JObject scr') ∧
    (∀ k, k ≠ "devDependencies" → k ≠ "scripts" →
          lookupProp props' k = lookupProp props k) ∧
    (∀ k, k ∉ map fst devDependencies → lookupProp deps' k = lookupProp deps k) ∧
    (∀ k v, (k, v) ∈ devDependencies → lookupProp deps' k = Some (JString v)) ∧
    (∀ k, k ≠ "check" → lookupProp scr' k = lookupProp scr k) ∧
    lookupProp scr' "check" = Some (JString "svelte-check").
Proof.
  intros Hfile Hparse Hdeps Hscr Hrun.
  exists (mergedManifest props deps scr),
         (mergeInto deps devDependencies), (mergeInto scr scripts).
  split.
  - destruct (addDependencies_merges proc w text props deps scr Hfile Hparse Hdeps Hscr)
      as (d1 & Hadd & Hd1).
    set (q := packageJSONPath proc) in *.
    set (v := IsFile (JSON_stringify (JObject (mergedManifest props deps scr)))) in *.
    assert (Hrest : preserves (shows q v)
              ((renameMain proc ;; switchAppToTS proc ;; editRollupConfig proc ;;
                addTsconfig proc ;; addSvelteConfig proc ;; addGlobalDts proc) ;;
               deleteThisScript proc ;; addExtensionRecommendation proc ;; report proc)).
    { apply preserves_bind; [|intros _].
      - apply convert_tail_keeps; subst q v; side.
      - apply finish_keeps; subst q v; side. }
    unfold setupTypeScript, convert in Hrun.
    apply bind_cases in Hrun as [(e & Hc & _)|([] & w7 & Hc & Hfin)].
    + rewrite (bind_run _ _ _ _ _ Hadd) in Hc.
      refine (Hrest (World d1 _ _) (Thrown e) w' _ Hd1).
      exact (bind_thrown _ _ _ _ _ Hc).
    + rewrite (bind_run _ _ _ _ _ Hadd) in Hc.
      refine (Hrest (World d1 _ _) r w' _ Hd1).
      rewrite (bind_run _ _ _ _ _ Hc). exact Hfin.
  - unfold mergedManifest. repeat split.
    + rewrite !keys_assign; [reflexivity | now rewrite Hdeps |].
      rewrite lookup_assign_ne by discriminate. now rewrite Hscr.
    + rewrite lookup_assign_ne by discriminate. apply lookup_assign_eq.
    + apply lookup_assign_eq.
    + intros k Hk1 Hk2. now rewrite !lookup_assign_ne.
    + intros k Hk. now apply lookup_merge_other.
    + intros k v Hk. apply lookup_merge_in; [|exact Hk].
      apply (bool_decide_unpack (NoDup (map fst devDependencies))).
      vm_compute. exact I.
    + intros k Hk. apply lookup_merge_other. simpl.
      intros Hin. apply list_elem_of_singleton in Hin. congruence.
    + now apply (lookup_merge_in scripts scr "check" "svelte-check");
        [repeat constructor; apply not_elem_of_nil | apply list_elem_of_singleton].
Qed.

Lemma manifest_merged_witness :
  ∃ props' deps' scr',
    at_ (packageJSONPath Sample.inPlace)
        (disk (setupTypeScript Sample.inPlace Sample.start).2)
    = IsFile (JSON_stringify (JObject props')) ∧
    lookupProp props' "devDependencies" = Some (JObject deps') ∧
    lookupProp props' "scripts" = Some (JObject scr') ∧
    lookupProp props' "name" = Some (JString "svelte-app") ∧
    lookupProp deps' "rollup" = Some (JString "^3.15.0") ∧
    lookupProp deps' "typescript" = Some (JString "^4.9.0") ∧
    lookupProp scr' "check" = Some (JString "svelte-check").
Proof.
  destruct (manifest_merged (rt := SampleRuntime.runtime)
              Sample.inPlace Sample.start
              (setupTypeScript Sample.inPlace Sample.start).2
              (setupTypeScript Sample.inPlace Sample.start).1
              Sample.packageJSON Sample.manifestProps
              Sample.manifestDependencies Sample.manifestScripts)
    as (props' & deps' & scr' & Hf & _ & Hd & Hs & Hp & Hdo & Hdi & _ & Hc);
    [vm_compute; reflexivity .. |].
  exists props', deps', scr'.
  split; [exact Hf|]. split; [exact Hd|]. split; [exact Hs|].
  split; [rewrite Hp by discriminate; reflexivity|].
  split; [|split; [|exact Hc]].
  - rewrite Hdo; [reflexivity|].
    apply (bool_decide_unpack ("rollup" ∉ map fst devDependencies)).
    vm_compute. exact I.
  - apply Hdi.
    apply (bool_decide_unpack (("typescript", "^4.9.0") ∈ devDependencies)).
    vm_compute. exact I.
Defined.

(** C10. The manifest parses, and the value lacks the devDependencies key or
    the scripts key: the run throws a TypeError in the merge, before any
    write. The disk is as it was, the only call made is the read of the
    manifest, and nothing is printed. *)
Theorem manifest_without_maps_throws `{rt : Runtime} (proc : process) (w : world)
    (text : string) (v : json number) :
  at_ (packageJSONPath proc) (disk w) = IsFile text →
  JSON_parse text = Some v →
  hasProp v "devDependencies" = false ∨ hasProp v "scripts" = false →
  ∃ w', setupTypeScript proc w = (Thrown TypeError, w') ∧
        disk w' = disk w ∧
        journal w' = ReadFileSync (packageJSONPath proc) :: journal w ∧
        console w' = console w.
Proof.
  intros Hfile Hparse Hmiss.
  exists (logged (ReadFileSync (packageJSONPath proc)) w).
  split; [|repeat split].
  unfold setupTypeScript, convert.
  apply bind_thrown, bind_thrown.
  now apply (addDependencies_typeError proc w text v).
Qed.

Lemma manifest_without_maps_throws_witness :
  ∃ w', setupTypeScript Sample.inPlace Sample.startBare = (Thrown TypeError, w') ∧
        disk w' = disk Sample.startBare ∧
        journal w' = ReadFileSync (packageJSONPath Sample.inPlace)
                       :: journal Sample.startBare ∧
        console w' = console Sample.startBare.
Proof.
  apply (manifest_without_maps_throws (rt := SampleRuntime.runtime)
           Sample.inPlace Sample.startBare
           (SampleRuntime.stringify Sample.bareManifest) Sample.bareManifest).
  - vm_compute. reflexivity.
  - vm_compute. reflexivity.
  - right. vm_compute. reflexivity.
Defined.

(** C2. rollup.config.js holds the four anchors: after a run that returns it
    holds the text with the four edits, in which the two import lines
    follow the css import, the entry point is named src/main.ts, the
    preprocess line precedes [compilerOptions:] and the typescript call
    follows [commonjs(),]; each of the four texts occurs once more than
    before the run. *)
Theorem rollup_config_converted `{rt : Runtime} (proc : process) (w w' : world)
    (s : string) :
  setupTypeScript proc w = (Returned tt, w') →
  at_ (rollupConfigPath proc) (disk w) = IsFile s →
  includes cssImport s = true → includes entryJS s = true →
  includes compilerOptions s = true → includes commonjsCall s = true →
  ∃ r, at_ (rollupConfigPath proc) (disk w') = IsFile r ∧
       r = rollupConfigEdits s ∧
       includes (cssImport +:+ tsImports) r = true ∧
       includes entryTS r = true ∧
       includes (preprocessLine +:+ compilerOptions) r = true ∧
       includes (commonjsCall +:+ typescriptCall) r = true ∧
       occurrences tsImports r = S (occurrences tsImports s) ∧
       occurrences entryTS r = S (occurrences entryTS s) ∧
       occurrences preprocessLine r = S (occurrences preprocessLine s) ∧
       occurrences typescriptCall r = S (occurrences typescriptCall s).
Proof.
  intros Hrun Hs H1 H2 H3 H4. exists (rollupConfigEdits s).
  split; [|split; [reflexivity|]].
  - apply setupTypeScript_cases in Hrun as [(e & _ & He)|(w7 & Hconv & Hfin)];
      [discriminate|].
    apply convert_returned in Hconv
      as (w1 & w2 & w3 & w4 & w5 & w6 & Ha & Hb & Hc & Hd & He & Hf & Hg).
    set (q := rollupConfigPath proc) in *.
    apply (addDependencies_keeps proc q (IsFile s) ltac:(subst q; side) _ _ _ Ha) in Hs.
    apply (renameMain_keeps proc q (IsFile s) ltac:(subst q; side) ltac:(subst q; side)
             _ _ _ Hb) in Hs.
    apply (switchAppToTS_keeps proc q (IsFile s) ltac:(subst q; side) _ _ _ Hc) in Hs.
    destruct (editRollupConfig_edits proc w3 s Hs) as (d4 & E & Hd4).
    fold q in E. rewrite E in Hd. injection Hd as <-.
    change (at_ q (disk (World d4
              (WriteFileSync q (rollupConfigEdits s) :: ReadFileSync q :: journal w3)
              (console w3))) = IsFile (rollupConfigEdits s)) in Hd4.
    set (v := IsFile (rollupConfigEdits s)) in *.
    apply (addTsconfig_keeps proc q v ltac:(subst q v; side) _ _ _ He) in Hd4.
    apply (addSvelteConfig_keeps proc q v ltac:(subst q v; side) _ _ _ Hf) in Hd4.
    apply (addGlobalDts_keeps proc q v ltac:(subst q v; side) _ _ _ Hg) in Hd4.
    exact (finish_keeps proc q v ltac:(subst q v; side) ltac:(subst q v; side)
             ltac:(subst q v; side) _ _ _ Hfin Hd4).
  - destruct (rollupConfigEdits_adjacent s H1 H2 H3 H4) as (A1 & A2 & A3 & A4).
    repeat split; auto using tsImports_added, entryTS_added,
      preprocessLine_added, typescriptCall_added.
Qed.

Lemma rollup_config_converted_witness :
  ∃ r, at_ (rollupConfigPath Sample.inPlace)
           (disk (setupTypeScript Sample.inPlace Sample.start).2) = IsFile r ∧
       r = rollupConfigEdits Sample.rollupConfig ∧
       includes (cssImport +:+ tsImports) r = true ∧
       includes entryTS r = true ∧
       includes (preprocessLine +:+ compilerOptions) r = true ∧
       includes (commonjsCall +:+ typescriptCall) r = true ∧
       occurrences tsImports r = S (occurrences tsImports Sample.rollupConfig) ∧
       occurrences entryTS r = S (occurrences entryTS Sample.rollupConfig) ∧
       occurrences preprocessLine r = S (occurrences preprocessLine Sample.rollupConfig) ∧
       occurrences typescriptCall r = S (occurrences typescriptCall Sample.rollupConfig).
Proof.
  apply (rollup_config_converted (rt := SampleRuntime.runtime)
           Sample.inPlace Sample.start
           (setupTypeScript Sample.inPlace Sample.start).2 Sample.rollupConfig);
    vm_compute; reflexivity.
Defined.

(** C3. A text that holds the three anchors of the insertions still holds
    them after the edits, so the edits apply again: the edits of the edited
    text differ from it, and the import lines, the preprocess line and the
    typescript call each occur twice more than in the first text. *)
Theorem rollup_edits_not_idempotent (s : string) :
  includes cssImport s = true → includes compilerOptions s = true →
  includes commonjsCall s = true →
  let r := rollupConfigEdits s in
  includes cssImport r = true ∧ includes compilerOptions r = true ∧
  includes commonjsCall r = true ∧
  rollupConfigEdits r ≠ r ∧
  occurrences tsImports (rollupConfigEdits r) = S (S (occurrences tsImports s)) ∧
  occurrences preprocessLine (rollupConfigEdits r)
  = S (S (occurrences preprocessLine s)) ∧
  occurrences typescriptCall (rollupConfigEdits r)
  = S (S (occurrences typescriptCall s)).
Proof.
  intros H1 H3 H4 r.
  destruct (rollupConfigEdits_anchors s) as (A1 & A3 & A4).
  fold r in A1, A3, A4. rewrite H1 in A1. rewrite H3 in A3. rewrite H4 in A4.
  pose proof (tsImports_added r A1) as T2.
  pose proof (tsImports_added s H1) as T1. fold r in T1.
  repeat split; try assumption.
  - intros E. rewrite E in T2. lia.
  - congruence.
  - rewrite (preprocessLine_added r A3). f_equal. now apply preprocessLine_added.
  - rewrite (typescriptCall_added r A4). f_equal. now apply typescriptCall_added.
Qed.

Lemma rollup_edits_not_idempotent_witness :
  rollupConfigEdits (rollupConfigEdits Sample.rollupConfig)
  ≠ rollupConfigEdits Sample.rollupConfig ∧
  occurrences tsImports (rollupConfigEdits (rollupConfigEdits Sample.rollupConfig)) = 2.
Proof.
  destruct (rollup_edits_not_idempotent Sample.rollupConfig)
    as (_ & _ & _ & Hne & Hts & _); [vm_compute; reflexivity .. |].
  split; [exact Hne|]. rewrite Hts. vm_compute. reflexivity.
Defined.

(** C4, as the code has it. App.svelte holds a text, well-formed UTF-8,
    with [<script>] and [export let name;] in it: after a run that returns,
    the file holds the text that the two replaces of the script give, which
    is the old text with its first [<script>] replaced by
    [<script lang="ts">] and its first [export let name;] replaced by
    [export let name: string;], nothing else being changed; each of the two
    new texts occurs once more than before the run, hence once when the file
    did not hold it already. *)
Theorem app_component_converted `{rt : Runtime} (proc : process) (w w' : world)
    (s : string) :
  setupTypeScript proc w = (Returned tt, w') →
  at_ (appSveltePath proc) (disk w) = IsFile s →
  UTF8.wellFormed s = true →
  includes scriptTag s = true → includes nameProp s = true →
  ∃ r, at_ (appSveltePath proc) (disk w') = IsFile r ∧
       r = appFileEdits s ∧
       ((∃ a b c, s = a +:+ scriptTag +:+ b +:+ nameProp +:+ c ∧
                  indexOf scriptTag s = Some (String.length a) ∧
                  indexOf nameProp s = Some (String.length (a +:+ scriptTag +:+ b)) ∧
                  r = a +:+ scriptTagTS +:+ b +:+ namePropTS +:+ c) ∨
        (∃ a b c, s = a +:+ nameProp +:+ b +:+ scriptTag +:+ c ∧
                  indexOf nameProp s = Some (String.length a) ∧
                  indexOf scriptTag s = Some (String.length (a +:+ nameProp +:+ b)) ∧
                  r = a +:+ namePropTS +:+ b +:+ scriptTagTS +:+ c)) ∧
       occurrences scriptTagTS r = S (occurrences scriptTagTS s) ∧
       occurrences namePropTS r = S (occurrences namePropTS s).
Proof.
  intros Hrun Hs _ H1 H2. exists (appFileEdits s). split.
  - apply setupTypeScript_cases in Hrun as [(e & _ & He)|(w7 & Hconv & Hfin)];
      [discriminate|].
    apply convert_returned in Hconv
      as (w1 & w2 & w3 & w4 & w5 & w6 & Ha & Hb & Hc & Hd & He & Hf & Hg).
    set (q := appSveltePath proc) in *.
    apply (addDependencies_keeps proc q (IsFile s) ltac:(subst q; side) _ _ _ Ha) in Hs.
    apply (renameMain_keeps proc q (IsFile s) ltac:(subst q; side) ltac:(subst q; side)
             _ _ _ Hb) in Hs.
    destruct (switchAppToTS_edits proc w2 s Hs) as (d3 & E & Hd3).
    fold q in E. rewrite E in Hc. injection Hc as <-.
    set (v := IsFile (appFileEdits s)) in *.
    change (at_ q (disk (World d3
              (WriteFileSync q (appFileEdits s) :: ReadFileSync q :: journal w2)
              (console w2))) = v) in Hd3.
    apply (editRollupConfig_keeps proc q v ltac:(subst q v; side) _ _ _ Hd) in Hd3.
    apply (addTsconfig_keeps proc q v ltac:(subst q v; side) _ _ _ He) in Hd3.
    apply (addSvelteConfig_keeps proc q v ltac:(subst q v; side) _ _ _ Hf) in Hd3.
    apply (addGlobalDts_keeps proc q v ltac:(subst q v; side) _ _ _ Hg) in Hd3.
    exact (finish_keeps proc q v ltac:(subst q v; side) ltac:(subst q v; side)
             ltac:(subst q v; side) _ _ _ Hfin Hd3).
  - split; [reflexivity|].
    split; [now apply appFileEdits_first | now apply appFileEdits_counts].
Qed.

Lemma app_component_converted_witness :
  ∃ r, at_ (appSveltePath Sample.inPlace)
           (disk (setupTypeScript Sample.inPlace Sample.start).2) = IsFile r ∧
       r = appFileEdits Sample.appSvelte ∧
       occurrences scriptTagTS r = 1 ∧ occurrences namePropTS r = 1.
Proof.
  destruct (app_component_converted (rt := SampleRuntime.runtime)
              Sample.inPlace Sample.start
              (setupTypeScript Sample.inPlace Sample.start).2 Sample.appSvelte)
    as (r & Hr & Hedit & _ & H1 & H2); [vm_compute; reflexivity .. |].
  exists r. split; [exact Hr|]. split; [exact Hedit|]. split; [exact H1 | exact H2].
Defined.

(** C4, as stated, fails for a component whose first line is a comment
    that names both tags: the run returns, and [<script lang="ts">] occurs
    twice in the file. *)
Lemma app_component_tag_twice :
  includes scriptTag Sample.appWithComment = true ∧
  includes nameProp Sample.appWithComment = true ∧
  at_ (appSveltePath Sample.withArgument) (disk Sample.startWithComment)
  = IsFile Sample.appWithComment ∧
  (setupTypeScript Sample.withArgument Sample.startWithComment).1 = Returned tt ∧
  at_ (appSveltePath Sample.withArgument)
      (disk (setupTypeScript Sample.withArgument Sample.startWithComment).2)
  = IsFile (appFileEdits Sample.appWithComment) ∧
  occurrences scriptTagTS (appFileEdits Sample.appWithComment) = 2.
Proof. repeat split; vm_compute; reflexivity. Qed.

(** C5. App.svelte holds a text, well-formed UTF-8, with neither
    [<script>] nor [export let name;] in it: the step that edits it returns
    and leaves the disk as it is, and after the run, returned or thrown, the
    file holds its old text. *)
Theorem app_component_untouched `{rt : Runtime} (proc : process) (w : world)
    (s : string) :
  at_ (appSveltePath proc) (disk w) = IsFile s →
  UTF8.wellFormed s = true →
  includes scriptTag s = false → includes nameProp s = false →
  (∃ w1, switchAppToTS proc w = (Returned tt, w1) ∧ disk w1 = disk w) ∧
  ∀ r w', setupTypeScript proc w = (r, w') →
          at_ (appSveltePath proc) (disk w') = IsFile s.
Proof.
  intros Hs _ H1 H2. pose proof (appFileEdits_absent s H1 H2) as Hsame. split.
  - eexists. split; [exact (switchAppToTS_same proc w s Hs Hsame) | reflexivity].
  - intros r w' Hrun. revert Hs.
    set (q := appSveltePath proc). set (v := IsFile s).
    refine ((_ : preserves (shows q v) (setupTypeScript proc)) w r w' Hrun).
    unfold setupTypeScript, convert.
    apply preserves_bind; [|intros _; apply finish_keeps; subst q v; side].
    apply preserves_bind; [apply addDependencies_keeps; subst q v; side | intros _].
    apply preserves_bind; [apply renameMain_keeps; subst q v; side | intros _].
    apply preserves_bind.
    { intros w2 r2 w3 Hstep Hw2.
      rewrite (switchAppToTS_same proc w2 s Hw2 Hsame) in Hstep.
      now injection Hstep as <- <-. }
    intros _.
    apply preserves_bind; [apply editRollupConfig_keeps; subst q v; side | intros _].
    apply preserves_bind; [apply addTsconfig_keeps; subst q v; side | intros _].
    apply preserves_bind; [apply addSvelteConfig_keeps; subst q v; side | intros _].
    apply addGlobalDts_keeps; subst q v; side.
Qed.

Lemma app_component_untouched_witness :
  UTF8.wellFormed Sample.appPlain = true ∧
  (∃ w1, switchAppToTS Sample.withArgument Sample.startPlain = (Returned tt, w1) ∧
         disk w1 = disk Sample.startPlain) ∧
  ∀ r w', setupTypeScript Sample.withArgument Sample.startPlain = (r, w') →
          at_ (appSveltePath Sample.withArgument) (disk w') = IsFile Sample.appPlain.
Proof.
  split; [vm_compute; reflexivity|].
  apply (app_component_untouched (rt := SampleRuntime.runtime)
           Sample.withArgument Sample.startPlain Sample.appPlain);
    vm_compute; reflexivity.
Defined.

(** C6, as the code has it. After a run that returns, src/main.js is gone
    and src/main.ts holds the text that src/main.js held. Without
    src/main.js the rename throws and so does the run. A file that is
    already at src/main.ts is no error: the rename replaces it. The rename
    throws when src/main.ts is a directory. *)
Theorem entry_point_renamed `{rt : Runtime} (proc : process) (w : world) :
  (∀ c w', setupTypeScript proc w = (Returned tt, w') →
           at_ (beforeMainJSPath proc) (disk w) = IsFile c →
           at_ (beforeMainJSPath proc) (disk w') = Absent ∧
           at_ (afterMainTSPath proc) (disk w') = IsFile c) ∧
  (at_ (beforeMainJSPath proc) (disk w) = Absent →
   (∃ e w', renameMain proc w = (Thrown e, w')) ∧
   (∃ e w', setupTypeScript proc w = (Thrown e, w'))) ∧
  (∀ c c', at_ (beforeMainJSPath proc) (disk w) = IsFile c →
           at_ (afterMainTSPath proc) (disk w) = IsFile c' →
           ∃ w', renameMain proc w = (Returned tt, w') ∧
                 at_ (beforeMainJSPath proc) (disk w') = Absent ∧
                 at_ (afterMainTSPath proc) (disk w') = IsFile c) ∧
  (∀ c, at_ (beforeMainJSPath proc) (disk w) = IsFile c →
        at_ (afterMainTSPath proc) (disk w) = IsDir →
        ∃ e w', renameMain proc w = (Thrown e, w')).
Proof.
  assert (Hab : beforeMainJSPath proc ≠ afterMainTSPath proc) by side.
  split; [|split; [|split]].
  - intros c w' Hrun Hs.
    apply setupTypeScript_cases in Hrun as [(e & _ & He)|(w7 & Hconv & Hfin)];
      [discriminate|].
    apply convert_returned in Hconv
      as (w1 & w2 & w3 & w4 & w5 & w6 & Ha & Hb & Hc & Hd & He & Hf & Hg).
    apply (addDependencies_keeps proc (beforeMainJSPath proc) (IsFile c) ltac:(side)
             _ _ _ Ha) in Hs.
    apply renameSync_returned in Hb as [Hgone Hnew]; [|exact Hab].
    rewrite Hs in Hnew. clear Hs Ha. split.
    + set (q := beforeMainJSPath proc) in *. set (v := Absent).
      apply (switchAppToTS_keeps proc q v ltac:(subst q v; side) _ _ _ Hc) in Hgone.
      apply (editRollupConfig_keeps proc q v ltac:(subst q v; side) _ _ _ Hd) in Hgone.
      apply (addTsconfig_keeps proc q v ltac:(subst q v; side) _ _ _ He) in Hgone.
      apply (addSvelteConfig_keeps proc q v ltac:(subst q v; side) _ _ _ Hf) in Hgone.
      apply (addGlobalDts_keeps proc q v ltac:(subst q v; side) _ _ _ Hg) in Hgone.
      exact (finish_keeps proc q v ltac:(subst q v; side) ltac:(subst q v; side)
               ltac:(subst q v; side) _ _ _ Hfin Hgone).
    + set (q := afterMainTSPath proc) in *. set (v := IsFile c) in *.
      apply (switchAppToTS_keeps proc q v ltac:(subst q v; side) _ _ _ Hc) in Hnew.
      apply (editRollupConfig_keeps proc q v ltac:(subst q v; side) _ _ _ Hd) in Hnew.
      apply (addTsconfig_keeps proc q v ltac:(subst q v; side) _ _ _ He) in Hnew.
      apply (addSvelteConfig_keeps proc q v ltac:(subst q v; side) _ _ _ Hf) in Hnew.
      apply (addGlobalDts_keeps proc q v ltac:(subst q v; side) _ _ _ Hg) in Hnew.
      exact (finish_keeps proc q v ltac:(subst q v; side) ltac:(subst q v; side)
               ltac:(subst q v; side) _ _ _ Hfin Hnew).
  - intros Hs.
    assert (Hstep : ∀ w0, at_ (beforeMainJSPath proc) (disk w0) = Absent →
                          ∃ e w', renameMain proc w0 = (Thrown e, w')).
    { intros w0 H0.
      destruct (rename_missing _ (afterMainTSPath proc) _ H0) as [e E].
      exists (SystemError e). eexists.
      unfold renameMain, fs.renameSync, update. now rewrite E. }
    split; [now apply Hstep|].
    unfold setupTypeScript, convert.
    destruct (addDependencies proc w) as [[[]|e] w1] eqn:Ha.
    + apply (addDependencies_keeps proc (beforeMainJSPath proc) Absent ltac:(side)
               _ _ _ Ha) in Hs.
      destruct (Hstep w1 Hs) as (e & w2 & E). exists e, w2.
      apply bind_thrown. rewrite (bind_run _ _ _ _ _ Ha).
      now apply bind_thrown.
    + exists e, w1. now apply bind_thrown, bind_thrown.
  - intros c c' Hs Hd.
    destruct (rename_file (beforeMainJSPath proc) (afterMainTSPath proc) c (disk w))
      as [d' E]; try assumption.
    + apply snoc_nonempty.
    + apply snoc_nonempty.
    + side.
    + apply at_parent; [apply snoc_nonempty | congruence].
    + congruence.
    + eexists. split; [unfold renameMain, fs.renameSync, update; now rewrite E|].
      simpl. destruct (rename_moves _ _ _ _ E Hab) as [H1 H2].
      split; [exact H1 | congruence].
  - intros c Hs Hd.
    destruct (rename_onto_dir _ _ c _ Hab Hs Hd) as [e E].
    exists (SystemError e). eexists.
    unfold renameMain, fs.renameSync, update. now rewrite E.
Qed.

Lemma entry_point_renamed_witness :
  at_ (beforeMainJSPath Sample.inPlace)
      (disk (setupTypeScript Sample.inPlace Sample.start).2) = Absent ∧
  at_ (afterMainTSPath Sample.inPlace)
      (disk (setupTypeScript Sample.inPlace Sample.start).2) = IsFile Sample.mainJS.
Proof.
  apply (entry_point_renamed (rt := SampleRuntime.runtime) Sample.inPlace Sample.start);
    vm_compute; reflexivity.
Defined.

(** C6, as stated, fails where src/main.ts exists already: the rename
    returns, the run returns, and src/main.ts holds the text of
    src/main.js. *)
Lemma entry_point_destination_replaced :
  at_ (beforeMainJSPath Sample.withArgument) (disk Sample.startWithMainTS)
  = IsFile Sample.mainJS ∧
  at_ (afterMainTSPath Sample.withArgument) (disk Sample.startWithMainTS)
  = IsFile "export {};" ∧
  (renameMain Sample.withArgument Sample.startWithMainTS).1 = Returned tt ∧
  (setupTypeScript Sample.withArgument Sample.startWithMainTS).1 = Returned tt ∧
  at_ (afterMainTSPath Sample.withArgument)
      (disk (setupTypeScript Sample.withArgument Sample.startWithMainTS).2)
  = IsFile Sample.mainJS.
Proof. repeat split; vm_compute; reflexivity. Qed.

(** C7, as the code has it. The run was given a target directory that is
    not the empty text: wherever the script lies, the run, returned or
    thrown, makes no unlink and no rmdir call; and unless the script lies
    inside a directory src/main.js of the target, which the rename moves,
    the script file is the file it was, its directory is still a directory
    and a file .DS_store in it is the file it was. *)
Theorem explicit_target_deletes_nothing `{rt : Runtime} (proc : process)
    (w w' : world) (r : outcome unit) (d : string) :
  argv2 proc = Some d → d ≠ "" →
  setupTypeScript proc w = (r, w') →
  (∃ new, journal w' = (new ++ journal w)%list ∧
          Forall (λ c, deletes c = false) new) ∧
  (¬ beforeMainJSPath proc `prefix_of` __dirname proc →
   (∀ c, at_ (__filename proc) (disk w) = IsFile c →
         at_ (__filename proc) (disk w') = IsFile c) ∧
   (at_ (__dirname proc) (disk w) = IsDir → at_ (__dirname proc) (disk w') = IsDir) ∧
   (∀ c, at_ (__dirname proc ++ [".DS_store"])%list (disk w) = IsFile c →
         at_ (__dirname proc ++ [".DS_store"])%list (disk w') = IsFile c)).
Proof.
  intros Hd Hne Hrun.
  assert (Harg : truthy (argv2 proc) = true).
  { rewrite Hd. destruct d; [now destruct Hne | reflexivity]. }
  split; [exact (setupTypeScript_issues proc Harg w r w' Hrun)|].
  intros Hout.
  assert (Hsnoc : ∀ x : string, x ≠ "main.js" →
            ¬ beforeMainJSPath proc `prefix_of` (__dirname proc ++ [x])%list).
  { intros x Hx Hp. apply prefix_snoc_cases in Hp as [Hp|Hp]; [now apply Hout|].
    revert Hp. apply snoc_ne. congruence. }
  pose proof (Hsnoc scriptName ltac:(discriminate)) as Hfile.
  pose proof (Hsnoc ".DS_store" ltac:(discriminate)) as Hstore.
  split; [|split].
  - intros c. apply (setupTypeScript_keeps proc (__filename proc) (IsFile c)
                       ltac:(side) Hfile ltac:(side) ltac:(side) ltac:(side) ltac:(side)
                       ltac:(side) ltac:(side) (or_introl Harg) ltac:(side) ltac:(side)
                       w r w' Hrun).
  - apply (setupTypeScript_keeps proc (__dirname proc) IsDir
             ltac:(side) Hout ltac:(side) ltac:(side) ltac:(side) ltac:(side)
             ltac:(side) ltac:(side) (or_introl Harg) ltac:(side) ltac:(side)
             w r w' Hrun).
  - intros c. apply (setupTypeScript_keeps proc (__dirname proc ++ [".DS_store"])%list
                       (IsFile c)
                       ltac:(side) Hstore ltac:(side) ltac:(side) ltac:(side) ltac:(side)
                       ltac:(side) ltac:(side) (or_introl Harg) ltac:(side) ltac:(side)
                       w r w' Hrun).
Qed.

Lemma explicit_target_deletes_nothing_witness :
  (∃ new, journal (setupTypeScript Sample.withArgument Sample.startWithStore).2
          = (new ++ journal Sample.startWithStore)%list ∧
          Forall (λ c, deletes c = false) new) ∧
  (¬ beforeMainJSPath Sample.withArgument `prefix_of` __dirname Sample.withArgument →
   (∀ c, at_ (__filename Sample.withArgument) (disk Sample.startWithStore) = IsFile c →
         at_ (__filename Sample.withArgument)
             (disk (setupTypeScript Sample.withArgument Sample.startWithStore).2)
         = IsFile c) ∧
   (at_ (__dirname Sample.withArgument) (disk Sample.startWithStore) = IsDir →
    at_ (__dirname Sample.withArgument)
        (disk (setupTypeScript Sample.withArgument Sample.startWithStore).2) = IsDir) ∧
   (∀ c, at_ (__dirname Sample.withArgument ++ [".DS_store"])%list
             (disk Sample.startWithStore) = IsFile c →
         at_ (__dirname Sample.withArgument ++ [".DS_store"])%list
             (disk (setupTypeScript Sample.withArgument Sample.startWithStore).2)
         = IsFile c)).
Proof.
  apply (explicit_target_deletes_nothing (rt := SampleRuntime.runtime)
           Sample.withArgument Sample.startWithStore
           (setupTypeScript Sample.withArgument Sample.startWithStore).2
           (setupTypeScript Sample.withArgument Sample.startWithStore).1 ".").
  - reflexivity.
  - discriminate.
  - vm_compute. reflexivity.
Defined.

(** C7, as stated, fails for the empty text as argument: it counts as no
    argument, the target is the parent of the script's directory, and the
    script and its directory are removed. *)
Lemma empty_argument_deletes_script :
  argv2 Sample.withEmptyArgument = Some "" ∧
  at_ (__filename Sample.withEmptyArgument) (disk Sample.start) = IsFile Sample.scriptText ∧
  (setupTypeScript Sample.withEmptyArgument Sample.start).1 = Returned tt ∧
  at_ (__filename Sample.withEmptyArgument)
      (disk (setupTypeScript Sample.withEmptyArgument Sample.start).2) = Absent ∧
  at_ (__dirname Sample.withEmptyArgument)
      (disk (setupTypeScript Sample.withEmptyArgument Sample.start).2) = Absent ∧
  existsb deletes (journal (setupTypeScript Sample.withEmptyArgument Sample.start).2)
  = true.
Proof. repeat split; vm_compute; reflexivity. Qed.

(** C8. The run was given no target directory (or the empty text). When
    the steps before the deletion returned and the script's directory holds
    the script alone, or the script and a file .DS_store, the deletion step
    returns: the script is gone, so is .DS_store, so is the directory, and
    the run goes on with the editor recommendation. A deletion that fails
    is fatal. When .DS_store is a directory, the script is removed, the
    unlink of .DS_store fails, and the step and the run throw EISDIR with
    the directory still there. Whatever the step throws, the run throws
    the same and stops. And each of the three deletions throws the error
    it fails with, at the call, with the deletions before it done: the
    unlink of the script, the unlink of .DS_store, the removal of the
    emptied directory. *)
Theorem script_deletes_itself `{rt : Runtime} (proc : process) (w w1 : world) :
  truthy (argv2 proc) = false →
  (convert proc w = (Returned tt, w1) →
   (∀ es c,
      lookup (__dirname proc) (disk w1) = Some (Dir es) →
      es !! scriptName = Some (File c) →
      delete scriptName es = ∅ ∨
        (∃ m, delete scriptName es = {[ ".DS_store" := File m ]}) →
      ∃ w2, deleteThisScript proc w1 = (Returned tt, w2) ∧
            at_ (__filename proc) (disk w2) = Absent ∧
            at_ (__dirname proc ++ [".DS_store"])%list (disk w2) = Absent ∧
            at_ (__dirname proc) (disk w2) = Absent ∧
            existsb deletes (journal w2) = true ∧
            setupTypeScript proc w
            = (addExtensionRecommendation proc ;; report proc) w2) ∧
   (∀ es sub c,
      lookup (__dirname proc) (disk w1) = Some (Dir es) →
      es !! scriptName = Some (File c) →
      delete scriptName es = {[ ".DS_store" := Dir sub ]} →
      ∃ w2, deleteThisScript proc w1 = (Thrown (SystemError EISDIR), w2) ∧
            setupTypeScript proc w = (Thrown (SystemError EISDIR), w2) ∧
            at_ (__filename proc) (disk w2) = Absent ∧
            at_ (__dirname proc ++ [".DS_store"])%list (disk w2) = IsDir ∧
            journal w2 = (UnlinkSync (__dirname proc ++ [".DS_store"])
                            :: ReaddirSync (__dirname proc)
                            :: UnlinkSync (__filename proc) :: journal w1)%list) ∧
   (∀ e w2, deleteThisScript proc w1 = (Thrown e, w2) →
            setupTypeScript proc w = (Thrown e, w2))) ∧
  (∀ e,
     unlink (__filename proc) (disk w1) = inl e →
     deleteThisScript proc w1
     = (Thrown (SystemError e), logged (UnlinkSync (__filename proc)) w1)) ∧
  (∀ d1 e,
     unlink (__filename proc) (disk w1) = inr d1 →
     readdir (__dirname proc) d1 = inr [".DS_store"] →
     unlink (__dirname proc ++ [".DS_store"])%list d1 = inl e →
     deleteThisScript proc w1
     = (Thrown (SystemError e),
        World d1 (UnlinkSync (__dirname proc ++ [".DS_store"])
                    :: ReaddirSync (__dirname proc)
                    :: UnlinkSync (__filename proc) :: journal w1)%list
              (console w1))) ∧
  (∀ d1 e,
     unlink (__filename proc) (disk w1) = inr d1 →
     readdir (__dirname proc) d1 = inr [] →
     rmdir (__dirname proc) d1 = inl e →
     deleteThisScript proc w1
     = (Thrown (SystemError e),
        World d1 (RmdirSync (__dirname proc) :: ReaddirSync (__dirname proc)
                    :: ReaddirSync (__dirname proc)
                    :: UnlinkSync (__filename proc) :: journal w1)%list
              (console w1))) ∧
  (∀ d1 d2 e,
     unlink (__filename proc) (disk w1) = inr d1 →
     readdir (__dirname proc) d1 = inr [".DS_store"] →
     unlink (__dirname proc ++ [".DS_store"])%list d1 = inr d2 →
     readdir (__dirname proc) d2 = inr [] →
     rmdir (__dirname proc) d2 = inl e →
     deleteThisScript proc w1
     = (Thrown (SystemError e),
        World d2 (RmdirSync (__dirname proc) :: ReaddirSync (__dirname proc)
                    :: UnlinkSync (__dirname proc ++ [".DS_store"])
                    :: ReaddirSync (__dirname proc)
                    :: UnlinkSync (__filename proc) :: journal w1)%list
              (console w1))).
Proof.
  intros Harg.
  split; [|split; [|split; [|split]]].
  - intros Hconv.
    assert (Hrun : ∀ e w2, deleteThisScript proc w1 = (Thrown e, w2) →
                           setupTypeScript proc w = (Thrown e, w2)).
    { intros e w2 E. unfold setupTypeScript. rewrite (bind_run _ _ _ _ _ Hconv).
      now apply bind_thrown. }
    split; [|split; [|exact Hrun]].
    + intros es c Hdir Hes Hrest.
      assert (Hd : __dirname proc ≠ []).
      { intros Hnil.
        assert (Hpkg : packageJSONPath proc = ["package.json"]).
        { unfold packageJSONPath, projectRoot. now rewrite Harg, Hnil. }
        unfold convert in Hconv. apply seq_returned in Hconv as (w0 & Ha & Htail).
        destruct (addDependencies_returned proc w w0 Ha) as [x Hx].
        apply (convert_tail_keeps proc (packageJSONPath proc) (IsFile x)
                 ltac:(side) ltac:(side) ltac:(side) ltac:(side) ltac:(side)
                 ltac:(side) ltac:(side) _ _ _ Htail) in Hx.
        rewrite Hpkg in Hx. rewrite Hnil in Hdir. simpl in Hdir.
        injection Hdir as Hdir. unfold at_ in Hx. rewrite Hdir in Hx. simpl in Hx.
        assert (Hnone : es !! "package.json" = None).
        { rewrite <- (lookup_delete_ne es scriptName "package.json") by discriminate.
          destruct Hrest as [->|[m ->]]; [apply lookup_empty|].
          now apply lookup_singleton_ne. }
        rewrite Hnone in Hx. discriminate. }
      assert (Hdone : ∃ w2, deleteThisScript proc w1 = (Returned tt, w2) ∧
                            at_ (__dirname proc) (disk w2) = Absent ∧
                            existsb deletes (journal w2) = true).
      { destruct Hrest as [Hrest|[m Hrest]].
        - destruct (deleteThisScript_alone proc w1 es c Harg Hd Hdir Hes Hrest)
            as (d' & E & Hgone).
          eexists. split; [exact E|]. split; [exact Hgone | reflexivity].
        - destruct (deleteThisScript_store proc w1 es c m Harg Hd Hdir Hes Hrest)
            as (d' & E & Hgone).
          eexists. split; [exact E|]. split; [exact Hgone | reflexivity]. }
      destruct Hdone as (w2 & E & Hgone & Hlog). exists w2.
      split; [exact E|].
      split; [apply at_below; [discriminate | congruence]|].
      split; [apply at_below; [discriminate | congruence]|].
      split; [exact Hgone|]. split; [exact Hlog|].
      unfold setupTypeScript. rewrite (bind_run _ _ _ _ _ Hconv).
      now rewrite (bind_run _ _ _ _ _ E).
    + intros es sub c Hdir Hes Hrest.
      destruct (deleteThisScript_store_dir proc w1 es sub c Harg Hdir Hes Hrest)
        as (d1 & E & Hfile & Hstore & _).
      eexists. split; [exact E|]. split; [exact (Hrun _ _ E)|].
      split; [exact Hfile|]. split; [exact Hstore | reflexivity].
  - intros e. now apply deleteThisScript_unlink_fails.
  - intros d1 e. now apply deleteThisScript_store_fails.
  - intros d1 e. now apply deleteThisScript_rmdir_fails.
  - intros d1 d2 e. now apply deleteThisScript_rmdir_fails_after_store.
Qed.

Lemma script_deletes_itself_witness :
  (∃ w2, deleteThisScript Sample.inPlace (convert Sample.inPlace Sample.startWithStore).2
         = (Returned tt, w2) ∧
         at_ (__filename Sample.inPlace) (disk w2) = Absent ∧
         at_ (__dirname Sample.inPlace ++ [".DS_store"])%list (disk w2) = Absent ∧
         at_ (__dirname Sample.inPlace) (disk w2) = Absent ∧
         existsb deletes (journal w2) = true ∧
         setupTypeScript Sample.inPlace Sample.startWithStore
         = (addExtensionRecommendation Sample.inPlace ;; report Sample.inPlace) w2) ∧
  (∃ w2, setupTypeScript Sample.inPlace Sample.startWithStoreDir
         = (Thrown (SystemError EISDIR), w2) ∧
         at_ (__filename Sample.inPlace) (disk w2) = Absent ∧
         at_ (__dirname Sample.inPlace ++ [".DS_store"])%list (disk w2) = IsDir).
Proof.
  split.
  - destruct (script_deletes_itself (rt := SampleRuntime.runtime)
                Sample.inPlace Sample.startWithStore
                (convert Sample.inPlace Sample.startWithStore).2 eq_refl)
      as [Hrun _].
    destruct (Hrun ltac:(vm_compute; reflexivity)) as (Hok & _).
    apply (Hok Sample.scriptsAndStore Sample.scriptText).
    + vm_compute. reflexivity.
    + vm_compute. reflexivity.
    + right. exists "". vm_compute. reflexivity.
  - destruct (script_deletes_itself (rt := SampleRuntime.runtime)
                Sample.inPlace Sample.startWithStoreDir
                (convert Sample.inPlace Sample.startWithStoreDir).2 eq_refl)
      as [Hrun _].
    destruct (Hrun ltac:(vm_compute; reflexivity)) as (_ & Hdir & _).
    destruct (Hdir Sample.scriptsAndStoreDir ∅ Sample.scriptText)
      as (w2 & _ & E & Hfile & Hstore & _); [vm_compute; reflexivity .. |].
    exists w2. split; [exact E|]. split; [exact Hfile | exact Hstore].
Defined.

(** C9. On every run that returns, whatever the arguments, the file
    src/global.d.ts of the target directory holds exactly the single line
    [/// <reference types="svelte" />], whether or not it existed before. *)
Theorem global_dts_written `{rt : Runtime} (proc : process) (w w' : world) :
  setupTypeScript proc w = (Returned tt, w') →
  at_ (dtsPath proc) (disk w') = IsFile globalDts ∧
  globalDts = ("/// <reference types=" +:+ DQ +:+ "svelte" +:+ DQ +:+ " />") ∧
  includes LF globalDts = false.
Proof.
  intros Hrun. split; [|split; reflexivity].
  apply setupTypeScript_cases in Hrun as [(e & _ & He)|(w7 & Hconv & Hfin)];
    [discriminate|].
  apply convert_returned in Hconv as (w1 & w2 & w3 & w4 & w5 & w6 & _ & _ & _ & _ & _ & _ & Hdts).
  apply writeFileSync_returned in Hdts.
  revert Hdts. apply (finish_keeps proc (dtsPath proc) (IsFile globalDts)) with (r := Returned tt);
    [side | side | side | exact Hfin].
Qed.

Lemma global_dts_written_witness :
  at_ (dtsPath Sample.inPlace) (disk (setupTypeScript Sample.inPlace Sample.start).2)
  = IsFile globalDts.
Proof.
  apply (global_dts_written Sample.inPlace Sample.start).
  vm_compute. reflexivity.
Defined.

(** ** Part IV: further properties of the run *)

(** *** What is printed *)

Module ConsoleFacts.
Import Effects.

Lemma silent_bind {A B} (m : M A) (f : A → M B) :
  silent m → (∀ a, silent (f a)) → silent (m ≫= f).
Proof.
  intros Hm Hf w r w' H.
  apply bind_cases in H as [(e & H & _)|(a & w1 & H & H')].
  - exact (Hm _ _ _ H).
  - rewrite (Hf a _ _ _ H'). exact (Hm _ _ _ H).
Qed.

Lemma silent_ret {A} (a : A) : silent (mret a).
Proof. intros w r w' H. now injection H as <- <-. Qed.

Lemma silent_throw {A} (e : exn) : silent (throw e : M A).
Proof. intros w r w' H. now injection H as <- <-. Qed.

Lemma silent_lift {A} (o : outcome A) : silent (lift o).
Proof. intros w r w' H. now injection H as <- <-. Qed.

Lemma silent_query {A} (c : call) (f : node → errno + A) : silent (query c f).
Proof.
  intros w r w' H. unfold query in H.
  destruct (f (disk w)); now injection H as <- <-.
Qed.

Lemma silent_update (c : call) (f : node → errno + node) : silent (update c f).
Proof.
  intros w r w' H. unfold update in H.
  destruct (f (disk w)); now injection H as <- <-.
Qed.

Ltac silence :=
  repeat first
    [ apply silent_bind; [|intros ?]
    | apply silent_ret | apply silent_throw | apply silent_lift
    | apply silent_query | apply silent_update
    | match goal with
      | |- silent (match ?x with _ => _ end) => destruct x
      | |- silent (if ?x then _ else _) => destruct x
      end ].

Section Steps.
Context {rt : Runtime} (proc : process).

Lemma convert_silent : silent (convert proc).
Proof.
  unfold convert, addDependencies, renameMain, switchAppToTS, editRollupConfig,
    addTsconfig, addSvelteConfig, addGlobalDts. silence.
Qed.

Lemma deleteThisScript_silent : silent (deleteThisScript proc).
Proof. unfold deleteThisScript. silence. Qed.

Lemma addExtensionRecommendation_silent : silent (addExtensionRecommendation proc).
Proof. unfold addExtensionRecommendation. silence. Qed.

(** Everything before the messages. *)
Lemma work_silent :
  silent (convert proc ;; deleteThisScript proc ;; addExtensionRecommendation proc).
Proof.
  apply silent_bind; [apply convert_silent | intros _].
  apply silent_bind; [apply deleteThisScript_silent | intros _].
  apply addExtensionRecommendation_silent.
Qed.

Lemma report_run (w : world) :
  report proc w
  = (Returned tt,
     World (disk w)
           (ExistsSync (Path.join (projectRoot proc) ["node_modules"]) :: journal w)
           (console w ++ converted ::
              if exists_ (Path.join (projectRoot proc) ["node_modules"]) (disk w)
              then [rerunHint] else [])).
Proof.
  unfold report, mbind, M_bind, console_log, fs.existsSync, query, logged, mret, M_ret.
  cbn [disk journal console].
  destruct (exists_ (Path.join (projectRoot proc) ["node_modules"]) (disk w)); cbn.
  - now rewrite <- app_assoc.
  - reflexivity.
Qed.

(** The run is the work, then the messages. *)
Lemma setupTypeScript_work (w : world) :
  setupTypeScript proc w
  = ((convert proc ;; deleteThisScript proc ;; addExtensionRecommendation proc) ;;
     report proc) w.
Proof.
  unfold setupTypeScript, mbind, M_bind.
  destruct (convert proc w) as [[[]|e] w1]; [|reflexivity].
  destruct (deleteThisScript proc w1) as [[[]|e] w2]; [|reflexivity].
  now destruct (addExtensionRecommendation proc w2) as [[[]|e] w3].
Qed.

End Steps.

End ConsoleFacts.

(** *** More on the disk *)

Module DiskMore.
Import Disk DiskFacts.
#[local] Open Scope list_scope.

(** A path that does not resolve is reported as ENOENT, or as ENOTDIR
    when a file stands in its way. *)
Lemma noEntry_cases (p : path) : ∀ d, noEntry p d = ENOENT ∨ noEntry p d = ENOTDIR.
Proof.
  induction p as [|x p IH]; intros [c|es]; simpl; auto.
  destruct (es !! x); auto.
Qed.

(** A name that a directory does not hold is reported as ENOENT. *)
Lemma noEntry_child (p : path) (x : string) :
  ∀ d es, lookup p d = Some (Dir es) → es !! x = None → noEntry (p ++ [x]) d = ENOENT.
Proof.
  induction p as [|y p IH]; intros d es H Hx.
  - simpl in H. injection H as ->. simpl. now rewrite Hx.
  - destruct d as [c|es0]; [discriminate|]. simpl in H |- *.
    destruct (es0 !! y) as [n|]; [|discriminate]. simpl in H.
    now apply (IH n es).
Qed.

Lemma writeFile_ok (p : path) (s : string) (d : node) :
  p ≠ [] → at_ (parent p) d = IsDir → at_ p d ≠ IsDir →
  ∃ d', writeFile p s d = inr d'.
Proof.
  intros Hp Hpar Hno. unfold writeFile.
  destruct p as [|x p]; [done|].
  apply at_dir in Hpar as [es Hes].
  destruct (lookup (x :: p) d) as [[c|es']|] eqn:E.
  - eauto.
  - destruct Hno. unfold at_. now rewrite E.
  - rewrite Hes. eauto.
Qed.

(** [mkdirSync] with [recursive] refuses a file at the path. *)
Lemma mkdirp_onto_file (p : path) (c : string) :
  ∀ d, lookup p d = Some (File c) → mkdirp p d = inl EEXIST.
Proof.
  induction p as [|x p IH]; intros d H.
  - simpl in H. injection H as ->. reflexivity.
  - destruct d as [c'|es]; [discriminate|]. simpl in H |- *.
    destruct (es !! x) as [n|]; [|discriminate]. simpl in H |- *.
    now rewrite (IH n H).
Qed.

(** In a directory that exists it makes the directory, or finds it. *)
Lemma mkdirp_child (p : path) (x : string) :
  ∀ d es, lookup p d = Some (Dir es) →
          (∀ c, es !! x ≠ Some (File c)) →
          ∃ d', mkdirp (p ++ [x]) d = inr d' ∧ at_ (p ++ [x]) d' = IsDir.
Proof.
  induction p as [|y p IH]; intros d es H Hx.
  - simpl in H. injection H as ->. simpl.
    destruct (es !! x) as [[c|es']|] eqn:E.
    + now destruct (Hx c).
    + simpl. eexists. split; [reflexivity|].
      unfold at_. simpl. now rewrite lookup_insert_eq.
    + simpl. eexists. split; [reflexivity|].
      unfold at_. simpl. now rewrite lookup_insert_eq.
  - destruct d as [c|es0]; [discriminate|]. simpl in H.
    destruct (es0 !! y) as [n|] eqn:E; [|discriminate]. simpl in H.
    destruct (IH n es H Hx) as (n' & Hn & Hat).
    simpl. rewrite E. simpl. rewrite Hn. eexists. split; [reflexivity|].
    unfold at_ in *. simpl. now rewrite lookup_insert_eq.
Qed.

(** Removing an entry leaves every path as it was, or absent. *)
Lemma at_place_none (p q : path) (d : node) :
  p ≠ [] → at_ (parent p) d = IsDir →
  at_ q (place p None d) = at_ q d ∨ at_ q (place p None d) = Absent.
Proof.
  intros Hp Hpar. destruct (decide (p `prefix_of` q)) as [[r ->]|Hn].
  - right. apply at_dir in Hpar as [es Hes]. unfold at_.
    now rewrite (lookup_place_below p r None d es Hp Hes).
  - left. now apply at_place_frame.
Qed.

Lemma unlink_only_removes (p q : path) (d d' : node) :
  unlink p d = inr d' → at_ q d' = at_ q d ∨ at_ q d' = Absent.
Proof.
  intros H. apply unlink_inv in H as (Hp & Hpar & _ & ->).
  now apply at_place_none.
Qed.

Lemma rmdir_only_removes (p q : path) (d d' : node) :
  rmdir p d = inr d' → at_ q d' = at_ q d ∨ at_ q d' = Absent.
Proof.
  intros H. apply rmdir_inv in H as (Hp & Hpar & _ & ->).
  now apply at_place_none.
Qed.

End DiskMore.

(** *** More on the steps *)

Module RunFacts.
Import JSString Disk DiskFacts DiskMore JSONFacts Effects FsFacts ScriptFacts Script.
#[local] Open Scope list_scope.

Lemma parent_snoc (p : path) (x : string) : parent (p ++ [x]) = p.
Proof. apply removelast_last. Qed.

Lemma readFileSync_absent (p : path) (w : world) :
  at_ p (disk w) = Absent →
  ∃ e, fs.readFileSync p w = (Thrown (SystemError e), logged (ReadFileSync p) w) ∧
       (e = ENOENT ∨ e = ENOTDIR).
Proof.
  intros H. apply at_absent in H. unfold fs.readFileSync, query, readFile.
  rewrite H. eexists. split; [reflexivity | apply noEntry_cases].
Qed.

Lemma readFileSync_no_child (p : path) (x : string) (w : world) :
  at_ p (disk w) = IsDir → at_ (p ++ [x]) (disk w) = Absent →
  fs.readFileSync (p ++ [x]) w
  = (Thrown (SystemError ENOENT), logged (ReadFileSync (p ++ [x])) w).
Proof.
  intros Hp Hx. apply at_dir in Hp as [es Hes].
  pose proof Hx as Hnone. apply at_absent in Hnone.
  unfold fs.readFileSync, query, readFile. rewrite Hnone.
  rewrite (noEntry_child p x (disk w) es Hes); [reflexivity|].
  rewrite lookup_app, Hes in Hnone. simpl in Hnone.
  destruct (es !! x) as [n|]; [discriminate | reflexivity].
Qed.

Lemma readFileSync_onto_dir (p : path) (w : world) :
  at_ p (disk w) = IsDir →
  fs.readFileSync p w = (Thrown (SystemError EISDIR), logged (ReadFileSync p) w).
Proof.
  intros H. apply at_dir in H as [es H]. unfold fs.readFileSync, query, readFile.
  now rewrite H.
Qed.

Lemma writeFileSync_ok (p : path) (s : string) (w : world) :
  p ≠ [] → at_ (parent p) (disk w) = IsDir → at_ p (disk w) ≠ IsDir →
  ∃ d', fs.writeFileSync p s w
        = (Returned tt, World d' (WriteFileSync p s :: journal w) (console w)) ∧
        at_ p d' = IsFile s.
Proof.
  intros Hp Hpar Hno. destruct (writeFile_ok p s (disk w) Hp Hpar Hno) as [d' E].
  exists d'. unfold fs.writeFileSync, update. rewrite E. split; [reflexivity|].
  now apply (writeFile_written p s (disk w)).
Qed.

Lemma mkdirSync_onto_file (p : path) (c : string) (w : world) :
  at_ p (disk w) = IsFile c →
  fs.mkdirSync p w = (Thrown (SystemError EEXIST), logged (MkdirSync p) w).
Proof.
  intros H. apply at_file in H. unfold fs.mkdirSync, update.
  now rewrite (mkdirp_onto_file p c (disk w) H).
Qed.

Lemma mkdirSync_child (p : path) (x : string) (w : world) :
  at_ p (disk w) = IsDir → (∀ c, at_ (p ++ [x]) (disk w) ≠ IsFile c) →
  ∃ d', fs.mkdirSync (p ++ [x]) w
        = (Returned tt, World d' (MkdirSync (p ++ [x]) :: journal w) (console w)) ∧
        at_ (p ++ [x]) d' = IsDir.
Proof.
  intros Hp Hx. apply at_dir in Hp as [es Hes].
  destruct (mkdirp_child p x (disk w) es Hes) as (d' & E & Hd').
  { intros c Hc. apply (Hx c). unfold at_. rewrite lookup_app, Hes. simpl.
    now rewrite Hc. }
  exists d'. unfold fs.mkdirSync, update. rewrite E. now split.
Qed.

Section Steps.
Context {rt : Runtime} (proc : process).

(** The editor's directory and the file in it. *)
Lemma addExtensionRecommendation_returned (w w' : world) :
  addExtensionRecommendation proc w = (Returned tt, w') →
  at_ (projectRoot proc ++ [".vscode"%string]) (disk w') = IsDir ∧
  at_ ((projectRoot proc ++ [".vscode"%string]) ++ ["extensions.json"%string]) (disk w')
  = IsFile extensions.
Proof.
  unfold addExtensionRecommendation. intros H.
  apply seq_returned in H as (w1 & _ & H).
  apply writeFileSync_returned in H.
  change (Path.join (projectRoot proc) [".vscode"%string; "extensions.json"%string])
    with ((projectRoot proc ++ [".vscode"%string]) ++ ["extensions.json"%string]) in H.
  split; [|exact H].
  rewrite <- (parent_snoc (projectRoot proc ++ [".vscode"%string]) "extensions.json").
  apply at_parent; [apply snoc_nonempty | congruence].
Qed.

(** A step that throws ends the run. *)
Lemma setupTypeScript_stops_in_convert (w w' : world) (e : exn) :
  convert proc w = (Thrown e, w') → setupTypeScript proc w = (Thrown e, w').
Proof. intros H. unfold setupTypeScript. now apply bind_thrown. Qed.

Lemma convert_stops_at_manifest (w w' : world) (e : exn) :
  addDependencies proc w = (Thrown e, w') → convert proc w = (Thrown e, w').
Proof. intros H. unfold convert. now apply bind_thrown. Qed.

Lemma addDependencies_unreadable (w : world) :
  (∀ text, at_ (packageJSONPath proc) (disk w) = IsFile text → JSON_parse text = None) →
  ∃ e, addDependencies proc w
       = (Thrown e, logged (ReadFileSync (packageJSONPath proc)) w) ∧
       match at_ (packageJSONPath proc) (disk w) with
       | Absent => e = SystemError ENOENT ∨ e = SystemError ENOTDIR
       | IsDir => e = SystemError EISDIR
       | IsFile _ => e = SyntaxError
       end.
Proof.
  intros Hbad. unfold addDependencies.
  destruct (at_ (packageJSONPath proc) (disk w)) as [|text|] eqn:E.
  - destruct (readFileSync_absent _ _ E) as (e & Hr & He).
    exists (SystemError e). split; [now apply bind_thrown|].
    destruct He as [-> | ->]; auto.
  - exists SyntaxError. split; [|reflexivity].
    rewrite (bind_run _ _ _ _ _ (readFileSync_file _ _ _ E)).
    now rewrite (Hbad text eq_refl).
  - exists (SystemError EISDIR). split; [|reflexivity].
    apply bind_thrown. now apply readFileSync_onto_dir.
Qed.

End Steps.

End RunFacts.

(** *** The rename, and what fails after it *)

Module RenameFacts.
Import JSString Disk DiskFacts DiskMore JSONFacts Effects FsFacts ScriptFacts Script RunFacts.
#[local] Open Scope list_scope.

Section Steps.
Context {rt : Runtime} (proc : process).

Lemma src_dir (d : node) :
  at_ (beforeMainJSPath proc) d ≠ Absent →
  at_ (parent (afterMainTSPath proc)) d = IsDir.
Proof.
  intros H.
  change (afterMainTSPath proc)
    with ((projectRoot proc ++ ["src"%string]) ++ ["main.ts"%string]).
  rewrite parent_snoc.
  rewrite <- (parent_snoc (projectRoot proc ++ ["src"%string]) "main.js").
  apply at_parent; [apply snoc_nonempty | exact H].
Qed.

Lemma renameMain_ok (w : world) (m : string) :
  at_ (beforeMainJSPath proc) (disk w) = IsFile m →
  at_ (afterMainTSPath proc) (disk w) ≠ IsDir →
  ∃ d', renameMain proc w
        = (Returned tt,
           World d' (RenameSync (beforeMainJSPath proc) (afterMainTSPath proc)
                       :: journal w) (console w)) ∧
        at_ (beforeMainJSPath proc) d' = Absent ∧
        at_ (afterMainTSPath proc) d' = IsFile m.
Proof.
  intros Ha Hb.
  assert (Hab : beforeMainJSPath proc ≠ afterMainTSPath proc) by side.
  destruct (rename_file (beforeMainJSPath proc) (afterMainTSPath proc) m (disk w))
    as [d' E]; try assumption.
  - apply snoc_nonempty.
  - apply snoc_nonempty.
  - side.
  - apply src_dir. congruence.
  - exists d'. split; [unfold renameMain, fs.renameSync, update; now rewrite E|].
    destruct (rename_moves _ _ _ _ E Hab) as [H1 H2]. split; congruence.
Qed.

Lemma renameMain_missing (w : world) :
  at_ (beforeMainJSPath proc) (disk w) = Absent →
  ∃ e, renameMain proc w
       = (Thrown (SystemError e),
          logged (RenameSync (beforeMainJSPath proc) (afterMainTSPath proc)) w).
Proof.
  intros H. destruct (rename_missing _ (afterMainTSPath proc) _ H) as [e E].
  exists e. unfold renameMain, fs.renameSync, update. now rewrite E.
Qed.

(** After a run that returns there is no src/main.js. *)
Lemma main_js_gone (w w' : world) :
  setupTypeScript proc w = (Returned tt, w') →
  at_ (beforeMainJSPath proc) (disk w') = Absent.
Proof.
  intros Hrun.
  apply setupTypeScript_cases in Hrun as [(e & _ & He)|(w7 & Hconv & Hfin)];
    [discriminate|].
  apply convert_returned in Hconv
    as (w1 & w2 & w3 & w4 & w5 & w6 & Ha & Hb & Hc & Hd & He & Hf & Hg).
  apply renameSync_returned in Hb as [Hgone _]; [|side].
  set (q := beforeMainJSPath proc) in *. set (v := Absent).
  apply (switchAppToTS_keeps proc q v ltac:(subst q v; side) _ _ _ Hc) in Hgone.
  apply (editRollupConfig_keeps proc q v ltac:(subst q v; side) _ _ _ Hd) in Hgone.
  apply (addTsconfig_keeps proc q v ltac:(subst q v; side) _ _ _ He) in Hgone.
  apply (addSvelteConfig_keeps proc q v ltac:(subst q v; side) _ _ _ Hf) in Hgone.
  apply (addGlobalDts_keeps proc q v ltac:(subst q v; side) _ _ _ Hg) in Hgone.
  exact (finish_keeps proc q v ltac:(subst q v; side) ltac:(subst q v; side)
           ltac:(subst q v; side) _ _ _ Hfin Hgone).
Qed.

(** Without src/main.js the run stops at the rename at the latest; only
    the manifest may have been written. *)
Lemma setupTypeScript_without_main (w : world) :
  at_ (beforeMainJSPath proc) (disk w) = Absent →
  ∃ e w', setupTypeScript proc w = (Thrown e, w') ∧
          ∀ q, q ≠ packageJSONPath proc → at_ q (disk w') = at_ q (disk w).
Proof.
  intros Hs. unfold setupTypeScript, convert.
  destruct (addDependencies proc w) as [[[]|e] w1] eqn:Ha.
  - apply (addDependencies_keeps proc (beforeMainJSPath proc) Absent ltac:(side)
             _ _ _ Ha) in Hs.
    destruct (renameMain_missing w1 Hs) as [e E].
    exists (SystemError e), (logged (RenameSync (beforeMainJSPath proc)
                                       (afterMainTSPath proc)) w1).
    split.
    + apply bind_thrown. rewrite (bind_run _ _ _ _ _ Ha). now apply bind_thrown.
    + intros q Hq. simpl.
      exact (addDependencies_keeps proc q (at_ q (disk w)) (or_intror Hq)
               _ _ _ Ha eq_refl).
  - exists e, w1. split; [now apply bind_thrown, bind_thrown|].
    intros q Hq.
    exact (addDependencies_keeps proc q (at_ q (disk w)) (or_intror Hq)
             _ _ _ Ha eq_refl).
Qed.

End Steps.

End RenameFacts.

(** *** The edits, one anchor at a time *)

Module TextMore.
Import JSString JSStringFacts Edit EditFacts Script TextEdits.

(** An edit whose anchor is absent adds nothing. *)
Lemma tsImports_kept (s : string) :
  includes cssImport s = false →
  occurrences tsImports (rollupConfigEdits s) = occurrences tsImports s.
Proof.
  intros H. rewrite rollupConfigEdits_splice.
  rewrite (moves_same tsImports commonjsCall _ 0) by (vm_compute; reflexivity).
  rewrite (moves_same tsImports compilerOptions _ 0) by (vm_compute; reflexivity).
  rewrite (moves_same tsImports entryJS _ 0) by (vm_compute; reflexivity).
  now rewrite splice_absent.
Qed.

Lemma entryTS_kept (s : string) :
  includes entryJS s = false →
  occurrences entryTS (rollupConfigEdits s) = occurrences entryTS s.
Proof.
  intros H. rewrite rollupConfigEdits_splice.
  rewrite (moves_same entryTS commonjsCall _ 0) by (vm_compute; reflexivity).
  rewrite (moves_same entryTS compilerOptions _ 0) by (vm_compute; reflexivity).
  rewrite <- (moves_includes entryJS cssImport (cssImport ++ tsImports) 0
                ltac:(vm_compute; reflexivity) s) in H.
  rewrite (splice_absent _ entryJS) by exact H.
  now rewrite (moves_same entryTS cssImport _ 0) by (vm_compute; reflexivity).
Qed.

Lemma preprocessLine_kept (s : string) :
  includes compilerOptions s = false →
  occurrences preprocessLine (rollupConfigEdits s) = occurrences preprocessLine s.
Proof.
  intros H. rewrite rollupConfigEdits_splice.
  rewrite (moves_same preprocessLine commonjsCall _ 0) by (vm_compute; reflexivity).
  rewrite <- (moves_includes compilerOptions cssImport (cssImport ++ tsImports) 0
                ltac:(vm_compute; reflexivity) s) in H.
  rewrite <- (moves_includes compilerOptions entryJS entryTS 0
                ltac:(vm_compute; reflexivity)) in H.
  rewrite (splice_absent _ compilerOptions) by exact H.
  rewrite (moves_same preprocessLine entryJS _ 0) by (vm_compute; reflexivity).
  now rewrite (moves_same preprocessLine cssImport _ 0) by (vm_compute; reflexivity).
Qed.

Lemma typescriptCall_kept (s : string) :
  includes commonjsCall s = false →
  occurrences typescriptCall (rollupConfigEdits s) = occurrences typescriptCall s.
Proof.
  intros H. rewrite rollupConfigEdits_splice.
  rewrite <- (moves_includes commonjsCall cssImport (cssImport ++ tsImports) 0
                ltac:(vm_compute; reflexivity) s) in H.
  rewrite <- (moves_includes commonjsCall entryJS entryTS 0
                ltac:(vm_compute; reflexivity)) in H.
  rewrite <- (moves_includes commonjsCall compilerOptions (preprocessLine ++ compilerOptions)
                0 ltac:(vm_compute; reflexivity)) in H.
  rewrite (splice_absent _ commonjsCall) by exact H.
  rewrite (moves_same typescriptCall compilerOptions _ 0) by (vm_compute; reflexivity).
  rewrite (moves_same typescriptCall entryJS _ 0) by (vm_compute; reflexivity).
  now rewrite (moves_same typescriptCall cssImport _ 0) by (vm_compute; reflexivity).
Qed.

(** The edit of the entry point takes one ['src/main.js'] away. *)
Lemma entryJS_taken (s : string) :
  occurrences entryJS (rollupConfigEdits s)
  = occurrences entryJS s - (if includes entryJS s then 1 else 0).
Proof.
  rewrite rollupConfigEdits_splice.
  rewrite (moves_same entryJS commonjsCall _ 0) by (vm_compute; reflexivity).
  rewrite (moves_same entryJS compilerOptions _ 0) by (vm_compute; reflexivity).
  rewrite <- (moves_includes entryJS cssImport (cssImport ++ tsImports) 0
                ltac:(vm_compute; reflexivity) s).
  rewrite <- (moves_same entryJS cssImport (cssImport ++ tsImports) 0
                ltac:(vm_compute; reflexivity) s).
  set (s1 := splice s cssImport (cssImport ++ tsImports)).
  destruct (includes entryJS s1) eqn:E.
  - pose proof (moves_sound entryJS entryJS entryTS 1 0
                  ltac:(vm_compute; reflexivity) s1 E). lia.
  - rewrite splice_absent by exact E. lia.
Qed.

Lemma rollupConfigEdits_absent (s : string) :
  includes cssImport s = false → includes entryJS s = false →
  includes compilerOptions s = false → includes commonjsCall s = false →
  rollupConfigEdits s = s.
Proof.
  intros H1 H2 H3 H4. rewrite rollupConfigEdits_splice.
  rewrite (splice_absent s cssImport) by exact H1.
  rewrite (splice_absent s entryJS) by exact H2.
  rewrite (splice_absent s compilerOptions) by exact H3.
  now apply splice_absent.
Qed.

(** The same for the two edits of App.svelte. *)
Lemma scriptTagTS_moved (s : string) :
  occurrences scriptTagTS (appFileEdits s)
  = occurrences scriptTagTS s + (if includes scriptTag s then 1 else 0).
Proof.
  rewrite appFileEdits_splice.
  rewrite (moves_same scriptTagTS nameProp namePropTS 0) by (vm_compute; reflexivity).
  destruct (includes scriptTag s) eqn:E.
  - pose proof (moves_sound scriptTagTS scriptTag scriptTagTS 0 1
                  ltac:(vm_compute; reflexivity) s E). lia.
  - rewrite splice_absent by exact E. lia.
Qed.

Lemma scriptTag_moved (s : string) :
  occurrences scriptTag (appFileEdits s)
  = occurrences scriptTag s - (if includes scriptTag s then 1 else 0).
Proof.
  rewrite appFileEdits_splice.
  rewrite (moves_same scriptTag nameProp namePropTS 0) by (vm_compute; reflexivity).
  destruct (includes scriptTag s) eqn:E.
  - pose proof (moves_sound scriptTag scriptTag scriptTagTS 1 0
                  ltac:(vm_compute; reflexivity) s E). lia.
  - rewrite splice_absent by exact E. lia.
Qed.

Lemma namePropTS_moved (s : string) :
  occurrences namePropTS (appFileEdits s)
  = occurrences namePropTS s + (if includes nameProp s then 1 else 0).
Proof.
  rewrite appFileEdits_splice.
  rewrite <- (moves_includes nameProp scriptTag scriptTagTS 0
                ltac:(vm_compute; reflexivity) s).
  rewrite <- (moves_same namePropTS scriptTag scriptTagTS 0
                ltac:(vm_compute; reflexivity) s).
  set (s1 := splice s scriptTag scriptTagTS).
  destruct (includes nameProp s1) eqn:E.
  - pose proof (moves_sound namePropTS nameProp namePropTS 0 1
                  ltac:(vm_compute; reflexivity) s1 E). lia.
  - rewrite splice_absent by exact E. lia.
Qed.

Lemma nameProp_moved (s : string) :
  occurrences nameProp (appFileEdits s)
  = occurrences nameProp s - (if includes nameProp s then 1 else 0).
Proof.
  rewrite appFileEdits_splice.
  rewrite <- (moves_includes nameProp scriptTag scriptTagTS 0
                ltac:(vm_compute; reflexivity) s).
  rewrite <- (moves_same nameProp scriptTag scriptTagTS 0
                ltac:(vm_compute; reflexivity) s).
  set (s1 := splice s scriptTag scriptTagTS).
  destruct (includes nameProp s1) eqn:E.
  - pose proof (moves_sound nameProp nameProp namePropTS 1 0
                  ltac:(vm_compute; reflexivity) s1 E). lia.
  - rewrite splice_absent by exact E. lia.
Qed.

Lemma not_included (pat s : string) :
  occurrences pat s = 0 → includes pat s = false.
Proof.
  intros H. destruct (includes pat s) eqn:E; [|reflexivity].
  apply includes_occurrences in E. lia.
Qed.

End TextMore.

(** *** The merge of the manifest *)

Module ManifestFacts.
Import Disk DiskFacts JSONFacts Effects FsFacts ScriptFacts Script.
#[local] Open Scope list_scope.

Section Props.
Context {number : Type}.
Implicit Types props : list (string * json number).

Lemma assign_same props k v : lookupProp props k = Some v → assignProp props k v = props.
Proof.
  induction props as [|[k' v'] rest IH]; simpl; [discriminate|].
  destruct (String.eqb k' k) eqn:E.
  - intros [= ->]. apply String.eqb_eq in E as ->. reflexivity.
  - intros H. now rewrite IH.
Qed.

(** Merging into an object that has the values already changes nothing. *)
Lemma mergeInto_fixed (source : list (string * string)) : ∀ props,
  (∀ k s, (k, s) ∈ source → lookupProp props k = Some (JString s)) →
  mergeInto props source = props.
Proof.
  unfold mergeInto. induction source as [|[k s] rest IH]; intros props H; [reflexivity|].
  simpl. rewrite assign_same by (apply H; left).
  apply IH. intros k' s' Hin. apply H. now right.
Qed.

Lemma mergeInto_idem (source : list (string * string)) props :
  NoDup (map fst source) →
  mergeInto (mergeInto props source) source = mergeInto props source.
Proof.
  intros Hnd. apply mergeInto_fixed. intros k s Hin. now apply lookup_merge_in.
Qed.

Lemma lookup_none_keys props k : lookupProp props k = None ↔ k ∉ map fst props.
Proof.
  induction props as [|[k' v'] rest IH]; simpl.
  - split; [intros _; apply not_elem_of_nil | reflexivity].
  - rewrite not_elem_of_cons. destruct (String.eqb k' k) eqn:E.
    + apply String.eqb_eq in E as ->. split; [discriminate | now intros [? _]].
    + apply String.eqb_neq in E. rewrite IH. split; [now split | now intros [_ ?]].
Qed.

Lemma keys_assign_new props k v :
  lookupProp props k = None → map fst (assignProp props k v) = map fst props ++ [k].
Proof.
  induction props as [|[k' v'] rest IH]; simpl; [reflexivity|].
  destruct (String.eqb k' k); [discriminate|]. intros H. simpl. now rewrite IH.
Qed.

Lemma filter_new_key (keys : list string) (k : string) (l : list string) :
  k ∉ l → filter (λ x, x ∉ keys ++ [k]) l = filter (λ x, x ∉ keys) l.
Proof.
  induction l as [|x l IH]; intros Hk; [reflexivity|].
  apply not_elem_of_cons in Hk as [Hx Hk]. rewrite !filter_cons, IH by exact Hk.
  destruct (decide (x ∉ keys ++ [k])) as [H1|H1], (decide (x ∉ keys)) as [H2|H2];
    try reflexivity.
  - destruct H2. intros Hin. apply H1, elem_of_app. now left.
  - destruct H1. intros Hin. apply elem_of_app in Hin as [Hin|Hin]; [done|].
    apply list_elem_of_singleton in Hin. congruence.
Qed.

(** The keys after a merge: the old ones in their order, then the keys of
    the source that are new, in the order of the source. *)
Lemma keys_merge (source : list (string * string)) : ∀ props,
  NoDup (map fst source) →
  map fst (mergeInto props source)
  = map fst props ++ filter (λ k, k ∉ map fst props) (map fst source).
Proof.
  unfold mergeInto. induction source as [|[k s] rest IH]; intros props Hnd.
  - simpl. now rewrite app_nil_r.
  - simpl in Hnd. apply NoDup_cons in Hnd as [Hk Hnd]. simpl.
    rewrite IH by exact Hnd. rewrite filter_cons.
    destruct (lookupProp props k) as [v|] eqn:E.
    + rewrite keys_assign by (rewrite E; eauto).
      destruct (decide (k ∉ map fst props)) as [Hnew|_]; [|reflexivity].
      apply lookup_none_keys in Hnew. congruence.
    + rewrite keys_assign_new by exact E.
      rewrite filter_new_key by exact Hk.
      destruct (decide (k ∉ map fst props)) as [_|Hold].
      * now rewrite <- app_assoc.
      * destruct Hold. now apply lookup_none_keys.
Qed.

Lemma mergedManifest_maps props deps scr :
  lookupProp (mergedManifest props deps scr) "devDependencies"
  = Some (JObject (mergeInto deps devDependencies)) ∧
  lookupProp (mergedManifest props deps scr) "scripts"
  = Some (JObject (mergeInto scr scripts)).
Proof.
  unfold mergedManifest. split.
  - rewrite lookup_assign_ne by discriminate. apply lookup_assign_eq.
  - apply lookup_assign_eq.
Qed.

Lemma mergedManifest_idem props deps scr :
  mergedManifest (mergedManifest props deps scr)
    (mergeInto deps devDependencies) (mergeInto scr scripts)
  = mergedManifest props deps scr.
Proof.
  destruct (mergedManifest_maps props deps scr) as [Hd Hs].
  unfold mergedManifest at 1.
  rewrite !mergeInto_idem.
  - rewrite (assign_same _ _ _ Hd). now rewrite (assign_same _ _ _ Hs).
  - repeat constructor; apply not_elem_of_nil.
  - apply (bool_decide_unpack (NoDup (map fst devDependencies))).
    vm_compute. exact I.
Qed.

End Props.

Section Steps.
Context {rt : Runtime} (proc : process).

(** The step on a manifest that is an object with the two keys. *)
Lemma addDependencies_run (w : world) (text : string)
    (props : list (string * json number)) (x y : json number) :
  at_ (packageJSONPath proc) (disk w) = IsFile text →
  JSON_parse text = Some (JObject props) →
  lookupProp props "devDependencies" = Some x →
  lookupProp props "scripts" = Some y →
  addDependencies proc w
  = match Object_assign (Some x) devDependencies, Object_assign (Some y) scripts with
    | Returned x', Returned y' =>
      fs.writeFileSync (packageJSONPath proc)
        (JSON_stringify
           (JObject (assignProp (assignProp props "devDependencies" x') "scripts" y')))
        (logged (ReadFileSync (packageJSONPath proc)) w)
    | Thrown e, _ | Returned _, Thrown e =>
      (Thrown e, logged (ReadFileSync (packageJSONPath proc)) w)
    end.
Proof.
  intros Hfile Hparse Hx Hy. unfold addDependencies.
  rewrite (bind_run _ _ _ _ _ (readFileSync_file _ _ _ Hfile)).
  rewrite Hparse. unfold mbind, M_bind, mret, M_ret, lift. cbn [getProp].
  rewrite Hx.
  destruct (Object_assign (Some x) devDependencies) as [x'|e]; [|reflexivity].
  cbn [setProp getProp]. rewrite lookup_assign_ne by discriminate. rewrite Hy.
  destruct (Object_assign (Some y) scripts) as [y'|e]; reflexivity.
Qed.

End Steps.

End ManifestFacts.

(** *** The dev server of rollup.config.js *)

Module RollupFacts.
Import RollupConfig Script.
#[local] Open Scope list_scope.

(** The state once the server is started, after [n] calls of [toExit]. *)
Abbreviation started n :=
  (State (Some 0) (Host [npmStart] [SIGTERM; exit] (replicate n (0, 0%Z)))).

Lemma replicate_snoc {A} (n : nat) (x : A) : replicate n x ++ [x] = replicate (S n) x.
Proof. induction n as [|n IH]; simpl; [reflexivity | now rewrite IH]. Qed.

Lemma writeBundle_initial : writeBundle initial = started 0.
Proof. reflexivity. Qed.

Lemma writeBundle_started (n : nat) : writeBundle (started n) = started n.
Proof. reflexivity. Qed.

Lemma toExit_started (n : nat) : toExit (started n) = started (S n).
Proof.
  unfold toExit. cbn [server outside children listeners kills].
  now rewrite replicate_snoc.
Qed.

Lemma emit_initial (ev : event) : emit ev initial = initial.
Proof. reflexivity. Qed.

Lemma emit_started (ev : event) (n : nat) : emit ev (started n) = started (S n).
Proof.
  unfold emit. cbn [outside listeners fold_left].
  destruct ev.
  - rewrite (bool_decide_eq_true_2 (SIGTERM = SIGTERM)) by reflexivity.
    rewrite (bool_decide_eq_false_2 (exit = SIGTERM)) by discriminate.
    apply toExit_started.
  - rewrite (bool_decide_eq_false_2 (SIGTERM = exit)) by discriminate.
    rewrite (bool_decide_eq_true_2 (exit = exit)) by reflexivity.
    apply toExit_started.
Qed.

(** An event calls [toExit] once, however often the hook has run. *)
Lemma emit_toExit (ev : event) (s : state) :
  s = initial ∨ (∃ n, s = started n) → emit ev s = toExit s.
Proof.
  intros [-> | [n ->]]; [reflexivity|].
  now rewrite emit_started, toExit_started.
Qed.

Lemma bundleWritten_cases (env : option string) (s : state) :
  bundleWritten env s = if production env then s else writeBundle s.
Proof. unfold bundleWritten, plugins. now destruct (production env). Qed.

Lemma session_snoc (env : option string) (steps : list step) (a : step) :
  session env (steps ++ [a]) = after env (session env steps) a.
Proof. unfold session. now rewrite fold_left_app. Qed.

(** The states a rollup process goes through. *)
Lemma session_states (env : option string) (steps : list step) :
  (production env = true ∨ Bundle ∉ steps → session env steps = initial) ∧
  (production env = false → Bundle ∈ steps → ∃ n, session env steps = started n).
Proof.
  induction steps as [|a steps [IH1 IH2]] using rev_ind.
  - split; [reflexivity|]. intros _ H. now apply elem_of_nil in H.
  - rewrite session_snoc. split.
    + intros H.
      assert (H' : production env = true ∨ Bundle ∉ steps).
      { destruct H as [H|H]; [now left | right].
        intros Hin. apply H. apply elem_of_app. now left. }
      rewrite (IH1 H'). destruct a as [|ev]; [|reflexivity].
      simpl. rewrite bundleWritten_cases.
      destruct H as [-> | H]; [reflexivity|].
      destruct H. apply elem_of_app. right. now left.
    + intros Hdev Hin.
      destruct (decide (Bundle ∈ steps)) as [Hb|Hb].
      * destruct (IH2 Hdev Hb) as [n ->]. destruct a as [|ev]; simpl.
        -- rewrite bundleWritten_cases, Hdev. now exists n.
        -- rewrite emit_started. now exists (S n).
      * rewrite (IH1 (or_intror Hb)).
        apply elem_of_app in Hin as [Hin|Hin]; [done|].
        apply list_elem_of_singleton in Hin as <-. simpl.
        rewrite bundleWritten_cases, Hdev. now exists 0.
Qed.

Lemma session_reached (env : option string) (steps : list step) :
  session env steps = initial ∨ ∃ n, session env steps = started n.
Proof.
  destruct (session_states env steps) as [H1 H2].
  destruct (production env) eqn:E; [left; auto|].
  destruct (decide (Bundle ∈ steps)); [right; auto | left; auto].
Qed.

End RollupFacts.

(** *** A run that returns *)

Module SuccessFacts.
Import JSString Disk DiskFacts DiskMore JSONFacts Effects FsFacts ScriptFacts Script.
Import RunFacts RenameFacts.
#[local] Open Scope list_scope.

Lemma kept {A} (m : M A) (q : path) (w w' : world) (r : outcome A) :
  (∀ v, preserves (shows q v) m) → m w = (r, w') → at_ q (disk w') = at_ q (disk w).
Proof. intros H E. exact (H (at_ q (disk w)) w r w' E eq_refl). Qed.

(** A step that only removes leaves a path as it was, or absent. *)
Lemma unlinkSync_only_removes (q p : path) (v : view) :
  preserves (λ d, at_ q d = v ∨ at_ q d = Absent) (fs.unlinkSync p).
Proof.
  apply preserves_update. intros d d' H HI.
  destruct (unlink_only_removes p q d d' H) as [-> | ->]; auto.
Qed.

Lemma rmdirSync_only_removes (q p : path) (v : view) :
  preserves (λ d, at_ q d = v ∨ at_ q d = Absent) (fs.rmdirSync p).
Proof.
  apply preserves_update. intros d d' H HI.
  destruct (rmdir_only_removes p q d d' H) as [-> | ->]; auto.
Qed.

Section Steps.
Context {rt : Runtime} (proc : process).

Lemma deleteThisScript_only_removes (q : path) (v : view) :
  preserves (λ d, at_ q d = v ∨ at_ q d = Absent) (deleteThisScript proc).
Proof.
  unfold deleteThisScript.
  destruct (negb (truthy (argv2 proc))); [|apply preserves_ret].
  apply preserves_bind; [apply unlinkSync_only_removes | intros _].
  apply preserves_bind; [apply readdirSync_keeps | intros names].
  apply preserves_bind.
  { destruct names as [|name [|]]; try apply preserves_ret.
    destruct (String.eqb name ".DS_store"); [|apply preserves_ret].
    apply unlinkSync_only_removes. }
  intros _. apply preserves_bind; [apply readdirSync_keeps | intros names'].
  destruct (Nat.eqb (length names') 0); [|apply preserves_ret].
  apply rmdirSync_only_removes.
Qed.

(** The conversion leaves alone what it does not name. *)
Lemma convert_keeps (q : path) :
  q ≠ packageJSONPath proc →
  ¬ beforeMainJSPath proc `prefix_of` q → ¬ afterMainTSPath proc `prefix_of` q →
  q ≠ appSveltePath proc → q ≠ rollupConfigPath proc → q ≠ tsconfigPath proc →
  q ≠ svelteConfigPath proc → q ≠ dtsPath proc →
  ∀ v, preserves (shows q v) (convert proc).
Proof.
  intros H0 Ha Hb H1 H2 H3 H4 H5 v. unfold convert.
  apply preserves_bind; [apply addDependencies_keeps; now right | intros _].
  apply convert_tail_keeps; auto.
Qed.

(** In a run without argument the target lies above the script, so the two
    names of the entry point cannot lie above it. *)
Lemma entry_point_not_above :
  truthy (argv2 proc) = false →
  ¬ beforeMainJSPath proc `prefix_of` __dirname proc ∧
  ¬ afterMainTSPath proc `prefix_of` __dirname proc.
Proof.
  intros Harg.
  assert (Hroot : projectRoot proc = removelast (__dirname proc)).
  { unfold projectRoot. now rewrite Harg. }
  assert (Hlen : ∀ x y : string,
            ¬ ((projectRoot proc ++ [x]) ++ [y]) `prefix_of` __dirname proc).
  { intros x y Hp. apply prefix_length in Hp. rewrite !length_app, Hroot in Hp.
    destruct (__dirname proc) as [|z l] using rev_ind; simpl in Hp; [lia|].
    rewrite removelast_last, length_app in Hp. simpl in Hp. lia. }
  split.
  - apply (Hlen "src" "main.js").
  - apply (Hlen "src" "main.ts").
Qed.

(** The script and the entries beside it are not named by the
    conversion. *)
Lemma beside_script_kept (x : string) :
  truthy (argv2 proc) = false →
  x ∉ [ "package.json"; "main.js"; "main.ts"; "App.svelte"; "rollup.config.js";
        "tsconfig.json"; "svelte.config.js"; "global.d.ts" ]%string →
  ∀ v, preserves (shows (__dirname proc ++ [x]) v) (convert proc).
Proof.
  intros Harg Hx.
  repeat (apply not_elem_of_cons in Hx as [? Hx]).
  destruct (entry_point_not_above Harg) as [Ha Hb].
  apply convert_keeps; try (apply snoc_ne; congruence).
  - intros Hp. apply prefix_snoc_cases in Hp as [Hp|Hp]; [now apply Ha|].
    revert Hp. apply snoc_ne. congruence.
  - intros Hp. apply prefix_snoc_cases in Hp as [Hp|Hp]; [now apply Hb|].
    revert Hp. apply snoc_ne. congruence.
Qed.

Lemma script_entry (d : node) (c : string) :
  at_ (__filename proc) d = IsFile c →
  ∃ es, lookup (__dirname proc) d = Some (Dir es) ∧ es !! scriptName = Some (File c).
Proof.
  intros H. apply at_file in H. unfold __filename in H.
  rewrite lookup_app in H.
  destruct (lookup (__dirname proc) d) as [[c'|es]|]; [discriminate| |discriminate].
  exists es. split; [reflexivity|]. simpl in H.
  now destruct (es !! scriptName).
Qed.

(** The script with other entries beside it, not the single entry
    .DS_store: only the script goes. *)
Lemma deleteThisScript_others (w : world) (es : gmap string node) (c : string) :
  truthy (argv2 proc) = false →
  lookup (__dirname proc) (disk w) = Some (Dir es) →
  es !! scriptName = Some (File c) →
  delete scriptName es ≠ ∅ →
  (∀ m, delete scriptName es ≠ {[ ".DS_store"%string := m ]}) →
  deleteThisScript proc w
  = (Returned tt,
     World (place (__filename proc) None (disk w))
           (ReaddirSync (__dirname proc) :: ReaddirSync (__dirname proc)
              :: UnlinkSync (__filename proc) :: journal w)
           (console w)) ∧
  lookup (__dirname proc) (place (__filename proc) None (disk w))
  = Some (Dir (delete scriptName es)).
Proof.
  intros Harg Hdir Hes Hrest Hstore.
  set (d1 := place (__filename proc) None (disk w)).
  assert (Hfile : at_ (__filename proc) (disk w) = IsFile c).
  { unfold __filename. rewrite (at_script _ _ es) by exact Hdir. now rewrite Hes. }
  assert (Hdir1 : lookup (__dirname proc) d1 = Some (Dir (delete scriptName es))).
  { unfold d1, __filename. now rewrite (lookup_place_child _ _ _ _ es Hdir). }
  split; [|exact Hdir1].
  unfold deleteThisScript. rewrite Harg.
  change (negb false) with true. cbv iota.
  change (Path.join (__filename proc) []) with (__filename proc).
  change (Path.join (__dirname proc) []) with (__dirname proc).
  rewrite (bind_run _ _ _ _ _
             (unlinkSync_file (__filename proc) c w (snoc_nonempty _ _) Hfile)).
  fold d1.
  rewrite (bind_run _ _ _ _ _
             (readdirSync_dir (__dirname proc) _ (World d1 _ _) Hdir1)).
  set (names := map fst (map_to_list (delete scriptName es))).
  assert (Hnames : match names with
                   | [name] => String.eqb name ".DS_store" = false
                   | [] => False
                   | _ => True
                   end).
  { unfold names.
    destruct (map_to_list (delete scriptName es)) as [|[k v] [|kv rest]] eqn:E;
      simpl; [| |exact I].
    - now apply map_to_list_empty_iff in E.
    - apply String.eqb_neq. intros ->. apply (Hstore v).
      rewrite <- (list_to_map_to_list (delete scriptName es)), E. simpl.
      apply insert_empty. }
  unfold logged. cbn [disk journal console].
  assert (Hskip : (match names with
                   | [name] => if String.eqb name ".DS_store"
                               then fs.unlinkSync (Path.join (__dirname proc)
                                                     [".DS_store"%string])
                               else mret tt
                   | _ => mret tt
                   end) = (mret tt : M unit) ∧
                  Nat.eqb (length names) 0 = false).
  { destruct names as [|name [|name' rest]]; [done| |]; simpl.
    - now rewrite Hnames.
    - now split. }
  destruct Hskip as [-> Hlen].
  rewrite (bind_run (mret tt) _ _ _ tt eq_refl).
  rewrite (bind_run _ _ _ _ _
             (readdirSync_dir (__dirname proc) _ (World d1 _ _) Hdir1)).
  fold names. rewrite Hlen. reflexivity.
Qed.

(** The deletion returns when the script is a file, .DS_store beside it is
    no directory, and the script's directory is not the root of the disk or
    holds something the step does not remove. *)
Lemma deleteThisScript_ok (w : world) (c : string) :
  at_ (__filename proc) (disk w) = IsFile c →
  at_ (__dirname proc ++ [".DS_store"%string]) (disk w) ≠ IsDir →
  __dirname proc ≠ [] ∨
    (∃ x, x ≠ scriptName ∧ x ≠ ".DS_store"%string ∧
          at_ (__dirname proc ++ [x]) (disk w) ≠ Absent) →
  ∃ w', deleteThisScript proc w = (Returned tt, w').
Proof.
  intros Hfile Hstore Hroot.
  destruct (truthy (argv2 proc)) eqn:Harg.
  { unfold deleteThisScript. rewrite Harg. eexists. reflexivity. }
  destruct (script_entry _ _ Hfile) as (es & Hdir & Hes).
  set (rest := delete scriptName es).
  assert (Hd : rest = ∅ ∨ (∃ v, rest = {[ ".DS_store"%string := v ]}) →
               __dirname proc ≠ []).
  { intros Hfew. destruct Hroot as [H|(x & Hx1 & Hx2 & Hx)]; [exact H|].
    rewrite (at_script _ _ es) in Hx by exact Hdir.
    assert (Hin : is_Some (rest !! x)).
    { unfold rest. rewrite lookup_delete_ne by congruence.
      destruct (es !! x); [eauto | now destruct Hx]. }
    destruct Hfew as [E | [v E]]; rewrite E in Hin.
    - rewrite lookup_empty in Hin. now destruct Hin.
    - rewrite lookup_singleton_ne in Hin by congruence. now destruct Hin. }
  destruct (decide (rest = ∅)) as [E|Hne].
  { destruct (deleteThisScript_alone proc w es c Harg (Hd (or_introl E)) Hdir Hes E)
      as (d' & Hrun & _). eauto. }
  destruct (rest !! ".DS_store"%string) as [v|] eqn:Es.
  - destruct (decide (delete ".DS_store"%string rest = ∅)) as [E|Hmore].
    + apply (f_equal (insert ".DS_store"%string v)) in E.
      rewrite (insert_delete_id _ _ _ Es), insert_empty in E.
      assert (Hv : ∃ m, v = File m).
      { rewrite (at_script _ _ es) in Hstore by exact Hdir.
        unfold rest in Es. rewrite lookup_delete_ne in Es by discriminate.
        rewrite Es in Hstore. destruct v as [m|]; [eauto | now destruct Hstore]. }
      destruct Hv as [m ->].
      destruct (deleteThisScript_store proc w es c m Harg
                  (Hd (or_intror (ex_intro _ _ E))) Hdir Hes E) as (d' & Hrun & _).
      eauto.
    + destruct (deleteThisScript_others w es c Harg Hdir Hes Hne) as [Hrun _]; [|eauto].
      intros m E. fold rest in E. apply Hmore. rewrite E.
      apply delete_singleton_eq.
  - destruct (deleteThisScript_others w es c Harg Hdir Hes Hne) as [Hrun _]; [|eauto].
    intros m E. fold rest in E. rewrite E, lookup_singleton_eq in Es. discriminate.
Qed.

(** The recommendation is written when .vscode is no file and
    extensions.json in it no directory. *)
Lemma addExtensionRecommendation_ok (w : world) :
  at_ (projectRoot proc) (disk w) = IsDir →
  (∀ c, at_ (projectRoot proc ++ [".vscode"%string]) (disk w) ≠ IsFile c) →
  at_ ((projectRoot proc ++ [".vscode"%string]) ++ ["extensions.json"%string]) (disk w)
  ≠ IsDir →
  ∃ w', addExtensionRecommendation proc w = (Returned tt, w').
Proof.
  intros Hroot Hvs Hext.
  destruct (mkdirSync_child (projectRoot proc) ".vscode" w Hroot Hvs)
    as (d1 & Hmk & Hd1).
  set (q := (projectRoot proc ++ [".vscode"%string]) ++ ["extensions.json"%string]) in *.
  assert (Hkeep : at_ q d1 = at_ q (disk w)).
  { refine (kept (fs.mkdirSync (projectRoot proc ++ [".vscode"%string])) q w
              _ (Returned tt) _ Hmk).
    intros v. apply mkdirSync_keeps. right.
    intros [k Hk]. unfold q in Hk. rewrite <- !app_assoc in Hk.
    apply app_inv_head in Hk. discriminate. }
  destruct (writeFileSync_ok q extensions
              (World d1 (MkdirSync (projectRoot proc ++ [".vscode"%string]) :: journal w)
                     (console w)))
    as (d2 & Hwr & _).
  - apply snoc_nonempty.
  - unfold q. rewrite parent_snoc. exact Hd1.
  - simpl. now rewrite Hkeep.
  - unfold addExtensionRecommendation.
    change (Path.join (projectRoot proc) [".vscode"%string])
      with (projectRoot proc ++ [".vscode"%string]).
    change (Path.join (projectRoot proc) [".vscode"%string; "extensions.json"%string])
      with q.
    rewrite (bind_run _ _ _ _ _ Hmk). eauto.
Qed.

(** The conversion returns on a template that has its four files. *)
Lemma convert_ok (w : world) (text m a cfg : string)
    (props deps scr : list (string * json number)) :
  at_ (packageJSONPath proc) (disk w) = IsFile text →
  JSON_parse text = Some (JObject props) →
  lookupProp props "devDependencies" = Some (JObject deps) →
  lookupProp props "scripts" = Some (JObject scr) →
  at_ (beforeMainJSPath proc) (disk w) = IsFile m →
  at_ (afterMainTSPath proc) (disk w) ≠ IsDir →
  at_ (appSveltePath proc) (disk w) = IsFile a →
  at_ (rollupConfigPath proc) (disk w) = IsFile cfg →
  at_ (tsconfigPath proc) (disk w) ≠ IsDir →
  at_ (svelteConfigPath proc) (disk w) ≠ IsDir →
  at_ (dtsPath proc) (disk w) ≠ IsDir →
  ∃ w7 t, convert proc w = (Returned tt, w7) ∧
          at_ (packageJSONPath proc) (disk w7) = IsFile t.
Proof.
  intros Hfile Hparse Hdeps Hscr Hmain Hnew Happ Hcfg Hts Hsv Hdts.
  (* the manifest *)
  destruct (addDependencies_merges proc w text props deps scr Hfile Hparse Hdeps Hscr)
    as (d1 & S1 & Hpkg).
  set (w1 := World d1 _ _) in S1.
  set (t := JSON_stringify (JObject (mergedManifest props deps scr))) in *.
  change d1 with (disk w1) in Hpkg.
  assert (K1 : ∀ q, q ≠ packageJSONPath proc → at_ q (disk w1) = at_ q (disk w)).
  { intros q Hq. apply (kept (addDependencies proc) q w w1 (Returned tt)); [|exact S1].
    intros v. apply addDependencies_keeps. now right. }
  rewrite <- (K1 (beforeMainJSPath proc)) in Hmain by side.
  rewrite <- (K1 (afterMainTSPath proc)) in Hnew by side.
  rewrite <- (K1 (appSveltePath proc)) in Happ by side.
  rewrite <- (K1 (rollupConfigPath proc)) in Hcfg by side.
  rewrite <- (K1 (tsconfigPath proc)) in Hts by side.
  rewrite <- (K1 (svelteConfigPath proc)) in Hsv by side.
  rewrite <- (K1 (dtsPath proc)) in Hdts by side.
  clearbody w1. clear K1 Hfile.
  (* the rename *)
  destruct (renameMain_ok proc w1 m Hmain Hnew) as (d2 & S2 & _ & Hmoved).
  set (w2 := World d2 _ _) in S2.
  change d2 with (disk w2) in Hmoved.
  assert (K2 : ∀ q, ¬ beforeMainJSPath proc `prefix_of` q →
                    ¬ afterMainTSPath proc `prefix_of` q →
                    at_ q (disk w2) = at_ q (disk w1)).
  { intros q Ha Hb. apply (kept (renameMain proc) q w1 w2 (Returned tt)); [|exact S2].
    intros v. apply renameMain_keeps; auto. }
  rewrite <- (K2 (packageJSONPath proc)) in Hpkg by side.
  rewrite <- (K2 (appSveltePath proc)) in Happ by side.
  rewrite <- (K2 (rollupConfigPath proc)) in Hcfg by side.
  rewrite <- (K2 (tsconfigPath proc)) in Hts by side.
  rewrite <- (K2 (svelteConfigPath proc)) in Hsv by side.
  rewrite <- (K2 (dtsPath proc)) in Hdts by side.
  assert (Hroot : at_ (projectRoot proc) (disk w2) = IsDir).
  { rewrite <- (parent_snoc (projectRoot proc) "package.json").
    apply at_parent; [apply snoc_nonempty|].
    change (projectRoot proc ++ ["package.json"%string]) with (packageJSONPath proc).
    rewrite Hpkg. discriminate. }
  assert (Hsrc : at_ (projectRoot proc ++ ["src"%string]) (disk w2) = IsDir).
  { rewrite <- (parent_snoc (projectRoot proc ++ ["src"%string]) "main.ts").
    apply at_parent; [apply snoc_nonempty|].
    change ((projectRoot proc ++ ["src"%string]) ++ ["main.ts"%string])
      with (afterMainTSPath proc).
    rewrite Hmoved. discriminate. }
  clearbody w2. clear K2 Hmain Hnew Hmoved.
  (* the component *)
  destruct (switchAppToTS_edits proc w2 a Happ) as (d3 & S3 & _).
  set (w3 := World d3 _ _) in S3.
  assert (K3 : ∀ q v, v = IsDir ∨ q ≠ appSveltePath proc →
                      at_ q (disk w2) = v → at_ q (disk w3) = v).
  { intros q v Hq. exact (switchAppToTS_keeps proc q v Hq w2 (Returned tt) w3 S3). }
  apply (K3 _ (IsFile t)) in Hpkg; [|side].
  apply (K3 _ (IsFile cfg)) in Hcfg; [|side].
  apply (K3 _ IsDir) in Hroot; [|side]. apply (K3 _ IsDir) in Hsrc; [|side].
  assert (Hts3 : at_ (tsconfigPath proc) (disk w3) ≠ IsDir).
  { assert (Hq : tsconfigPath proc ≠ appSveltePath proc) by side.
    rewrite (K3 (tsconfigPath proc) (at_ (tsconfigPath proc) (disk w2))
               (or_intror Hq) eq_refl).
    exact Hts. }
  assert (Hsv3 : at_ (svelteConfigPath proc) (disk w3) ≠ IsDir).
  { assert (Hq : svelteConfigPath proc ≠ appSveltePath proc) by side.
    rewrite (K3 (svelteConfigPath proc) (at_ (svelteConfigPath proc) (disk w2))
               (or_intror Hq) eq_refl).
    exact Hsv. }
  assert (Hdts3 : at_ (dtsPath proc) (disk w3) ≠ IsDir).
  { assert (Hq : dtsPath proc ≠ appSveltePath proc) by side.
    rewrite (K3 (dtsPath proc) (at_ (dtsPath proc) (disk w2))
               (or_intror Hq) eq_refl).
    exact Hdts. }
  clearbody w3. clear K3 Happ Hts Hsv Hdts.
  (* the config *)
  destruct (editRollupConfig_edits proc w3 cfg Hcfg) as (d4 & S4 & _).
  set (w4 := World d4 _ _) in S4.
  assert (K4 : ∀ q v, v = IsDir ∨ q ≠ rollupConfigPath proc →
                      at_ q (disk w3) = v → at_ q (disk w4) = v).
  { intros q v Hq. exact (editRollupConfig_keeps proc q v Hq w3 (Returned tt) w4 S4). }
  apply (K4 _ (IsFile t)) in Hpkg; [|side].
  apply (K4 _ IsDir) in Hroot; [|side]. apply (K4 _ IsDir) in Hsrc; [|side].
  assert (Hts4 : at_ (tsconfigPath proc) (disk w4) ≠ IsDir).
  { assert (Hq : tsconfigPath proc ≠ rollupConfigPath proc) by side.
    rewrite (K4 (tsconfigPath proc) (at_ (tsconfigPath proc) (disk w3))
               (or_intror Hq) eq_refl).
    exact Hts3. }
  assert (Hsv4 : at_ (svelteConfigPath proc) (disk w4) ≠ IsDir).
  { assert (Hq : svelteConfigPath proc ≠ rollupConfigPath proc) by side.
    rewrite (K4 (svelteConfigPath proc) (at_ (svelteConfigPath proc) (disk w3))
               (or_intror Hq) eq_refl).
    exact Hsv3. }
  assert (Hdts4 : at_ (dtsPath proc) (disk w4) ≠ IsDir).
  { assert (Hq : dtsPath proc ≠ rollupConfigPath proc) by side.
    rewrite (K4 (dtsPath proc) (at_ (dtsPath proc) (disk w3))
               (or_intror Hq) eq_refl).
    exact Hdts3. }
  clearbody w4. clear K4 Hcfg Hts3 Hsv3 Hdts3.
  (* the three files with a fixed text *)
  destruct (writeFileSync_ok (tsconfigPath proc) tsconfig w4) as (d5 & S5 & _).
  { apply snoc_nonempty. }
  { change (tsconfigPath proc) with (projectRoot proc ++ ["tsconfig.json"%string]).
    now rewrite parent_snoc. }
  { exact Hts4. }
  set (w5 := World d5 _ _) in S5.
  assert (K5 : ∀ q v, v = IsDir ∨ q ≠ tsconfigPath proc →
                      at_ q (disk w4) = v → at_ q (disk w5) = v).
  { intros q v Hq. exact (addTsconfig_keeps proc q v Hq w4 (Returned tt) w5 S5). }
  apply (K5 _ (IsFile t)) in Hpkg; [|side].
  apply (K5 _ IsDir) in Hroot; [|side]. apply (K5 _ IsDir) in Hsrc; [|side].
  assert (Hsv5 : at_ (svelteConfigPath proc) (disk w5) ≠ IsDir).
  { assert (Hq : svelteConfigPath proc ≠ tsconfigPath proc) by side.
    rewrite (K5 (svelteConfigPath proc) (at_ (svelteConfigPath proc) (disk w4))
               (or_intror Hq) eq_refl).
    exact Hsv4. }
  assert (Hdts5 : at_ (dtsPath proc) (disk w5) ≠ IsDir).
  { assert (Hq : dtsPath proc ≠ tsconfigPath proc) by side.
    rewrite (K5 (dtsPath proc) (at_ (dtsPath proc) (disk w4))
               (or_intror Hq) eq_refl).
    exact Hdts4. }
  clearbody w5. clear K5 Hts4 Hsv4 Hdts4.
  destruct (writeFileSync_ok (svelteConfigPath proc) svelteConfig w5) as (d6 & S6 & _).
  { apply snoc_nonempty. }
  { change (svelteConfigPath proc)
      with (projectRoot proc ++ ["svelte.config.js"%string]).
    now rewrite parent_snoc. }
  { exact Hsv5. }
  set (w6 := World d6 _ _) in S6.
  assert (K6 : ∀ q v, v = IsDir ∨ q ≠ svelteConfigPath proc →
                      at_ q (disk w5) = v → at_ q (disk w6) = v).
  { intros q v Hq. exact (addSvelteConfig_keeps proc q v Hq w5 (Returned tt) w6 S6). }
  apply (K6 _ (IsFile t)) in Hpkg; [|side].
  apply (K6 _ IsDir) in Hsrc; [|side].
  assert (Hdts6 : at_ (dtsPath proc) (disk w6) ≠ IsDir).
  { assert (Hq : dtsPath proc ≠ svelteConfigPath proc) by side.
    rewrite (K6 (dtsPath proc) (at_ (dtsPath proc) (disk w5))
               (or_intror Hq) eq_refl).
    exact Hdts5. }
  clearbody w6. clear K6 Hsv5 Hdts5.
  destruct (writeFileSync_ok (dtsPath proc) globalDts w6) as (d7 & S7 & _).
  { apply snoc_nonempty. }
  { change (dtsPath proc)
      with ((projectRoot proc ++ ["src"%string]) ++ ["global.d.ts"%string]).
    now rewrite parent_snoc. }
  { exact Hdts6. }
  set (w7 := World d7 _ _) in S7.
  apply (addGlobalDts_keeps proc (packageJSONPath proc) (IsFile t) ltac:(side)
           w6 (Returned tt) w7 S7) in Hpkg.
  exists w7, t. split; [|exact Hpkg].
  unfold convert.
  rewrite (bind_run _ _ _ _ _ S1), (bind_run _ _ _ _ _ S2), (bind_run _ _ _ _ _ S3).
  rewrite (bind_run _ _ _ _ _ S4), (bind_run _ _ _ _ _ S5), (bind_run _ _ _ _ _ S6).
  exact S7.
Qed.

End Steps.

End SuccessFacts.

(** *** The script's directory over a whole run *)

Module CleanupFacts.
Import JSString Disk DiskFacts DiskMore JSONFacts Effects FsFacts ScriptFacts Script.
Import RunFacts RenameFacts SuccessFacts.
#[local] Open Scope list_scope.

Section Steps.
Context {rt : Runtime} (proc : process).

(** In a run without argument the script lies one step below the
    target. *)
Lemma script_dir_shape :
  truthy (argv2 proc) = false → __dirname proc ≠ [] →
  ∃ d, __dirname proc = projectRoot proc ++ [d].
Proof.
  intros Harg Hne. unfold projectRoot. rewrite Harg.
  destruct (exists_last Hne) as (l & d & E). exists d.
  change (Path.join (__dirname proc) [".."%string]) with (removelast (__dirname proc)).
  now rewrite E, removelast_last.
Qed.

(** A run that returns has found the manifest and src/main.js. *)
Lemma returned_found (w w' : world) :
  setupTypeScript proc w = (Returned tt, w') →
  (∃ text, at_ (packageJSONPath proc) (disk w) = IsFile text) ∧
  at_ (beforeMainJSPath proc) (disk w) ≠ Absent.
Proof.
  intros Hrun. split.
  - apply setupTypeScript_returned in Hrun as (w7 & _ & _ & Hconv & _).
    apply convert_returned in Hconv as (w1 & _ & _ & _ & _ & _ & Hadd & _).
    unfold addDependencies in Hadd.
    apply bind_returned in Hadd as (text & w0 & Hread & _).
    apply readFileSync_returned in Hread as [Hfile _]. eauto.
  - intros Habs.
    destruct (setupTypeScript_without_main proc w Habs) as (e & w2 & E & _).
    congruence.
Qed.

(** A directory that holds files only, seen through its entries. *)
Lemma same_entries (d d' : node) (es es' : gmap string node) :
  lookup (__dirname proc) d = Some (Dir es) →
  lookup (__dirname proc) d' = Some (Dir es') →
  (∀ x, es !! x = None ∨ ∃ c, es !! x = Some (File c)) →
  (∀ x, at_ (__dirname proc ++ [x]) d' = at_ (__dirname proc ++ [x]) d) →
  es' = es.
Proof.
  intros Hd Hd' Hfiles Hsame. apply map_eq. intros x.
  specialize (Hsame x).
  rewrite (at_script _ _ es' x Hd'), (at_script _ _ es x Hd) in Hsame.
  destruct (Hfiles x) as [E|[c E]]; rewrite E in Hsame |- *;
    destruct (es' !! x) as [[?|?]|]; simpl in Hsame; congruence.
Qed.

(** A directory with the script alone, or the script and a file
    .DS_store, is not the target, nor its src, and the conversion leaves
    its entries as they are. *)
Lemma script_dir_untouched (w w7 w' : world) (es : gmap string node) :
  truthy (argv2 proc) = false →
  setupTypeScript proc w = (Returned tt, w') →
  convert proc w = (Returned tt, w7) →
  lookup (__dirname proc) (disk w) = Some (Dir es) →
  (∀ x, x ≠ scriptName → x ≠ ".DS_store"%string → es !! x = None) →
  __dirname proc ≠ [] ∧
  ∀ x, at_ (__dirname proc ++ [x]) (disk w7) = at_ (__dirname proc ++ [x]) (disk w).
Proof.
  intros Harg Hrun Hconv Hdir Hnone.
  destruct (returned_found w w' Hrun) as [[text Hpkg] Hmain].
  assert (Hne : __dirname proc ≠ []).
  { intros Hnil.
    assert (Hp : packageJSONPath proc = __dirname proc ++ ["package.json"%string]).
    { unfold packageJSONPath, projectRoot. now rewrite Harg, Hnil. }
    rewrite Hp, (at_script _ _ es _ Hdir) in Hpkg.
    now rewrite Hnone in Hpkg by discriminate. }
  split; [exact Hne|].
  destruct (script_dir_shape Harg Hne) as [d Hd].
  assert (Hsrc : d ≠ "src"%string).
  { intros ->. apply Hmain.
    change (beforeMainJSPath proc)
      with ((projectRoot proc ++ ["src"%string]) ++ ["main.js"%string]).
    rewrite <- Hd, (at_script _ _ es _ Hdir).
    now rewrite Hnone by discriminate. }
  intros x. apply (kept (convert proc) _ w w7 (Returned tt)); [|exact Hconv].
  rewrite Hd.
  assert (Hone : ∀ y : string,
            (projectRoot proc ++ [d]) ++ [x] ≠ projectRoot proc ++ [y]).
  { intros y H. rewrite <- app_assoc in H. apply app_inv_head in H. discriminate. }
  assert (Htwo : ∀ y : string,
            ¬ ((projectRoot proc ++ ["src"%string]) ++ [y])
              `prefix_of` (projectRoot proc ++ [d]) ++ [x]).
  { intros y [k Hk]. rewrite <- !app_assoc in Hk. apply app_inv_head in Hk.
    simpl in Hk. congruence. }
  assert (Hthree : ∀ y : string,
            (projectRoot proc ++ [d]) ++ [x]
            ≠ (projectRoot proc ++ ["src"%string]) ++ [y]).
  { intros y H. apply (Htwo y). now rewrite H. }
  apply convert_keeps.
  - apply (Hone "package.json"%string).
  - apply (Htwo "main.js"%string).
  - apply (Htwo "main.ts"%string).
  - apply (Hthree "App.svelte"%string).
  - apply (Hone "rollup.config.js"%string).
  - apply (Hone "tsconfig.json"%string).
  - apply (Hone "svelte.config.js"%string).
  - apply (Hthree "global.d.ts"%string).
Qed.

End Steps.

End CleanupFacts.

(** *** Properties *)

Import ConsoleFacts DiskMore RunFacts.

(** X1. The target directory does not hold the script, so the run was
    given a target, and the manifest of the target is not the one that Node
    reads to load the script. That manifest cannot be read as JSON: it is
    missing, it is a directory, or its text does not parse. The run throws at
    once, with the system error of the read or a SyntaxError: the disk is as
    it was, the read of the manifest is the only call made, and nothing is
    printed. *)
Theorem manifest_unreadable_stops_run `{rt : Runtime} (proc : process) (w : world) :
  ¬ projectRoot proc `prefix_of` __dirname proc →
  (∀ text, at_ (packageJSONPath proc) (disk w) = IsFile text → JSON_parse text = None) →
  truthy (argv2 proc) = true ∧
  ∃ e w', setupTypeScript proc w = (Thrown e, w') ∧
          match at_ (packageJSONPath proc) (disk w) with
          | Absent => e = SystemError ENOENT ∨ e = SystemError ENOTDIR
          | IsDir => e = SystemError EISDIR
          | IsFile _ => e = SyntaxError
          end ∧
          disk w' = disk w ∧
          journal w' = ReadFileSync (packageJSONPath proc) :: journal w ∧
          console w' = console w.
Proof.
  intros Hout Hbad. split.
  - destruct (truthy (argv2 proc)) eqn:Harg; [reflexivity|].
    destruct Hout. unfold projectRoot. rewrite Harg.
    exact (parent_prefix (__dirname proc)).
  - destruct (addDependencies_unreadable proc w Hbad) as (e & Hrun & He).
    exists e, (logged (ReadFileSync (packageJSONPath proc)) w).
    split; [|split; [exact He | repeat split]].
    now apply setupTypeScript_stops_in_convert, convert_stops_at_manifest.
Qed.

Lemma manifest_unreadable_stops_run_witness :
  (∃ e w', setupTypeScript Sample.onClone Sample.cloneWithoutManifest = (Thrown e, w') ∧
           (e = SystemError ENOENT ∨ e = SystemError ENOTDIR) ∧
           disk w' = disk Sample.cloneWithoutManifest) ∧
  (∃ w', setupTypeScript Sample.onClone Sample.cloneBrokenManifest
         = (Thrown SyntaxError, w') ∧
         disk w' = disk Sample.cloneBrokenManifest).
Proof.
  assert (Hout : ¬ projectRoot Sample.onClone `prefix_of` __dirname Sample.onClone).
  { intros [k Hk]. discriminate Hk. }
  split.
  - destruct (manifest_unreadable_stops_run (rt := SampleRuntime.runtime)
                Sample.onClone Sample.cloneWithoutManifest Hout)
      as (_ & e & w' & Hrun & He & Hd & _).
    + intros text H. exfalso. revert H. vm_compute. discriminate.
    + exists e, w'. split; [exact Hrun|]. split; [exact He | exact Hd].
  - destruct (manifest_unreadable_stops_run (rt := SampleRuntime.runtime)
                Sample.onClone Sample.cloneBrokenManifest Hout)
      as (_ & e & w' & Hrun & He & Hd & _).
    + intros text H.
      assert (Ht : text = "{ name: svelte-app }").
      { revert H. vm_compute. congruence. }
      subst text. vm_compute. reflexivity.
    + assert (E : e = SyntaxError) by exact He. subst e.
      exists w'. split; [exact Hrun | exact Hd].
Defined.

(** X2. On every run that returns, tsconfig.json and svelte.config.js of
    the target directory hold the texts of the script, whatever they held
    before. *)
Theorem config_files_written `{rt : Runtime} (proc : process) (w w' : world) :
  setupTypeScript proc w = (Returned tt, w') →
  at_ (tsconfigPath proc) (disk w') = IsFile tsconfig ∧
  at_ (svelteConfigPath proc) (disk w') = IsFile svelteConfig.
Proof.
  intros Hrun.
  apply setupTypeScript_cases in Hrun as [(e & _ & He)|(w7 & Hconv & Hfin)];
    [discriminate|].
  apply convert_returned in Hconv
    as (w1 & w2 & w3 & w4 & w5 & w6 & _ & _ & _ & _ & Hts & Hsv & Hdts).
  pose proof (writeFileSync_returned _ _ _ _ Hts) as H5.
  pose proof (writeFileSync_returned _ _ _ _ Hsv) as H6.
  split.
  - set (q := tsconfigPath proc) in *. set (v := IsFile tsconfig) in *.
    apply (addSvelteConfig_keeps proc q v ltac:(subst q v; side) _ _ _ Hsv) in H5.
    apply (addGlobalDts_keeps proc q v ltac:(subst q v; side) _ _ _ Hdts) in H5.
    exact (finish_keeps proc q v ltac:(subst q v; side) ltac:(subst q v; side)
             ltac:(subst q v; side) _ _ _ Hfin H5).
  - set (q := svelteConfigPath proc) in *. set (v := IsFile svelteConfig) in *.
    apply (addGlobalDts_keeps proc q v ltac:(subst q v; side) _ _ _ Hdts) in H6.
    exact (finish_keeps proc q v ltac:(subst q v; side) ltac:(subst q v; side)
             ltac:(subst q v; side) _ _ _ Hfin H6).
Qed.

Lemma config_files_written_witness :
  at_ (tsconfigPath Sample.inPlace) (disk (setupTypeScript Sample.inPlace Sample.start).2)
  = IsFile tsconfig ∧
  at_ (svelteConfigPath Sample.inPlace) (disk (setupTypeScript Sample.inPlace Sample.start).2)
  = IsFile svelteConfig.
Proof.
  apply (config_files_written (rt := SampleRuntime.runtime) Sample.inPlace Sample.start).
  vm_compute. reflexivity.
Defined.

(** X3. On every run that returns, .vscode of the target directory is a
    directory and .vscode/extensions.json holds the recommendation of the
    script, whether or not the directory or the file existed before. *)
Theorem extension_recommendation_written `{rt : Runtime} (proc : process)
    (w w' : world) :
  setupTypeScript proc w = (Returned tt, w') →
  at_ (projectRoot proc ++ [".vscode"])%list (disk w') = IsDir ∧
  at_ (projectRoot proc ++ [".vscode"; "extensions.json"])%list (disk w')
  = IsFile extensions.
Proof.
  intros Hrun.
  apply setupTypeScript_returned in Hrun as (w7 & w8 & w9 & _ & _ & Hext & Hrep).
  apply addExtensionRecommendation_returned in Hext as [Hdir Hfile].
  rewrite <- app_assoc in Hfile. simpl in Hfile.
  split.
  - exact (report_keeps proc (shows _ _) _ _ _ Hrep Hdir).
  - exact (report_keeps proc (shows _ _) _ _ _ Hrep Hfile).
Qed.

Lemma extension_recommendation_written_witness :
  at_ ["work"; "template"; ".vscode"]
      (disk (setupTypeScript Sample.inPlace Sample.startWithSettings).2) = IsDir ∧
  at_ ["work"; "template"; ".vscode"; "extensions.json"]
      (disk (setupTypeScript Sample.inPlace Sample.startWithSettings).2)
  = IsFile extensions.
Proof.
  apply (extension_recommendation_written (rt := SampleRuntime.runtime)
           Sample.inPlace Sample.startWithSettings).
  vm_compute. reflexivity.
Defined.

(** X4. A file named .vscode lies in the target directory: the run never
    returns and prints nothing. When the conversion and the deletion of the
    script return, the run throws EEXIST at the making of the directory and
    leaves the disk as those steps left it: converted, and in a run without
    argument without the script. *)
Theorem vscode_file_stops_run `{rt : Runtime} (proc : process) (w w' : world)
    (r : outcome unit) (c : string) :
  at_ (projectRoot proc ++ [".vscode"])%list (disk w) = IsFile c →
  setupTypeScript proc w = (r, w') →
  (∃ e, r = Thrown e) ∧
  console w' = console w ∧
  (∀ w8, (convert proc ;; deleteThisScript proc) w = (Returned tt, w8) →
         r = Thrown (SystemError EEXIST) ∧ disk w' = disk w8).
Proof.
  intros Hfile Hrun.
  set (q := (projectRoot proc ++ [".vscode"])%list) in *. set (v := IsFile c) in *.
  assert (Hkeep : preserves (shows q v) (convert proc ;; deleteThisScript proc)).
  { unfold convert.
    apply preserves_bind; [|intros _; apply deleteThisScript_keeps; subst q v; side].
    apply preserves_bind; [apply addDependencies_keeps; subst q v; side | intros _].
    apply convert_tail_keeps; subst q v; side. }
  assert (Hsplit : setupTypeScript proc w
                   = ((convert proc ;; deleteThisScript proc) ;;
                      addExtensionRecommendation proc ;; report proc) w).
  { unfold setupTypeScript, mbind, M_bind.
    destruct (convert proc w) as [[[]|e] w1]; [|reflexivity].
    now destruct (deleteThisScript proc w1) as [[[]|e] w2]. }
  assert (Hstop : ∀ w8, at_ q (disk w8) = v →
            (addExtensionRecommendation proc ;; report proc) w8
            = (Thrown (SystemError EEXIST), logged (MkdirSync q) w8)).
  { intros w8 H8. apply bind_thrown. unfold addExtensionRecommendation.
    apply bind_thrown. now apply (mkdirSync_onto_file q c). }
  rewrite Hsplit in Hrun.
  destruct ((convert proc ;; deleteThisScript proc) w) as [[[]|e] w8] eqn:Hwork.
  - rewrite (bind_run _ _ _ _ _ Hwork) in Hrun.
    rewrite (Hstop w8 (Hkeep _ _ _ Hwork Hfile)) in Hrun.
    injection Hrun as <- <-. split; [eauto|]. split.
    + simpl. apply (silent_bind _ _ (convert_silent proc)
                      (λ _, deleteThisScript_silent proc) _ _ _ Hwork).
    + intros w0 E. injection E as <-. now split.
  - rewrite (bind_thrown _ _ _ _ _ Hwork) in Hrun. injection Hrun as <- <-.
    split; [eauto|]. split; [|discriminate].
    apply (silent_bind _ _ (convert_silent proc)
             (λ _, deleteThisScript_silent proc) _ _ _ Hwork).
Qed.

Lemma vscode_file_stops_run_witness :
  (setupTypeScript Sample.inPlace Sample.startWithVscodeFile).1
  = Thrown (SystemError EEXIST) ∧
  console (setupTypeScript Sample.inPlace Sample.startWithVscodeFile).2 = [] ∧
  at_ (__filename Sample.inPlace)
      (disk (setupTypeScript Sample.inPlace Sample.startWithVscodeFile).2) = Absent.
Proof.
  destruct (vscode_file_stops_run (rt := SampleRuntime.runtime)
              Sample.inPlace Sample.startWithVscodeFile
              (setupTypeScript Sample.inPlace Sample.startWithVscodeFile).2
              (setupTypeScript Sample.inPlace Sample.startWithVscodeFile).1 "")
    as (_ & Hc & Hend); [vm_compute; reflexivity .. |].
  destruct (Hend ((convert Sample.inPlace ;; deleteThisScript Sample.inPlace)
                    Sample.startWithVscodeFile).2) as [Hr Hd];
    [vm_compute; reflexivity|].
  split; [exact Hr|]. split; [exact Hc|].
  rewrite Hd. vm_compute. reflexivity.
Defined.

(** X5. What the run prints. A run that returns has printed the line
    [Converted to TypeScript.] and after it, when node_modules exists in the
    target directory, the line that asks to re-run the dependency manager;
    it has printed nothing else. A run that throws has printed nothing. *)
Theorem messages_printed `{rt : Runtime} (proc : process) (w w' : world)
    (r : outcome unit) :
  setupTypeScript proc w = (r, w') →
  (r = Returned tt →
   console w'
   = (console w ++ converted ::
        if exists_ (Path.join (projectRoot proc) ["node_modules"]) (disk w')
        then [rerunHint] else [])%list) ∧
  (∀ e, r = Thrown e → console w' = console w).
Proof.
  intros Hrun. rewrite setupTypeScript_work in Hrun.
  apply bind_cases in Hrun as [(e & Hwork & ->)|([] & w9 & Hwork & Hrep)].
  - split; [discriminate|]. intros _ _. exact (work_silent proc _ _ _ Hwork).
  - rewrite report_run in Hrep. injection Hrep as <- <-.
    split; [|discriminate]. intros _. cbn [console disk].
    now rewrite (work_silent proc _ _ _ Hwork).
Qed.

Lemma messages_printed_witness :
  console (setupTypeScript Sample.inPlace Sample.startInstalled).2
  = [converted; rerunHint] ∧
  console (setupTypeScript Sample.inPlace Sample.start).2 = [converted] ∧
  console (setupTypeScript Sample.inPlace Sample.startWithoutApp).2 = [].
Proof.
  split; [|split].
  - destruct (messages_printed (rt := SampleRuntime.runtime)
                Sample.inPlace Sample.startInstalled
                (setupTypeScript Sample.inPlace Sample.startInstalled).2
                (setupTypeScript Sample.inPlace Sample.startInstalled).1)
      as [H _]; [vm_compute; reflexivity|].
    rewrite H; [|vm_compute; reflexivity]. vm_compute. reflexivity.
  - destruct (messages_printed (rt := SampleRuntime.runtime)
                Sample.inPlace Sample.start
                (setupTypeScript Sample.inPlace Sample.start).2
                (setupTypeScript Sample.inPlace Sample.start).1)
      as [H _]; [vm_compute; reflexivity|].
    rewrite H; [|vm_compute; reflexivity]. vm_compute. reflexivity.
  - destruct (messages_printed (rt := SampleRuntime.runtime)
                Sample.inPlace Sample.startWithoutApp
                (setupTypeScript Sample.inPlace Sample.startWithoutApp).2
                (setupTypeScript Sample.inPlace Sample.startWithoutApp).1)
      as [_ H]; [vm_compute; reflexivity|].
    rewrite (H (SystemError ENOENT)); vm_compute; reflexivity.
Defined.

(** X6. What the run leaves alone, whether it returns or throws. A file
    other than the eight the script writes keeps its content, and a
    directory stays a directory, unless it lies at or below src/main.js,
    which the rename moves, or, in a run without argument, is the script,
    the file .DS_store beside it, or the script's directory. *)
Theorem other_files_untouched `{rt : Runtime} (proc : process) (w w' : world)
    (r : outcome unit) (q : path) :
  setupTypeScript proc w = (r, w') →
  ¬ beforeMainJSPath proc `prefix_of` q →
  truthy (argv2 proc) = true ∨
    (q ≠ __filename proc ∧ q ≠ (__dirname proc ++ [".DS_store"])%list ∧
     q ≠ __dirname proc) →
  (∀ c, at_ q (disk w) = IsFile c →
        q ∉ [ packageJSONPath proc; afterMainTSPath proc; appSveltePath proc;
              rollupConfigPath proc; tsconfigPath proc; svelteConfigPath proc;
              dtsPath proc;
              (projectRoot proc ++ [".vscode"; "extensions.json"])%list ] →
        at_ q (disk w') = IsFile c) ∧
  (at_ q (disk w) = IsDir → at_ q (disk w') = IsDir).
Proof.
  intros Hrun Hmain Hown.
  assert (Hdel : ∀ v, truthy (argv2 proc) = true ∨
            (q ≠ __filename proc ∧ q ≠ (__dirname proc ++ [".DS_store"])%list ∧
             (v ≠ IsDir ∨ q ≠ __dirname proc))).
  { intros v. destruct Hown as [H|(H1 & H2 & H3)]; [now left | right; auto]. }
  split.
  - intros c Hc Hq.
    repeat (apply not_elem_of_cons in Hq as [? Hq]).
    refine (setupTypeScript_keeps proc q (IsFile c) _ _ _ _ _ _ _ _ _ _ _ w r w' Hrun Hc);
      try (right; assumption); try assumption.
    + right. left. split; [discriminate | assumption].
    + apply Hdel.
    + left. discriminate.
    + right. now rewrite <- app_assoc.
  - intros Hd.
    refine (setupTypeScript_keeps proc q IsDir _ _ _ _ _ _ _ _ _ _ _ w r w' Hrun Hd);
      try (left; reflexivity); try assumption.
    + apply Hdel.
    + left. discriminate.
Qed.

Lemma other_files_untouched_witness :
  at_ ["work"; "template"; "README.md"]
      (disk (setupTypeScript Sample.inPlace Sample.startInstalled).2)
  = IsFile "# svelte app" ∧
  at_ ["work"; "template"; "node_modules"]
      (disk (setupTypeScript Sample.inPlace Sample.startInstalled).2) = IsDir.
Proof.
  destruct (other_files_untouched (rt := SampleRuntime.runtime)
              Sample.inPlace Sample.startInstalled
              (setupTypeScript Sample.inPlace Sample.startInstalled).2
              (setupTypeScript Sample.inPlace Sample.startInstalled).1
              ["work"; "template"; "README.md"]) as [Hfile _].
  { vm_compute. reflexivity. }
  { intros [k Hk]. discriminate Hk. }
  { right. repeat split; discriminate. }
  destruct (other_files_untouched (rt := SampleRuntime.runtime)
              Sample.inPlace Sample.startInstalled
              (setupTypeScript Sample.inPlace Sample.startInstalled).2
              (setupTypeScript Sample.inPlace Sample.startInstalled).1
              ["work"; "template"; "node_modules"]) as [_ Hdir].
  { vm_compute. reflexivity. }
  { intros [k Hk]. discriminate Hk. }
  { right. repeat split; discriminate. }
  split.
  - apply Hfile; [vm_compute; reflexivity|].
    apply (bool_decide_unpack _). vm_compute. exact I.
  - apply Hdir. vm_compute. reflexivity.
Defined.

(** X7. The script cannot be run twice. After a run that returns, a
    second run on the disk it left throws, at the rename at the latest,
    since src/main.js is gone; of all paths only package.json can differ
    after it, so rollup.config.js and App.svelte are not edited again. *)
Theorem second_run_throws `{rt : Runtime} (proc : process) (w w1 : world) :
  setupTypeScript proc w = (Returned tt, w1) →
  ∃ e w2, setupTypeScript proc w1 = (Thrown e, w2) ∧
          ∀ q, q ≠ packageJSONPath proc → at_ q (disk w2) = at_ q (disk w1).
Proof.
  intros Hrun. apply RenameFacts.setupTypeScript_without_main.
  exact (RenameFacts.main_js_gone proc w w1 Hrun).
Qed.

Lemma second_run_throws_witness :
  ∃ e w2, setupTypeScript Sample.withArgument
            (setupTypeScript Sample.withArgument Sample.start).2 = (Thrown e, w2) ∧
          at_ (rollupConfigPath Sample.withArgument) (disk w2)
          = IsFile (rollupConfigEdits Sample.rollupConfig).
Proof.
  destruct (second_run_throws (rt := SampleRuntime.runtime)
              Sample.withArgument Sample.start
              (setupTypeScript Sample.withArgument Sample.start).2)
    as (e & w2 & Hrun & Hsame); [vm_compute; reflexivity|].
  exists e, w2. split; [exact Hrun|].
  rewrite Hsame by discriminate. vm_compute. reflexivity.
Defined.

(** X8. Nothing is rolled back. In a project with a manifest that holds
    the two maps and with src/main.js, but without src/App.svelte, the run
    throws ENOENT at the read of the component and prints nothing; the
    manifest is merged and src/main.js is renamed all the same, and
    rollup.config.js is as it was. *)
Theorem missing_component_half_converts `{rt : Runtime} (proc : process) (w : world)
    (text m : string) (props deps scr : list (string * json number)) :
  at_ (packageJSONPath proc) (disk w) = IsFile text →
  JSON_parse text = Some (JObject props) →
  lookupProp props "devDependencies" = Some (JObject deps) →
  lookupProp props "scripts" = Some (JObject scr) →
  at_ (beforeMainJSPath proc) (disk w) = IsFile m →
  at_ (afterMainTSPath proc) (disk w) ≠ IsDir →
  at_ (appSveltePath proc) (disk w) = Absent →
  ∃ w', setupTypeScript proc w = (Thrown (SystemError ENOENT), w') ∧
        at_ (packageJSONPath proc) (disk w')
        = IsFile (JSON_stringify (JObject (mergedManifest props deps scr))) ∧
        at_ (beforeMainJSPath proc) (disk w') = Absent ∧
        at_ (afterMainTSPath proc) (disk w') = IsFile m ∧
        at_ (rollupConfigPath proc) (disk w') = at_ (rollupConfigPath proc) (disk w) ∧
        console w' = console w.
Proof.
  intros Hfile Hparse Hdeps Hscr Hmain Hts Happ.
  destruct (addDependencies_merges proc w text props deps scr Hfile Hparse Hdeps Hscr)
    as (d1 & Hadd & Hd1).
  set (w1 := World d1 _ _) in Hadd.
  pose proof (addDependencies_keeps proc (beforeMainJSPath proc) (IsFile m)
                ltac:(side) _ _ _ Hadd Hmain) as Hmain1.
  pose proof (addDependencies_keeps proc (afterMainTSPath proc)
                (at_ (afterMainTSPath proc) (disk w))
                ltac:(side) _ _ _ Hadd eq_refl) as Hts1.
  pose proof (addDependencies_keeps proc (appSveltePath proc) Absent
                ltac:(side) _ _ _ Hadd Happ) as Happ1.
  pose proof (addDependencies_keeps proc (rollupConfigPath proc)
                (at_ (rollupConfigPath proc) (disk w))
                ltac:(side) _ _ _ Hadd eq_refl) as Hroll1.
  destruct (RenameFacts.renameMain_ok proc w1 m Hmain1) as (d2 & Hren & Hgone & Hnew).
  { rewrite Hts1. exact Hts. }
  set (w2 := World d2 _ _) in Hren.
  pose proof (renameMain_keeps proc (appSveltePath proc) Absent
                ltac:(side) ltac:(side) _ _ _ Hren Happ1) as Happ2.
  pose proof (renameMain_keeps proc (rollupConfigPath proc)
                (at_ (rollupConfigPath proc) (disk w))
                ltac:(side) ltac:(side) _ _ _ Hren Hroll1) as Hroll2.
  pose proof (renameMain_keeps proc (packageJSONPath proc)
                (IsFile (JSON_stringify (JObject (mergedManifest props deps scr))))
                ltac:(side) ltac:(side) _ _ _ Hren Hd1) as Hpkg2.
  assert (Hsrc : at_ (projectRoot proc ++ ["src"])%list (disk w2) = IsDir).
  { rewrite <- (parent_snoc (projectRoot proc ++ ["src"])%list "main.ts").
    apply at_parent; [apply snoc_nonempty|].
    change ((projectRoot proc ++ ["src"]) ++ ["main.ts"])%list
      with (afterMainTSPath proc).
    simpl. rewrite Hnew. discriminate. }
  exists (logged (ReadFileSync (appSveltePath proc)) w2).
  split; [|repeat split; assumption].
  unfold setupTypeScript, convert. apply bind_thrown.
  rewrite (bind_run _ _ _ _ _ Hadd), (bind_run _ _ _ _ _ Hren).
  apply bind_thrown. unfold switchAppToTS. apply bind_thrown.
  exact (readFileSync_no_child (projectRoot proc ++ ["src"])%list "App.svelte" w2
           Hsrc Happ2).
Qed.

Lemma missing_component_half_converts_witness :
  ∃ w', setupTypeScript Sample.inPlace Sample.startWithoutApp
        = (Thrown (SystemError ENOENT), w') ∧
        at_ (beforeMainJSPath Sample.inPlace) (disk w') = Absent ∧
        at_ (afterMainTSPath Sample.inPlace) (disk w') = IsFile Sample.mainJS ∧
        at_ (rollupConfigPath Sample.inPlace) (disk w') = IsFile Sample.rollupConfig ∧
        console w' = [].
Proof.
  destruct (missing_component_half_converts (rt := SampleRuntime.runtime)
              Sample.inPlace Sample.startWithoutApp
              Sample.packageJSON Sample.mainJS Sample.manifestProps
              Sample.manifestDependencies Sample.manifestScripts)
    as (w' & Hrun & _ & Hgone & Hnew & Hroll & Hcon);
    [vm_compute; reflexivity .. | vm_compute; discriminate | vm_compute; reflexivity |].
  exists w'. split; [exact Hrun|]. split; [exact Hgone|]. split; [exact Hnew|].
  split; [|exact Hcon]. rewrite Hroll. vm_compute. reflexivity.
Defined.

(** X9. The four edits of rollup.config.js act one by one, on any text:
    each adds its text once when its own anchor occurs and nothing when it
    does not, whatever the other anchors do; the edit of the entry point
    takes one ['src/main.js'] away; and the text comes out unchanged exactly
    when none of the four anchors occurs in it. *)
Theorem rollup_edits_independent (s : string) :
  let r := rollupConfigEdits s in
  let added (anchor : string) := if includes anchor s then 1 else 0 in
  occurrences tsImports r = occurrences tsImports s + added cssImport ∧
  occurrences entryTS r = occurrences entryTS s + added entryJS ∧
  occurrences preprocessLine r = occurrences preprocessLine s + added compilerOptions ∧
  occurrences typescriptCall r = occurrences typescriptCall s + added commonjsCall ∧
  occurrences entryJS r = occurrences entryJS s - added entryJS ∧
  (r = s ↔ includes cssImport s = false ∧ includes entryJS s = false ∧
           includes compilerOptions s = false ∧ includes commonjsCall s = false).
Proof.
  intros r added. subst r added. cbv beta.
  assert (H1 : occurrences tsImports (rollupConfigEdits s)
               = occurrences tsImports s + (if includes cssImport s then 1 else 0)).
  { destruct (includes cssImport s) eqn:E.
    - rewrite (tsImports_added s E). lia.
    - rewrite (TextMore.tsImports_kept s E). lia. }
  assert (H2 : occurrences entryTS (rollupConfigEdits s)
               = occurrences entryTS s + (if includes entryJS s then 1 else 0)).
  { destruct (includes entryJS s) eqn:E.
    - rewrite (entryTS_added s E). lia.
    - rewrite (TextMore.entryTS_kept s E). lia. }
  assert (H3 : occurrences preprocessLine (rollupConfigEdits s)
               = occurrences preprocessLine s
                 + (if includes compilerOptions s then 1 else 0)).
  { destruct (includes compilerOptions s) eqn:E.
    - rewrite (preprocessLine_added s E). lia.
    - rewrite (TextMore.preprocessLine_kept s E). lia. }
  assert (H4 : occurrences typescriptCall (rollupConfigEdits s)
               = occurrences typescriptCall s
                 + (if includes commonjsCall s then 1 else 0)).
  { destruct (includes commonjsCall s) eqn:E.
    - rewrite (typescriptCall_added s E). lia.
    - rewrite (TextMore.typescriptCall_kept s E). lia. }
  split; [exact H1|]. split; [exact H2|]. split; [exact H3|]. split; [exact H4|].
  split; [apply TextMore.entryJS_taken|]. split.
  - intros E. rewrite E in H1, H2, H3, H4.
    destruct (includes cssImport s); [lia|].
    destruct (includes entryJS s); [lia|].
    destruct (includes compilerOptions s); [lia|].
    destruct (includes commonjsCall s); [lia|]. auto.
  - intros (A1 & A2 & A3 & A4). now apply TextMore.rollupConfigEdits_absent.
Qed.

Lemma rollup_edits_independent_witness :
  occurrences tsImports (rollupConfigEdits Sample.otherConfig) = 1 ∧
  occurrences entryTS (rollupConfigEdits Sample.otherConfig) = 0 ∧
  occurrences preprocessLine (rollupConfigEdits Sample.otherConfig) = 0 ∧
  occurrences typescriptCall (rollupConfigEdits Sample.otherConfig) = 0.
Proof.
  destruct (rollup_edits_independent Sample.otherConfig)
    as (H1 & H2 & H3 & H4 & _).
  split; [rewrite H1; vm_compute; reflexivity|].
  split; [rewrite H2; vm_compute; reflexivity|].
  split; [rewrite H3; vm_compute; reflexivity|].
  rewrite H4; vm_compute; reflexivity.
Defined.

(** X10. The two edits of App.svelte act one by one, on any text: each
    replaces one occurrence of its pattern when there is one, whatever the
    other pattern does, and the text comes out unchanged exactly when
    neither pattern occurs. The new texts do not hold the patterns: for a
    component in which each pattern occurs at most once, the edits of the
    edited text change nothing more. *)
Theorem app_edits_independent (s : string) :
  let r := appFileEdits s in
  let changed (old : string) := if includes old s then 1 else 0 in
  occurrences scriptTagTS r = occurrences scriptTagTS s + changed scriptTag ∧
  occurrences namePropTS r = occurrences namePropTS s + changed nameProp ∧
  occurrences scriptTag r = occurrences scriptTag s - changed scriptTag ∧
  occurrences nameProp r = occurrences nameProp s - changed nameProp ∧
  (r = s ↔ includes scriptTag s = false ∧ includes nameProp s = false) ∧
  ((occurrences scriptTag s ≤ 1)%nat → (occurrences nameProp s ≤ 1)%nat →
   appFileEdits r = r).
Proof.
  intros r changed. subst r changed. cbv beta.
  pose proof (TextMore.scriptTagTS_moved s) as H1.
  pose proof (TextMore.namePropTS_moved s) as H2.
  pose proof (TextMore.scriptTag_moved s) as H3.
  pose proof (TextMore.nameProp_moved s) as H4.
  split; [exact H1|]. split; [exact H2|]. split; [exact H3|]. split; [exact H4|].
  split; [split|].
  - intros E. rewrite E in H1, H2.
    destruct (includes scriptTag s); [lia|].
    destruct (includes nameProp s); [lia|]. auto.
  - intros [A1 A2]. now apply appFileEdits_absent.
  - intros B1 B2. apply appFileEdits_absent; apply TextMore.not_included.
    + rewrite H3. pose proof (includes_occurrences scriptTag s) as Hi.
      destruct (includes scriptTag s); [lia|].
      destruct (occurrences scriptTag s); [reflexivity|].
      now destruct Hi as [_ Hi]; specialize (Hi ltac:(lia)).
    + rewrite H4. pose proof (includes_occurrences nameProp s) as Hi.
      destruct (includes nameProp s); [lia|].
      destruct (occurrences nameProp s); [reflexivity|].
      now destruct Hi as [_ Hi]; specialize (Hi ltac:(lia)).
Qed.

Lemma app_edits_independent_witness :
  appFileEdits (appFileEdits Sample.appSvelte) = appFileEdits Sample.appSvelte ∧
  occurrences scriptTag (appFileEdits Sample.appSvelte) = 0.
Proof.
  destruct (app_edits_independent Sample.appSvelte) as (_ & _ & H3 & _ & _ & Hidem).
  split.
  - apply Hidem; vm_compute; lia.
  - rewrite H3. vm_compute. reflexivity.
Defined.

(** X11. The manifest is an object in which devDependencies or scripts is
    not an object. If one of the two is null the run throws a TypeError
    before any write, as it does when the key is missing. If
    devDependencies is a text, a number, a boolean or an array (and scripts
    is not null), nothing is thrown: [Object.assign] returns a value that
    prints as before, so the manifest written back has its old
    devDependencies, none of the six entries is added, and every key other
    than scripts has its old value. *)
Theorem manifest_maps_of_other_types `{rt : Runtime} (proc : process) (w : world)
    (text : string) (props : list (string * json number)) (x y : json number) :
  at_ (packageJSONPath proc) (disk w) = IsFile text →
  JSON_parse text = Some (JObject props) →
  lookupProp props "devDependencies" = Some x →
  lookupProp props "scripts" = Some y →
  (x = JNull ∨ y = JNull →
   ∃ w', setupTypeScript proc w = (Thrown TypeError, w') ∧
         disk w' = disk w ∧
         journal w' = ReadFileSync (packageJSONPath proc) :: journal w) ∧
  (x ≠ JNull → y ≠ JNull → (∀ deps, x ≠ JObject deps) →
   ∀ r w', setupTypeScript proc w = (r, w') →
     ∃ props',
       at_ (packageJSONPath proc) (disk w') = IsFile (JSON_stringify (JObject props')) ∧
       map fst props' = map fst props ∧
       lookupProp props' "devDependencies" = Some x ∧
       ∀ k, k ≠ "scripts" → lookupProp props' k = lookupProp props k).
Proof.
  intros Hfile Hparse Hx Hy.
  pose proof (ManifestFacts.addDependencies_run proc w text props x y
                Hfile Hparse Hx Hy) as Hadd.
  split.
  - intros Hnull. exists (logged (ReadFileSync (packageJSONPath proc)) w).
    split; [|split; reflexivity].
    apply setupTypeScript_stops_in_convert, convert_stops_at_manifest.
    rewrite Hadd. destruct Hnull as [-> | ->]; [reflexivity|].
    now destruct x.
  - intros Hxn Hyn Hxo r w' Hrun.
    assert (Ex : Object_assign (Some x) devDependencies = Returned x).
    { destruct x as [| | | | |deps]; try reflexivity; [congruence|].
      now destruct (Hxo deps). }
    assert (Ey : ∃ y', Object_assign (Some y) scripts = Returned y').
    { destruct y; try (eexists; reflexivity). congruence. }
    destruct Ey as [y' Ey]. rewrite Ex, Ey in Hadd.
    set (props' := assignProp (assignProp props "devDependencies" x) "scripts" y') in *.
    exists props'.
    destruct (writeFileSync_over (packageJSONPath proc) (JSON_stringify (JObject props'))
                text (logged (ReadFileSync (packageJSONPath proc)) w))
      as (d1 & Hw & Hd1); [apply snoc_nonempty | exact Hfile |].
    rewrite Hw in Hadd. split; [|split; [|split]].
    + set (q := packageJSONPath proc) in *.
      set (v := IsFile (JSON_stringify (JObject props'))) in *.
      assert (Hrest : preserves (shows q v)
                ((renameMain proc ;; switchAppToTS proc ;; editRollupConfig proc ;;
                  addTsconfig proc ;; addSvelteConfig proc ;; addGlobalDts proc) ;;
                 deleteThisScript proc ;; addExtensionRecommendation proc ;;
                 report proc)).
      { apply preserves_bind; [|intros _].
        - apply convert_tail_keeps; subst q v; side.
        - apply finish_keeps; subst q v; side. }
      unfold setupTypeScript, convert in Hrun.
      apply bind_cases in Hrun as [(e & Hc & _)|([] & w7 & Hc & Hfin)].
      * rewrite (bind_run _ _ _ _ _ Hadd) in Hc.
        refine (Hrest (World d1 _ _) (Thrown e) w' _ Hd1).
        exact (bind_thrown _ _ _ _ _ Hc).
      * rewrite (bind_run _ _ _ _ _ Hadd) in Hc.
        refine (Hrest (World d1 _ _) r w' _ Hd1).
        rewrite (bind_run _ _ _ _ _ Hc). exact Hfin.
    + unfold props'. rewrite !keys_assign; [reflexivity | now rewrite Hx |].
      rewrite lookup_assign_ne by discriminate. now rewrite Hy.
    + unfold props'. rewrite lookup_assign_ne by discriminate. apply lookup_assign_eq.
    + intros k Hk. unfold props'. rewrite lookup_assign_ne by exact Hk.
      destruct (decide (k = "devDependencies")) as [-> | Hne].
      * now rewrite lookup_assign_eq.
      * now rewrite lookup_assign_ne.
Qed.

Lemma manifest_maps_of_other_types_witness :
  (setupTypeScript Sample.inPlace Sample.startOddManifest).1 = Returned tt ∧
  ∃ props',
    at_ (packageJSONPath Sample.inPlace)
        (disk (setupTypeScript Sample.inPlace Sample.startOddManifest).2)
    = IsFile (JSON_stringify (JObject props')) ∧
    lookupProp props' "devDependencies" = Some (JString "none").
Proof.
  split; [vm_compute; reflexivity|].
  destruct (manifest_maps_of_other_types (rt := SampleRuntime.runtime)
              Sample.inPlace Sample.startOddManifest
              (SampleRuntime.stringify (JObject Sample.oddManifestProps))
              Sample.oddManifestProps (JString "none")
              (JObject Sample.manifestScripts))
    as [_ Hkept]; [vm_compute; reflexivity .. |].
  destruct (Hkept ltac:(discriminate) ltac:(discriminate) ltac:(discriminate)
              (setupTypeScript Sample.inPlace Sample.startOddManifest).1
              (setupTypeScript Sample.inPlace Sample.startOddManifest).2)
    as (props' & Hf & _ & Hd & _); [vm_compute; reflexivity|].
  exists props'. split; [exact Hf | exact Hd].
Defined.

(** X12. The merge of the manifest can be repeated. Merging the merged
    manifest gives the merged manifest; and where the runtime reads the
    written text back as the value written, the step that adds the
    dependencies, run on the disk it left, returns and leaves the disk as
    it is. *)
Theorem manifest_merge_idempotent `{rt : Runtime} (proc : process) (w : world)
    (text : string) (props deps scr : list (string * json number)) :
  at_ (packageJSONPath proc) (disk w) = IsFile text →
  JSON_parse text = Some (JObject props) →
  lookupProp props "devDependencies" = Some (JObject deps) →
  lookupProp props "scripts" = Some (JObject scr) →
  let merged := mergedManifest props deps scr in
  JSON_parse (JSON_stringify (JObject merged)) = Some (JObject merged) →
  mergedManifest merged (mergeInto deps devDependencies) (mergeInto scr scripts) = merged ∧
  ∃ w1, addDependencies proc w = (Returned tt, w1) ∧
        at_ (packageJSONPath proc) (disk w1) = IsFile (JSON_stringify (JObject merged)) ∧
        ∃ w2, addDependencies proc w1 = (Returned tt, w2) ∧ disk w2 = disk w1.
Proof.
  intros Hfile Hparse Hdeps Hscr merged Hback.
  pose proof (ManifestFacts.mergedManifest_idem props deps scr) as Hidem.
  fold merged in Hidem. split; [exact Hidem|].
  destruct (addDependencies_merges proc w text props deps scr Hfile Hparse Hdeps Hscr)
    as (d1 & Hadd & Hd1).
  fold merged in Hadd, Hd1.
  eexists. split; [exact Hadd|]. split; [exact Hd1|].
  destruct (ManifestFacts.mergedManifest_maps props deps scr) as [Hd Hs].
  fold merged in Hd, Hs.
  eexists. split.
  - rewrite (ManifestFacts.addDependencies_run proc (World d1 _ _) _ merged _ _
               Hd1 Hback Hd Hs).
    cbn [Object_assign].
    change (assignProp (assignProp merged "devDependencies"
              (JObject (mergeInto (mergeInto deps devDependencies) devDependencies)))
              "scripts" (JObject (mergeInto (mergeInto scr scripts) scripts)))
      with (mergedManifest merged (mergeInto deps devDependencies)
              (mergeInto scr scripts)).
    rewrite Hidem.
    rewrite writeFileSync_same; [reflexivity | apply snoc_nonempty | exact Hd1].
  - reflexivity.
Qed.

Lemma manifest_merge_idempotent_witness :
  ∃ w1, addDependencies Sample.inPlace Sample.start = (Returned tt, w1) ∧
        ∃ w2, addDependencies Sample.inPlace w1 = (Returned tt, w2) ∧ disk w2 = disk w1.
Proof.
  destruct (manifest_merge_idempotent (rt := SampleRuntime.runtime)
              Sample.inPlace Sample.start Sample.packageJSON Sample.manifestProps
              Sample.manifestDependencies Sample.manifestScripts)
    as (_ & w1 & H1 & _ & H2); [vm_compute; reflexivity .. |].
  exists w1. split; [exact H1 | exact H2].
Defined.

(** X13. The deletion of a script that is not alone. The run was given no
    target directory, and the script's directory holds, besides the script,
    something other than a single entry named .DS_store, be it one entry of
    another name, such as the .DS_Store that macOS writes, or several: the
    step unlinks the script and nothing else, reads the directory twice and
    returns; the other entries and the directory stay. *)
Theorem script_directory_kept `{rt : Runtime} (proc : process) (w : world)
    (es : gmap string node) (c : string) :
  truthy (argv2 proc) = false →
  lookup (__dirname proc) (disk w) = Some (Dir es) →
  es !! scriptName = Some (File c) →
  delete scriptName es ≠ ∅ →
  (∀ m, delete scriptName es ≠ {[ ".DS_store" := m ]}) →
  ∃ d', deleteThisScript proc w
        = (Returned tt,
           World d' (ReaddirSync (__dirname proc) :: ReaddirSync (__dirname proc)
                       :: UnlinkSync (__filename proc) :: journal w)
                 (console w)) ∧
        lookup (__dirname proc) d' = Some (Dir (delete scriptName es)) ∧
        at_ (__filename proc) d' = Absent.
Proof.
  intros Harg Hdir Hes Hrest Hstore.
  destruct (SuccessFacts.deleteThisScript_others proc w es c Harg Hdir Hes Hrest Hstore)
    as [Hrun Hdir1].
  eexists. split; [exact Hrun|]. split; [exact Hdir1|].
  unfold __filename. rewrite (at_script _ _ (delete scriptName es)) by exact Hdir1.
  now rewrite lookup_delete_eq.
Qed.

Lemma script_directory_kept_witness :
  ∃ d', deleteThisScript Sample.inPlace Sample.startWithFinderStore
        = (Returned tt,
           World d' [ ReaddirSync (__dirname Sample.inPlace);
                      ReaddirSync (__dirname Sample.inPlace);
                      UnlinkSync (__filename Sample.inPlace) ] []) ∧
        lookup (__dirname Sample.inPlace) d'
        = Some (Dir (delete scriptName Sample.scriptsAndFinderStore)) ∧
        at_ (__filename Sample.inPlace) d' = Absent.
Proof.
  apply (script_directory_kept (rt := SampleRuntime.runtime)
           Sample.inPlace Sample.startWithFinderStore
           Sample.scriptsAndFinderStore Sample.scriptText).
  - reflexivity.
  - vm_compute. reflexivity.
  - vm_compute. reflexivity.
  - intros H. apply (f_equal (λ m : gmap string node, m !! ".DS_Store")) in H.
    revert H. vm_compute. discriminate.
  - intros m H. apply (f_equal (λ m : gmap string node, m !! ".DS_Store")) in H.
    cbv beta in H. rewrite lookup_singleton_ne in H by discriminate. revert H.
    vm_compute. discriminate.
Defined.

(** X14. The dev server of rollup.config.js. Whatever bundles are written
    and whatever events the process emits, in whatever order: a production
    build (ROLLUP_WATCH unset or empty) starts no child and adds no
    listener; otherwise the first bundle starts [npm run start -- --dev]
    and adds the two listeners, and no later bundle starts a second child
    or adds a listener again. So each event calls [toExit] once, and every
    signal sent is the signal 0, to that one child. *)
Theorem dev_server_started_once (ROLLUP_WATCH : option string)
    (steps : list RollupConfig.step) :
  let s := RollupConfig.session ROLLUP_WATCH steps in
  (RollupConfig.production ROLLUP_WATCH = true ∨ RollupConfig.Bundle ∉ steps →
   s = RollupConfig.initial) ∧
  (RollupConfig.production ROLLUP_WATCH = false → RollupConfig.Bundle ∈ steps →
   RollupConfig.server s = Some 0 ∧
   RollupConfig.children (RollupConfig.outside s) = [RollupConfig.npmStart] ∧
   RollupConfig.listeners (RollupConfig.outside s)
   = [RollupConfig.SIGTERM; RollupConfig.exit]) ∧
  (∀ ev, RollupConfig.session ROLLUP_WATCH (steps ++ [RollupConfig.Emit ev])%list
         = RollupConfig.toExit s) ∧
  Forall (λ k, k = (0, 0%Z)) (RollupConfig.kills (RollupConfig.outside s)).
Proof.
  intros s. subst s.
  destruct (RollupFacts.session_states ROLLUP_WATCH steps) as [H1 H2].
  split; [exact H1|]. split; [|split].
  - intros Hdev Hin. now destruct (H2 Hdev Hin) as [n ->].
  - intros ev. rewrite RollupFacts.session_snoc. simpl.
    apply RollupFacts.emit_toExit, RollupFacts.session_reached.
  - destruct (RollupFacts.session_reached ROLLUP_WATCH steps) as [-> | [n ->]]; simpl.
    + constructor.
    + apply Forall_forall. intros k Hk. now apply elem_of_replicate in Hk as [-> _].
Qed.

Lemma dev_server_started_once_witness :
  RollupConfig.session (Some "true")
    [ RollupConfig.Bundle; RollupConfig.Bundle; RollupConfig.Emit RollupConfig.SIGTERM;
      RollupConfig.Bundle; RollupConfig.Emit RollupConfig.exit ]
  = RollupConfig.State (Some 0)
      (RollupConfig.Host [RollupConfig.npmStart]
         [RollupConfig.SIGTERM; RollupConfig.exit] [(0, 0%Z); (0, 0%Z)]) ∧
  RollupConfig.session None [ RollupConfig.Bundle; RollupConfig.Emit RollupConfig.exit ]
  = RollupConfig.initial.
Proof.
  split.
  - destruct (dev_server_started_once (Some "true")
                [ RollupConfig.Bundle; RollupConfig.Bundle;
                  RollupConfig.Emit RollupConfig.SIGTERM; RollupConfig.Bundle ])
      as (_ & _ & Hemit & _).
    etransitivity; [exact (Hemit RollupConfig.exit)|]. vm_compute. reflexivity.
  - destruct (dev_server_started_once None
                [ RollupConfig.Bundle; RollupConfig.Emit RollupConfig.exit ])
      as (Hprod & _).
    apply Hprod. left. reflexivity.
Defined.

(** X15. The run returns on a well-formed template. The manifest is a
    file whose text parses to an object with a devDependencies map and a
    scripts map; src/main.js, src/App.svelte and rollup.config.js are files;
    none of src/main.ts, tsconfig.json, svelte.config.js, src/global.d.ts and
    .vscode/extensions.json is a directory, and .vscode is no file; and in a
    run without argument the script is a file where the process says it is,
    with no directory named .DS_store beside it. Then no step throws
    (permissions and failures of the device are not part of the disk here). *)
Theorem conversion_succeeds `{rt : Runtime} (proc : process) (w : world)
    (text m a cfg : string) (props deps scr : list (string * json number)) :
  at_ (packageJSONPath proc) (disk w) = IsFile text →
  JSON_parse text = Some (JObject props) →
  lookupProp props "devDependencies" = Some (JObject deps) →
  lookupProp props "scripts" = Some (JObject scr) →
  at_ (beforeMainJSPath proc) (disk w) = IsFile m →
  at_ (afterMainTSPath proc) (disk w) ≠ IsDir →
  at_ (appSveltePath proc) (disk w) = IsFile a →
  at_ (rollupConfigPath proc) (disk w) = IsFile cfg →
  at_ (tsconfigPath proc) (disk w) ≠ IsDir →
  at_ (svelteConfigPath proc) (disk w) ≠ IsDir →
  at_ (dtsPath proc) (disk w) ≠ IsDir →
  (∀ c, at_ (projectRoot proc ++ [".vscode"])%list (disk w) ≠ IsFile c) →
  at_ (projectRoot proc ++ [".vscode"; "extensions.json"])%list (disk w) ≠ IsDir →
  truthy (argv2 proc) = true ∨
    (∃ c, at_ (__filename proc) (disk w) = IsFile c ∧
          at_ (__dirname proc ++ [".DS_store"])%list (disk w) ≠ IsDir) →
  ∃ w', setupTypeScript proc w = (Returned tt, w').
Proof.
  intros Hfile Hparse Hdeps Hscr Hmain Hnew Happ Hcfg Hts Hsv Hdts Hvs Hext Hown.
  destruct (SuccessFacts.convert_ok proc w text m a cfg props deps scr)
    as (w7 & t & Hconv & Hpkg); try assumption.
  set (vs := (projectRoot proc ++ [".vscode"])%list) in *.
  set (ext := (vs ++ ["extensions.json"])%list).
  assert (Hext' : at_ ext (disk w) ≠ IsDir).
  { unfold ext, vs. now rewrite <- app_assoc. }
  clear Hext.
  assert (Hvs7 : at_ vs (disk w7) = at_ vs (disk w)).
  { apply (SuccessFacts.kept (convert proc) vs w w7 (Returned tt)); [|exact Hconv].
    apply SuccessFacts.convert_keeps; subst vs; side. }
  assert (Hext7 : at_ ext (disk w7) = at_ ext (disk w)).
  { apply (SuccessFacts.kept (convert proc) ext w w7 (Returned tt)); [|exact Hconv].
    apply SuccessFacts.convert_keeps; subst ext vs; side. }
  assert (Hdel : ∃ w8, deleteThisScript proc w7 = (Returned tt, w8)).
  { destruct (truthy (argv2 proc)) eqn:Harg.
    { exists w7. unfold deleteThisScript. now rewrite Harg. }
    destruct Hown as [|(c & Hscript & Hstore)]; [discriminate|].
    assert (Hbeside : ∀ x : string,
              x ∉ [ "package.json"; "main.js"; "main.ts"; "App.svelte";
                    "rollup.config.js"; "tsconfig.json"; "svelte.config.js";
                    "global.d.ts" ] →
              at_ (__dirname proc ++ [x])%list (disk w7)
              = at_ (__dirname proc ++ [x])%list (disk w)).
    { intros x Hx.
      apply (SuccessFacts.kept (convert proc) _ w w7 (Returned tt)); [|exact Hconv].
      now apply SuccessFacts.beside_script_kept. }
    apply (SuccessFacts.deleteThisScript_ok proc w7 c).
    - unfold __filename. rewrite Hbeside; [exact Hscript|].
      apply (bool_decide_unpack _). vm_compute. exact I.
    - rewrite Hbeside; [exact Hstore|].
      apply (bool_decide_unpack _). vm_compute. exact I.
    - destruct (decide (__dirname proc = [])) as [Hnil|Hnil]; [right | now left].
      exists "package.json". split; [discriminate|]. split; [discriminate|].
      assert (Hp : (__dirname proc ++ ["package.json"])%list = packageJSONPath proc).
      { unfold packageJSONPath, projectRoot. now rewrite Harg, Hnil. }
      rewrite Hp, Hpkg. discriminate. }
  destruct Hdel as [w8 Hdel].
  pose proof (deleteThisScript_keeps proc (packageJSONPath proc) (IsFile t)
                ltac:(side) _ _ _ Hdel Hpkg) as Hpkg8.
  assert (Hroot8 : at_ (projectRoot proc) (disk w8) = IsDir).
  { rewrite <- (RunFacts.parent_snoc (projectRoot proc) "package.json").
    apply at_parent; [apply snoc_nonempty|].
    change (projectRoot proc ++ ["package.json"])%list with (packageJSONPath proc).
    rewrite Hpkg8. discriminate. }
  assert (Hvs8 : ∀ c, at_ vs (disk w8) ≠ IsFile c).
  { intros c.
    destruct (SuccessFacts.deleteThisScript_only_removes proc vs (at_ vs (disk w7))
                _ _ _ Hdel (or_introl eq_refl)) as [-> | ->]; [|discriminate].
    rewrite Hvs7. apply Hvs. }
  assert (Hext8 : at_ ext (disk w8) ≠ IsDir).
  { destruct (SuccessFacts.deleteThisScript_only_removes proc ext (at_ ext (disk w7))
                _ _ _ Hdel (or_introl eq_refl)) as [-> | ->]; [|discriminate].
    now rewrite Hext7. }
  destruct (SuccessFacts.addExtensionRecommendation_ok proc w8 Hroot8 Hvs8 Hext8)
    as [w9 Hrec].
  eexists. unfold setupTypeScript.
  rewrite (bind_run _ _ _ _ _ Hconv), (bind_run _ _ _ _ _ Hdel).
  rewrite (bind_run _ _ _ _ _ Hrec). apply ConsoleFacts.report_run.
Qed.

Lemma conversion_succeeds_witness :
  (∃ w', setupTypeScript Sample.inPlace Sample.startWithStore = (Returned tt, w')) ∧
  (∃ w', setupTypeScript Sample.withArgument Sample.startWithSettings
         = (Returned tt, w')).
Proof.
  split.
  - apply (conversion_succeeds (rt := SampleRuntime.runtime)
             Sample.inPlace Sample.startWithStore
             Sample.packageJSON Sample.mainJS Sample.appSvelte Sample.rollupConfig
             Sample.manifestProps Sample.manifestDependencies Sample.manifestScripts);
      try (vm_compute; reflexivity); try (vm_compute; discriminate).
    right. exists Sample.scriptText. split; [vm_compute; reflexivity|].
    vm_compute. discriminate.
  - apply (conversion_succeeds (rt := SampleRuntime.runtime)
             Sample.withArgument Sample.startWithSettings
             Sample.packageJSON Sample.mainJS Sample.appSvelte Sample.rollupConfig
             Sample.manifestProps Sample.manifestDependencies Sample.manifestScripts);
      try (vm_compute; reflexivity); try (vm_compute; discriminate).
    left. reflexivity.
Defined.

(** X16. The order of the keys in the manifest. The merged manifest has
    the keys of the old one in their order; in each of the two maps the old
    keys keep their order and the keys that the script adds and the map did
    not have follow them, in the order in which the script lists them. *)
Theorem manifest_keys_in_order {number : Type}
    (props deps scr : list (string * json number)) :
  lookupProp props "devDependencies" = Some (JObject deps) →
  lookupProp props "scripts" = Some (JObject scr) →
  map fst (mergedManifest props deps scr) = map fst props ∧
  lookupProp (mergedManifest props deps scr) "devDependencies"
  = Some (JObject (mergeInto deps devDependencies)) ∧
  lookupProp (mergedManifest props deps scr) "scripts"
  = Some (JObject (mergeInto scr scripts)) ∧
  map fst (mergeInto deps devDependencies)
  = (map fst deps ++ filter (λ k, k ∉ map fst deps) (map fst devDependencies))%list ∧
  map fst (mergeInto scr scripts)
  = (map fst scr ++ filter (λ k, k ∉ map fst scr) (map fst scripts))%list.
Proof.
  intros Hdeps Hscr.
  destruct (ManifestFacts.mergedManifest_maps props deps scr) as [Hd Hs].
  split; [|split; [exact Hd|split; [exact Hs|split]]].
  - unfold mergedManifest. rewrite !keys_assign; [reflexivity | now rewrite Hdeps |].
    rewrite lookup_assign_ne by discriminate. now rewrite Hscr.
  - apply ManifestFacts.keys_merge.
    apply (bool_decide_unpack (NoDup (map fst devDependencies))).
    vm_compute. exact I.
  - apply ManifestFacts.keys_merge. repeat constructor; apply not_elem_of_nil.
Qed.

Lemma manifest_keys_in_order_witness :
  map fst (mergeInto Sample.manifestDependencies devDependencies)
  = [ "@rollup/plugin-commonjs"; "rollup"; "svelte"; "typescript";
      "svelte-check"; "svelte-preprocess"; "@rollup/plugin-typescript";
      "tslib"; "@tsconfig/svelte" ] ∧
  map fst (mergeInto Sample.manifestScripts scripts) = [ "build"; "dev"; "start"; "check" ].
Proof.
  destruct (manifest_keys_in_order Sample.manifestProps Sample.manifestDependencies
              Sample.manifestScripts) as (_ & _ & _ & Hd & Hs);
    [vm_compute; reflexivity .. |].
  split.
  - rewrite Hd. vm_compute. reflexivity.
  - rewrite Hs. vm_compute. reflexivity.
Defined.

(** X17. The script's directory after a whole run. The run was given no
    target directory and returns; at the start the script's directory held
    the script alone, or the script and a file .DS_store; and the directory
    is not the .vscode of the target, which the run makes anew. Then after
    the run the script, .DS_store and the directory are gone. *)
Theorem scripts_directory_removed `{rt : Runtime} (proc : process) (w w' : world)
    (es : gmap string node) (c : string) :
  truthy (argv2 proc) = false →
  setupTypeScript proc w = (Returned tt, w') →
  lookup (__dirname proc) (disk w) = Some (Dir es) →
  es !! scriptName = Some (File c) →
  delete scriptName es = ∅ ∨ (∃ m, delete scriptName es = {[ ".DS_store" := File m ]}) →
  __dirname proc ≠ (projectRoot proc ++ [".vscode"])%list →
  at_ (__filename proc) (disk w') = Absent ∧
  at_ (__dirname proc ++ [".DS_store"])%list (disk w') = Absent ∧
  at_ (__dirname proc) (disk w') = Absent.
Proof.
  intros Harg Hrun Hdir Hes Hrest Hvs.
  assert (Hnone : ∀ x, x ≠ scriptName → x ≠ ".DS_store" → es !! x = None).
  { intros x H1 H2. rewrite <- (lookup_delete_ne es scriptName x) by congruence.
    destruct Hrest as [-> | [m ->]]; [apply lookup_empty|].
    apply lookup_singleton_ne. congruence. }
  assert (Hfiles : ∀ x, es !! x = None ∨ ∃ c, es !! x = Some (File c)).
  { intros x. destruct (decide (x = scriptName)) as [-> | H1]; [eauto|].
    destruct (decide (x = ".DS_store")) as [-> | H2]; [|left; now apply Hnone].
    rewrite <- (lookup_delete_ne es scriptName ".DS_store") by discriminate.
    destruct Hrest as [-> | [m ->]]; [left; apply lookup_empty|].
    right. exists m. apply lookup_singleton_eq. }
  pose proof Hrun as Hsteps.
  apply setupTypeScript_returned in Hsteps as (w7 & w8 & w9 & Hconv & Hdel & Hext & Hrep).
  destruct (CleanupFacts.script_dir_untouched proc w w7 w' es Harg Hrun Hconv Hdir Hnone)
    as [Hne Hsame].
  assert (Hdir7 : lookup (__dirname proc) (disk w7) = Some (Dir es)).
  { assert (Hd : at_ (__dirname proc) (disk w7) = IsDir).
    { rewrite <- (RunFacts.parent_snoc (__dirname proc) scriptName).
      apply at_parent; [apply snoc_nonempty|].
      rewrite Hsame, (at_script _ _ es _ Hdir), Hes. discriminate. }
    apply at_dir in Hd as [es7 Hd]. rewrite Hd.
    now rewrite (CleanupFacts.same_entries proc (disk w) (disk w7) es es7 Hdir Hd
                   Hfiles Hsame). }
  assert (Hgone8 : at_ (__dirname proc) (disk w8) = Absent).
  { destruct Hrest as [Hrest | [m Hrest]].
    - destruct (deleteThisScript_alone proc w7 es c Harg Hne Hdir7 Hes Hrest)
        as (d' & E & Hgone).
      rewrite E in Hdel. now injection Hdel as <-.
    - destruct (deleteThisScript_store proc w7 es c m Harg Hne Hdir7 Hes Hrest)
        as (d' & E & Hgone).
      rewrite E in Hdel. now injection Hdel as <-. }
  assert (Hgone : at_ (__dirname proc) (disk w') = Absent).
  { destruct (CleanupFacts.script_dir_shape proc Harg Hne) as [d Hd].
    apply (report_keeps proc (shows (__dirname proc) Absent) _ _ _ Hrep).
    revert Hgone8.
    apply (addExtensionRecommendation_keeps proc (__dirname proc) Absent)
      with (r := Returned tt); [| |exact Hext].
    - right. intros [k Hk]. rewrite Hd in Hk, Hvs.
      rewrite <- app_assoc in Hk. apply app_inv_head in Hk.
      destruct k; [|discriminate]. injection Hk as Hk. apply Hvs. now rewrite Hk.
    - right. rewrite Hd. intros H. rewrite <- app_assoc in H.
      apply app_inv_head in H. discriminate. }
  split; [|split; [|exact Hgone]].
  - apply at_below; [discriminate | congruence].
  - apply at_below; [discriminate | congruence].
Qed.

Lemma scripts_directory_removed_witness :
  at_ (__filename Sample.inPlace)
      (disk (setupTypeScript Sample.inPlace Sample.startWithStore).2) = Absent ∧
  at_ (__dirname Sample.inPlace ++ [".DS_store"])%list
      (disk (setupTypeScript Sample.inPlace Sample.startWithStore).2) = Absent ∧
  at_ (__dirname Sample.inPlace)
      (disk (setupTypeScript Sample.inPlace Sample.startWithStore).2) = Absent.
Proof.
  apply (scripts_directory_removed (rt := SampleRuntime.runtime)
           Sample.inPlace Sample.startWithStore
           (setupTypeScript Sample.inPlace Sample.startWithStore).2
           Sample.scriptsAndStore Sample.scriptText).
  - reflexivity.
  - vm_compute. reflexivity.
  - vm_compute. reflexivity.
  - vm_compute. reflexivity.
  - right. exists "". vm_compute. reflexivity.
  - discriminate.
Defined.

(** X18. What a run that returns has found. The manifest was a file
    whose text parses to a value with a devDependencies key and a scripts
    key; src/main.js existed; src/App.svelte and rollup.config.js were
    files. Without any one of these the run throws. *)
Theorem returned_run_found_its_inputs `{rt : Runtime} (proc : process) (w w' : world) :
  setupTypeScript proc w = (Returned tt, w') →
  (∃ text v, at_ (packageJSONPath proc) (disk w) = IsFile text ∧
             JSON_parse text = Some v ∧
             hasProp v "devDependencies" = true ∧ hasProp v "scripts" = true) ∧
  at_ (beforeMainJSPath proc) (disk w) ≠ Absent ∧
  (∃ a, at_ (appSveltePath proc) (disk w) = IsFile a) ∧
  (∃ cfg, at_ (rollupConfigPath proc) (disk w) = IsFile cfg).
Proof.
  intros Hrun.
  destruct (CleanupFacts.returned_found proc w w' Hrun) as [[text Hpkg] Hmain].
  apply setupTypeScript_returned in Hrun as (w7 & _ & _ & Hconv & _).
  apply convert_returned in Hconv
    as (w1 & w2 & w3 & w4 & w5 & w6 & Ha & Hb & Hc & Hd & _).
  assert (K1 : ∀ q, q ≠ packageJSONPath proc → at_ q (disk w1) = at_ q (disk w)).
  { intros q Hq. apply (SuccessFacts.kept (addDependencies proc) q w w1 (Returned tt));
      [|exact Ha].
    intros v. apply addDependencies_keeps. now right. }
  assert (K2 : ∀ q, ¬ beforeMainJSPath proc `prefix_of` q →
                    ¬ afterMainTSPath proc `prefix_of` q →
                    at_ q (disk w2) = at_ q (disk w1)).
  { intros q H1 H2. apply (SuccessFacts.kept (renameMain proc) q w1 w2 (Returned tt));
      [|exact Hb].
    intros v. apply renameMain_keeps; auto. }
  assert (K3 : ∀ q, q ≠ appSveltePath proc → at_ q (disk w3) = at_ q (disk w2)).
  { intros q Hq. apply (SuccessFacts.kept (switchAppToTS proc) q w2 w3 (Returned tt));
      [|exact Hc].
    intros v. apply switchAppToTS_keeps. now right. }
  split; [|split; [exact Hmain|split]].
  - exists text. destruct (JSON_parse text) as [v|] eqn:Hparse.
    + exists v. split; [exact Hpkg|]. split; [reflexivity|].
      destruct (hasProp v "devDependencies") eqn:E1,
               (hasProp v "scripts") eqn:E2; [now split | exfalso ..].
      * rewrite (addDependencies_typeError proc w text v Hpkg Hparse) in Ha;
          [discriminate | now right].
      * rewrite (addDependencies_typeError proc w text v Hpkg Hparse) in Ha;
          [discriminate | now left].
      * rewrite (addDependencies_typeError proc w text v Hpkg Hparse) in Ha;
          [discriminate | now left].
    + exfalso. unfold addDependencies in Ha.
      rewrite (bind_run _ _ _ _ _ (readFileSync_file _ _ _ Hpkg)) in Ha.
      rewrite Hparse in Ha. discriminate.
  - unfold switchAppToTS in Hc. apply bind_returned in Hc as (a & w0 & Hread & _).
    apply readFileSync_returned in Hread as [Hfile _]. exists a.
    rewrite <- (K1 (appSveltePath proc)) by side.
    now rewrite <- (K2 (appSveltePath proc)) by side.
  - unfold editRollupConfig in Hd. apply bind_returned in Hd as (cfg & w0 & Hread & _).
    apply readFileSync_returned in Hread as [Hfile _]. exists cfg.
    rewrite <- (K1 (rollupConfigPath proc)) by side.
    rewrite <- (K2 (rollupConfigPath proc)) by side.
    now rewrite <- (K3 (rollupConfigPath proc)) by side.
Qed.

Lemma returned_run_found_its_inputs_witness :
  (∃ a, at_ (appSveltePath Sample.inPlace) (disk Sample.start) = IsFile a) ∧
  (∃ cfg, at_ (rollupConfigPath Sample.inPlace) (disk Sample.start) = IsFile cfg).
Proof.
  destruct (returned_run_found_its_inputs (rt := SampleRuntime.runtime)
              Sample.inPlace Sample.start
              (setupTypeScript Sample.inPlace Sample.start).2)
    as (_ & _ & Ha & Hc); [vm_compute; reflexivity|].
  split; [exact Ha | exact Hc].
Defined.
